(** * geotolkparser: a shallow embedding of [geotolktools/parser.py]

    The parser decodes three text formats (sound files [.snd],
    interpretation files [.tlk], auxiliary files [.prv]).  Every function
    of [parser.py] that the properties below talk about is transcribed
    here, keeping its name; Python exceptions are results of type [res],
    dictionaries are [gmap]s, and the tables of [mappings.py] (which the
    parser imports with [from .mappings import *]) are parameters. *)

From Stdlib Require Import ZArith QArith.QArith_base Ascii String List Lia Bool.
From Stdlib Require Import Numbers.DecimalString.
From stdpp Require Import base option list gmap strings.

Local Open Scope string_scope.
Local Open Scope list_scope.
Local Open Scope Z_scope.

(** ** Exceptions *)

(** The exception classes that the code raises or catches.  All of them
    derive from [Exception]; none derives from another one of the list. *)
Inductive exn : Set :=
| IndexError
| ValueError
| KeyError
| TypeError
| UnboundLocalError.

#[global] Instance exn_eq_dec : EqDecision exn.
Proof. solve_decision. Defined.

Inductive res (A : Type) : Type :=
| Ok (a : A)
| Raise (e : exn).
Arguments Ok {A} a.
Arguments Raise {A} e.

#[global] Instance res_ret : MRet res := fun A a => Ok a.
#[global] Instance res_bind : MBind res := fun A B k m =>
  match m with
  | Ok a => k a
  | Raise e => Raise e
  end.

(** [try: m  except (e1, ..): h] *)
Definition try_except {A} (m : res A) (caught : exn -> bool) (h : exn -> res A) : res A :=
  match m with
  | Ok a => Ok a
  | Raise e => if caught e then h e else Raise e
  end.

Definition is_IndexError (e : exn) : bool := bool_decide (e = IndexError).
Definition is_ValueError (e : exn) : bool := bool_decide (e = ValueError).
Definition is_Index_or_ValueError (e : exn) : bool :=
  is_IndexError e || is_ValueError e.
(** [except Exception] *)
Definition is_Exception (e : exn) : bool := true.

Definition is_Ok {A} (m : res A) : Prop := exists a, m = Ok a.

(** ** Python strings and lists

    A [str] is a sequence of code points.  Characters are Rocq's 8-bit
    [ascii], read as the code points U+0000 to U+00FF. *)

Definition chr (n : nat) : ascii := ascii_of_nat n.
Definition ord (c : ascii) : nat := nat_of_ascii c.

(** [c.isspace()]: on this range the tab to carriage return controls, the
    four separators U+001C to U+001F, the space, NEL and the no-break
    space. *)
Definition isspace (c : ascii) : bool :=
  let n := ord c in
  ((9 <=? n) && (n <=? 13) || (28 <=? n) && (n <=? 32)
   || (n =? 133) || (n =? 160))%nat.

(** A decimal digit, [0] to [9]. *)
Definition isdecimal (c : ascii) : bool :=
  let n := ord c in ((48 <=? n) && (n <=? 57))%nat.

(** [c.isdigit()]: the decimal digits and the superscripts two, three and
    one (U+00B2, U+00B3, U+00B9), which are digits but not decimals. *)
Definition isdigit_chr (c : ascii) : bool :=
  let n := ord c in
  (isdecimal c || (n =? 178) || (n =? 179) || (n =? 185))%nat.

Fixpoint str_forallb (p : ascii -> bool) (s : string) : bool :=
  match s with
  | EmptyString => true
  | String c s' => p c && str_forallb p s'
  end.

Definition str_nonempty (s : string) : bool :=
  match s with EmptyString => false | _ => true end.

(** [s.isdigit()] *)
Definition isdigit (s : string) : bool :=
  str_nonempty s && str_forallb isdigit_chr s.

(** [s.split()]: the maximal runs of characters that are not whitespace. *)
Fixpoint split_from (cur : string) (s : string) : list string :=
  match s with
  | EmptyString => if str_nonempty cur then [cur] else []
  | String c s' =>
      if isspace c
      then (if str_nonempty cur then cur :: split_from "" s' else split_from "" s')
      else split_from (cur +:+ String c "") s'
  end.

Definition split (s : string) : list string := split_from "" s.

Fixpoint lstrip (s : string) : string :=
  match s with
  | String c s' => if isspace c then lstrip s' else s
  | EmptyString => EmptyString
  end.

Fixpoint str_rev_onto (s acc : string) : string :=
  match s with
  | EmptyString => acc
  | String c s' => str_rev_onto s' (String c acc)
  end.

Definition str_rev (s : string) : string := str_rev_onto s "".

(** [s.strip()] *)
Definition strip (s : string) : string :=
  str_rev (lstrip (str_rev (lstrip s))).

(** [s[n:]] and [s[:n]] for [n >= 0] *)
Fixpoint str_drop (n : nat) (s : string) : string :=
  match n, s with
  | O, _ => s
  | S n', String _ s' => str_drop n' s'
  | S _, EmptyString => EmptyString
  end.

Fixpoint str_take (n : nat) (s : string) : string :=
  match n, s with
  | O, _ => EmptyString
  | S n', String c s' => String c (str_take n' s')
  | S _, EmptyString => EmptyString
  end.

(** [s[a:b]] for [0 <= a <= b] *)
Definition str_slice (a b : nat) (s : string) : string :=
  str_take (b - a) (str_drop a s).

(** [sep.join(l)] on a list of [str] *)
Fixpoint join (sep : string) (l : list string) : string :=
  match l with
  | [] => ""
  | [x] => x
  | x :: rest => x +:+ sep +:+ join sep rest
  end.

(** [l[i]]: a negative index counts from the end, and an index outside
    [-len(l) .. len(l)-1] raises [IndexError]. *)
Definition getitem {A} (l : list A) (i : Z) : res A :=
  let n := Z.of_nat (length l) in
  let j := if i <? 0 then n + i else i in
  if (0 <=? j) && (j <? n)
  then match l !! Z.to_nat j with
       | Some a => Ok a
       | None => Raise IndexError
       end
  else Raise IndexError.

(** [l[-1]] is the last element. *)
Definition list_last {A} (l : list A) : res A := getitem l (-1).

(** ** Block segmenters *)

Definition Block : Type := list string.

(** [_get_blocks]: the loop carries [blocks] and [current_block]. *)
Fixpoint _get_blocks_loop (lines : list string) (blocks : list Block)
    (current_block : Block) : list Block * Block :=
  match lines with
  | [] => (blocks, current_block)
  | line :: rest =>
      if String.eqb line "*"
      then _get_blocks_loop rest (blocks ++ [current_block]) []
      else _get_blocks_loop rest blocks (current_block ++ [line])
  end.

Definition nonempty {A} (l : list A) : bool :=
  match l with [] => false | _ => true end.

Definition _get_blocks (lines : list string) : list Block :=
  let '(blocks, current_block) := _get_blocks_loop lines [] [] in
  let blocks := if nonempty current_block then blocks ++ [current_block] else blocks in
  List.filter nonempty blocks.

(** [_split_tlk_to_blocks]: the loop carries [blocks], [block] and the
    counter [c], and stops at the first line equal to an asterisk. *)
Fixpoint _split_tlk_loop (lines : list string) (blocks : list Block)
    (block : Block) (c : Z) : list Block * Block :=
  match lines with
  | [] => (blocks, block)
  | line :: rest =>
      if String.eqb line "*" then (blocks, block)
      else if c =? 3
           then _split_tlk_loop rest (blocks ++ [block]) [line] 1
           else _split_tlk_loop rest blocks (block ++ [line]) (c + 1)
  end.

Definition _split_tlk_to_blocks (lines : list string) : list Block :=
  let '(blocks, block) := _split_tlk_loop lines [] [] 0 in
  blocks ++ [block].

(** The lines in front of the first asterisk line. *)
Fixpoint before_asterisk (lines : list string) : list string :=
  match lines with
  | [] => []
  | line :: rest => if String.eqb line "*" then [] else line :: before_asterisk rest
  end.

(** ** Values and records *)

(** What a mapped field can hold: [np.nan] (the missing-value sentinel,
    a float that is no number), a [str], an [int], or a finite [float],
    kept as the rational it denotes. *)
Inductive value : Type :=
| VNan
| VStr (s : string)
| VInt (z : Z)
| VFloat (q : Q).

(** [v == n] for an [int] literal [n]. *)
Definition eq_int (v : value) (n : Z) : bool :=
  match v with
  | VInt z => z =? n
  | VFloat q => Qeq_bool q (inject_Z n)
  | VStr _ | VNan => false
  end.

(** [v == w] *)
Definition py_eqb (v w : value) : bool :=
  match v, w with
  | VStr s, VStr t => String.eqb s t
  | VInt a, VInt b => a =? b
  | VInt a, VFloat q | VFloat q, VInt a => Qeq_bool q (inject_Z a)
  | VFloat p, VFloat q => Qeq_bool p q
  | _, _ => false
  end.

(** [v in l]: an item counts when it is the object [v] itself or equals
    it.  [np.nan] equals nothing, itself included, but is one object. *)
Definition py_in (v : value) (l : list value) : bool :=
  existsb (fun w => match v, w with
                    | VNan, VNan => true
                    | _, _ => py_eqb v w
                    end) l.

(** The whitespace that [int] drops around a literal: the tab to
    carriage return controls, the space, NEL and the no-break space.
    The four separators U+001C to U+001F are whitespace for [str.isspace]
    but not here: [int] refuses a literal that has one. *)
Definition isspace_int (c : ascii) : bool :=
  let n := ord c in
  ((9 <=? n) && (n <=? 13) || (n =? 32) || (n =? 133) || (n =? 160))%nat.

Fixpoint lstrip_int (s : string) : string :=
  match s with
  | String c s' => if isspace_int c then lstrip_int s' else s
  | EmptyString => EmptyString
  end.

Definition strip_int (s : string) : string :=
  str_rev (lstrip_int (str_rev (lstrip_int s))).

(** [int(s)] for a [str], base ten: surrounding whitespace is dropped, one
    sign is allowed, and single underscores may separate decimal digits.
    Integers are unbounded, as the language defines them: the limit on
    the number of digits that CPython 3.11 puts on [int] and [str] (an
    interpreter setting, 4300 digits unless changed) is left out. *)
Fixpoint digits_value (acc : Z) (prev_digit : bool) (s : string) : res Z :=
  match s with
  | EmptyString => if prev_digit then Ok acc else Raise ValueError
  | String c s' =>
      if isdecimal c
      then digits_value (10 * acc + (Z.of_nat (ord c) - 48)) true s'
      else if (ord c =? 95)%nat && prev_digit
           then digits_value acc false s'
           else Raise ValueError
  end.

Definition int_of_str (s : string) : res Z :=
  match strip_int s with
  | String "-" s' => n ← digits_value 0 false s'; Ok (- n)
  | String "+" s' => digits_value 0 false s'
  | s' => digits_value 0 false s'
  end.

(** [int(v)] *)
Definition py_int (v : value) : res Z :=
  match v with
  | VInt z => Ok z
  | VStr s => int_of_str s
  | VFloat q => Ok (Z.quot (Qnum q) (Z.pos (Qden q)))
  | VNan => Raise ValueError
  end.

(** [d[k]] on a dictionary *)
Definition dict_get {A} (d : gmap string A) (k : string) : res A :=
  match d !! k with
  | Some a => Ok a
  | None => Raise KeyError
  end.

(** [{**d1, **d2}]: the keys of [d2] win. *)
Definition dict_merge {A} (d1 d2 : gmap string A) : gmap string A := d2 ∪ d1.

(** ** Mapping tables

    A table of [mappings.py] is a dictionary from a field name to a
    descriptor: either [{"index": i, "dtype": f}] (the field is a whole
    line) or [{"index": i, "nested": {...}}] (several fields on one line,
    each [{"index": j, "dtype": f}]).  A [dtype] is a callable applied to
    a [str]; it returns a value or raises.  The tables are consumed in
    the order of [dict.items()]. *)
Record field : Type := Field {
  index : Z;
  dtype : string -> res value
}.

Inductive entry : Type :=
| Whole (f : field)
| Nested (idx : Z) (nested : list (string * field)).

Definition mapping : Type := list (string * entry).

Abbreviation record := (gmap string value).

(** Two callables that the tables use as [dtype]. *)
Definition dtype_str : string -> res value := fun s => Ok (VStr s).
Definition dtype_int : string -> res value := fun s => n ← int_of_str s; Ok (VInt n).

(** ** Metadata block extractor and data row extractor *)

(** The inner loop of [_parse_metadata_block] over [value1["nested"]]. *)
Fixpoint _parse_metadata_nested (block : Block) (idx : Z)
    (nested : list (string * field)) (block_parsed : record) : res record :=
  match nested with
  | [] => Ok block_parsed
  | (key2, value2) :: rest =>
      v ← try_except
            (line ← getitem block idx;
             let line_vals := split line in
             tok ← getitem line_vals (index value2);
             dtype value2 tok)
            is_Index_or_ValueError (fun _ => Ok VNan);
      _parse_metadata_nested block idx rest (<[key2 := v]> block_parsed)
  end.

Fixpoint _parse_metadata_loop (block : Block) (mapping : mapping)
    (block_parsed : record) : res record :=
  match mapping with
  | [] => Ok block_parsed
  | (key1, Nested idx nested) :: rest =>
      block_parsed ← _parse_metadata_nested block idx nested block_parsed;
      _parse_metadata_loop block rest block_parsed
  | (key1, Whole value1) :: rest =>
      v ← try_except
            (line ← getitem block (index value1);
             dtype value1 line)
            is_IndexError (fun _ => Ok VNan);
      _parse_metadata_loop block rest (<[key1 := v]> block_parsed)
  end.

Definition _parse_metadata_block (block : Block) (mapping : mapping) : res record :=
  _parse_metadata_loop block mapping ∅.

(** A data table has no nested entries: each key maps to
    [{"index": j, "dtype": f}]. *)
Definition data_mapping : Type := list (string * field).

Fixpoint _parse_data_row (line_vals : list string) (mapping : data_mapping)
    (row : record) : res record :=
  match mapping with
  | [] => Ok row
  | (key, value) :: rest =>
      v ← try_except
            (tok ← getitem line_vals (index value);
             dtype value tok)
            is_Index_or_ValueError (fun _ => Ok VNan);
      _parse_data_row line_vals rest (<[key := v]> row)
  end.

Fixpoint _parse_data_block (block : Block) (mapping : data_mapping)
    (line_split_func : string -> res (list string)) : res (list record) :=
  match block with
  | [] => Ok []
  | line :: rest =>
      line_vals ← line_split_func line;
      row ← _parse_data_row line_vals mapping ∅;
      parsed_lines ← _parse_data_block rest mapping line_split_func;
      Ok (row :: parsed_lines)
  end.

(** ** Line tokenizers *)

Definition _tot_split_func (line : string) : res (list string) := Ok (split line).
Definition _prv_split_func (line : string) : res (list string) := Ok (split line).

(** [s.index(sub)]: the first position of [sub] in [s], [ValueError] when
    there is none. *)
Definition str_index (s sub : string) : res nat :=
  match String.index 0 sub s with
  | Some n => Ok n
  | None => Raise ValueError
  end.

Definition _cpt_split_func_n (comment_char_length : nat) (line : string)
    : res (list string) :=
  let first_values := take 4 (split line) in
  fourth ← list_last first_values;
  let index_str := " " +:+ fourth +:+ " " in
  fourth_index ← str_index line index_str;
  let start_index_comment := (fourth_index + String.length fourth + 1)%nat in
  let stop_index_comment := (start_index_comment + comment_char_length)%nat in
  let comment := str_slice start_index_comment stop_index_comment line in
  let last_values := split (str_drop stop_index_comment line) in
  Ok (first_values ++ [strip comment] ++ last_values).

Definition _cpt_split_func : string -> res (list string) := _cpt_split_func_n 25.

(** [_initialize_empty_mapping] *)
Fixpoint _initialize_empty_nested (nested : list (string * field))
    (block_parsed : record) : record :=
  match nested with
  | [] => block_parsed
  | (key2, _) :: rest => _initialize_empty_nested rest (<[key2 := VNan]> block_parsed)
  end.

Fixpoint _initialize_empty_loop (mapping : mapping) (block_parsed : record) : record :=
  match mapping with
  | [] => block_parsed
  | (key1, Nested _ nested) :: rest =>
      _initialize_empty_loop rest (_initialize_empty_nested nested block_parsed)
  | (key1, Whole _) :: rest =>
      _initialize_empty_loop rest (<[key1 := VNan]> block_parsed)
  end.

Definition _initialize_empty_mapping (mapping : mapping) : record :=
  _initialize_empty_loop mapping ∅.

(** ** Date parser

    [datetime.strptime] for the directives that [_DATETIME_FMTS] uses.
    The library turns the format into a regular expression, takes its
    first match at the start of the string in the order of the
    alternatives, refuses a match that does not reach the end of the
    string, and then builds the date, which must exist. *)
Module Datetime.

Record datetime : Type := mk_datetime { year : Z; month : Z; day : Z }.

Inductive directive : Set := Dd | Dm | DY | Dy.

Inductive item : Set :=
| Dir (d : directive)
| Lit (c : ascii).

(** The format string as a sequence of directives and literal
    characters. *)
Fixpoint compile (fmt : string) : list item :=
  match fmt with
  | String "%" (String "d" rest) => Dir Dd :: compile rest
  | String "%" (String "m" rest) => Dir Dm :: compile rest
  | String "%" (String "Y" rest) => Dir DY :: compile rest
  | String "%" (String "y" rest) => Dir Dy :: compile rest
  | String c rest => Lit c :: compile rest
  | EmptyString => []
  end.

Definition digit_val (c : ascii) : Z := Z.of_nat (ord c) - 48.

Definition in_range (lo hi : nat) (c : ascii) : bool :=
  ((lo <=? ord c) && (ord c <=? hi))%nat.

(** One alternative of a directive's pattern: two characters, or one. *)
Definition two (p1 p2 : ascii -> bool) (s : string) : option (Z * string) :=
  match s with
  | String a (String b rest) =>
      if p1 a && p2 b then Some (10 * digit_val a + digit_val b, rest) else None
  | _ => None
  end.

Definition one (p : ascii -> bool) (s : string) : option (Z * string) :=
  match s with
  | String a rest => if p a then Some (digit_val a, rest) else None
  | _ => None
  end.

Definition space_then (p : ascii -> bool) (s : string) : option (Z * string) :=
  match s with
  | String " " (String b rest) => if p b then Some (digit_val b, rest) else None
  | _ => None
  end.

Definition four_digits (s : string) : option (Z * string) :=
  match s with
  | String a (String b (String c (String d rest))) =>
      if isdecimal a && isdecimal b && isdecimal c && isdecimal d
      then Some (1000 * digit_val a + 100 * digit_val b
                 + 10 * digit_val c + digit_val d, rest)
      else None
  | _ => None
  end.

Definition chr_is (n : nat) (c : ascii) : bool := (ord c =? n)%nat.

(** [%d] is [3[0-1]|[1-2]\d|0[1-9]|[1-9]| [1-9]], [%m] is
    [1[0-2]|0[1-9]|[1-9]], [%Y] is [\d\d\d\d] and [%y] is [\d\d]. *)
Definition alternatives (d : directive) : list (string -> option (Z * string)) :=
  match d with
  | Dd => [ two (chr_is 51) (in_range 48 49);
            two (in_range 49 50) isdecimal;
            two (chr_is 48) (in_range 49 57);
            one (in_range 49 57);
            space_then (in_range 49 57) ]
  | Dm => [ two (chr_is 49) (in_range 48 50);
            two (chr_is 48) (in_range 49 57);
            one (in_range 49 57) ]
  | DY => [ four_digits ]
  | Dy => [ two isdecimal isdecimal ]
  end.

(** The groups found by a match. *)
Record groups : Type := mk_groups {
  g_d : option Z; g_m : option Z; g_Y : option Z; g_y : option Z
}.

Definition no_groups : groups := mk_groups None None None None.

Definition set_group (d : directive) (v : Z) (g : groups) : groups :=
  match d with
  | Dd => mk_groups (Some v) (g_m g) (g_Y g) (g_y g)
  | Dm => mk_groups (g_d g) (Some v) (g_Y g) (g_y g)
  | DY => mk_groups (g_d g) (g_m g) (Some v) (g_y g)
  | Dy => mk_groups (g_d g) (g_m g) (g_Y g) (Some v)
  end.

(** All matches of the items at the start of [s], first match first,
    each with the text left over. *)
Fixpoint matches (items : list item) (s : string) : list (groups * string) :=
  match items with
  | [] => [(no_groups, s)]
  | Lit c :: rest =>
      match s with
      | String c' s' => if Ascii.eqb c c' then matches rest s' else []
      | EmptyString => []
      end
  | Dir d :: rest =>
      flat_map (fun alt =>
                  match alt s with
                  | Some (v, s') =>
                      List.map (fun '(g, tail) => (set_group d v g, tail)) (matches rest s')
                  | None => []
                  end) (alternatives d)
  end.

Definition is_leap (y : Z) : bool :=
  (y mod 4 =? 0) && (negb (y mod 100 =? 0) || (y mod 400 =? 0)).

Definition days_in_month (y m : Z) : Z :=
  if m =? 2 then (if is_leap y then 29 else 28)
  else if (m =? 4) || (m =? 6) || (m =? 9) || (m =? 11) then 30
  else 31.

(** [%y]: values 69 to 99 are in the 1900s, values 0 to 68 in the 2000s. *)
Definition year_of (g : groups) : Z :=
  match g_Y g, g_y g with
  | Some y, _ => y
  | None, Some y => if y <? 69 then 2000 + y else 1900 + y
  | None, None => 1900
  end.

Definition strptime (data_string format : string) : res datetime :=
  match matches (compile format) data_string with
  | [] => Raise ValueError
  | (g, tail) :: _ =>
      if str_nonempty tail then Raise ValueError
      else
        let y := year_of g in
        let m := default 1 (g_m g) in
        let d := default 1 (g_d g) in
        if (1 <=? y) && (y <=? 9999) && (1 <=? m) && (m <=? 12)
           && (1 <=? d) && (d <=? days_in_month y m)
        then Ok (mk_datetime y m d)
        else Raise ValueError
  end.

End Datetime.

Definition _KNOWN_SURVEY_CODES : list Z := [7; 10; 21; 22; 23; 24; 25; 26].

Definition _DATETIME_FMTS : list string :=
  ["%d.%m.%Y"; "%Y-%m-%d"; "%Y%m0%d"; "%d.%m.%y"; "%Y-%d-%m"].

Fixpoint _try_parse_datetime_loop (datestr : string) (fmts : list string)
    : res Datetime.datetime :=
  match fmts with
  | [] => Raise ValueError
  | fmt :: rest =>
      try_except (Datetime.strptime datestr fmt) is_ValueError
        (fun _ => _try_parse_datetime_loop datestr rest)
  end.

Definition _try_parse_datetime (datestr : string) : res Datetime.datetime :=
  _try_parse_datetime_loop datestr _DATETIME_FMTS.

(** [n in l] for a list of [int] *)
Definition in_list (n : Z) (l : list Z) : bool := existsb (Z.eqb n) l.

(** ** Survey dispatcher *)

Definition _is_data_block (block : Block) : res bool :=
  first_line ← getitem block 0;
  let first_line_vals := split first_line in
  if negb (length first_line_vals =? 2)%nat then Ok false
  else
    survey_code ← getitem first_line_vals 0;
    date ← getitem first_line_vals 1;
    try_except
      (known ← (if isdigit survey_code
                then n ← int_of_str survey_code; Ok (in_list n _KNOWN_SURVEY_CODES)
                else Ok false);
       if known : bool
       then _ ← _try_parse_datetime date; Ok true
       else Ok false)
      is_Exception
      (fun _ => if isdigit date then Ok true else Ok false).

(** ** The "Annet" variant of an interpretation block *)

Definition _is_unknown_material (block : Block) : res bool :=
  first_line ← getitem block 0;
  material_text_2 ← list_last (split first_line);
  if String.eqb material_text_2 "Annet" then Ok true else Ok false.

(** [l[0] = x]: [IndexError] on the empty list. *)
Definition setitem0 {A} (l : list A) (x : A) : res (list A) :=
  match l with
  | [] => Raise IndexError
  | _ :: rest => Ok (x :: rest)
  end.

(** On values [block.copy()] is the block; the copy and the write to it
    are spelled out in [Store._add_empty_value_as_material_text_1]. *)
Definition _add_empty_value_as_material_text_1 (block : Block) : res Block :=
  let temp_block := block in
  first_line ← getitem temp_block 0;
  setitem0 temp_block ("None" +:+ first_line).

(** ** Symbol decoder *)

(** The last two literals of the source list have no comma between them,
    so Python joins them into one entry: the list has 13 entries. *)
Definition _SYMBOL_LABELS_NEG : list value :=
  [ VStr "Leire"; VStr "Fyllemasse"; VStr "Grus"; VStr "Matjord"; VStr "Berg";
    VStr "Sand"; VStr "Skjell"; VStr "Silt"; VStr "Stein & blokk"; VStr "Morene";
    VStr "Torv"; VStr "Gytje, dy"; VStr ("Trerester" +:+ "Kvikkleire") ].

Definition _SYMBOL_LABELS_POS : list value :=
  [ VNan; VStr "Leire"; VStr "Silt"; VStr "Sand"; VStr "Grus"; VStr "Stein";
    VStr "Fyllemasse"; VStr "Matjord"; VStr "Trerester"; VStr "Skjell";
    VStr "Kvikkleire" ].

(** [str(bin(n))[2:]] for [n > 0]: the binary digits, most significant
    first. *)
Fixpoint bin_digits (p : positive) : string :=
  match p with
  | xH => "1"
  | xO p' => bin_digits p' +:+ "0"
  | xI p' => bin_digits p' +:+ "1"
  end.

Fixpoint str_repeat (c : ascii) (n : nat) : string :=
  match n with
  | O => ""
  | S n' => String c (str_repeat c n')
  end.

(** [s.zfill(width)] on a string without sign *)
Definition zfill (width : nat) (s : string) : string :=
  str_repeat "0" (width - String.length s) +:+ s.

(** [str(n)] for [n >= 0] *)
Definition str_of_nonneg (n : Z) : string :=
  NilZero.string_of_uint (N.to_uint (Z.to_N n)).

(** [[f(pos) for pos, bit in enumerate(bits) if bit == "1"]], from
    position [pos] on *)
Fixpoint labels_of_bits (bits : list ascii) (pos : Z) : res (list value) :=
  match bits with
  | [] => Ok []
  | bit :: rest =>
      if Ascii.eqb bit "1"
      then l ← getitem _SYMBOL_LABELS_NEG pos;
           ls ← labels_of_bits rest (pos + 1);
           Ok (l :: ls)
      else labels_of_bits rest (pos + 1)
  end.

(** [[_SYMBOL_LABELS_POS[int(i)] for i in digits]] *)
Fixpoint labels_of_digits (digits : list ascii) : res (list value) :=
  match digits with
  | [] => Ok []
  | i :: rest =>
      n ← int_of_str (String i "");
      l ← getitem _SYMBOL_LABELS_POS n;
      ls ← labels_of_digits rest;
      Ok (l :: ls)
  end.

Definition _label_from_symbol (symbol : value) : res (list value) :=
  symbol ← py_int symbol;
  if symbol <? 0 then
    let bin_str := zfill 13 (bin_digits (Z.to_pos (Z.abs symbol))) in
    labels_of_bits (rev (list_ascii_of_string bin_str)) 0
  else if symbol >? 0 then
    labels_of_digits (list_ascii_of_string (str_of_nonneg symbol))
  else Ok [].

(** [sep.join(l)]: [TypeError] when an item is not a [str]. *)
Fixpoint strs_of_values (l : list value) : res (list string) :=
  match l with
  | [] => Ok []
  | VStr s :: rest => ss ← strs_of_values rest; Ok (s :: ss)
  | _ :: _ => Raise TypeError
  end.

Definition join_values (sep : string) (l : list value) : res string :=
  ss ← strs_of_values l; Ok (join sep ss).

(** [not v]: the empty string and zero are false. *)
Definition falsy (v : value) : bool :=
  match v with
  | VStr s => negb (str_nonempty s)
  | VInt z => z =? 0
  | VFloat q => Qeq_bool q 0
  | VNan => false
  end.

(** The [for] loop of [_extract_and_add_symbol_text]: every row gets its
    joined labels. *)
Fixpoint _extract_symbol_loop (temp_data : list record) : res (list record) :=
  match temp_data with
  | [] => Ok []
  | row :: rest =>
      symbol ← dict_get row "symbol";
      soiltypes ← _label_from_symbol symbol;
      joined ← join_values " " soiltypes;
      let row := <["symbol_soiltype" := VStr joined]> row in
      rest ← _extract_symbol_loop rest;
      Ok (row :: rest)
  end.

(** After the loop the variable [row] is the last row of the list, and
    is unbound when the list is empty; the test on the empty label
    follows the loop. *)
Definition _extract_and_add_symbol_text (data : list record) : res (list record) :=
  temp_data ← _extract_symbol_loop data;
  match last temp_data with
  | None => Raise UnboundLocalError
  | Some row =>
      soiltype ← dict_get row "symbol_soiltype";
      if falsy soiltype
      then Ok (removelast temp_data ++ [<["symbol_soiltype" := VNan]> row])
      else Ok temp_data
  end.

(** ** Comment-code indicator converter *)

Record indicator_dict : Type := Indicators {
  okt_rotasjon : value;
  spyling : value;
  slag : value;
  pumping : value;
  comment_label : list Z
}.

Definition set_okt_rotasjon (v : value) (i : indicator_dict) : indicator_dict :=
  Indicators v (spyling i) (slag i) (pumping i) (comment_label i).
Definition set_spyling (v : value) (i : indicator_dict) : indicator_dict :=
  Indicators (okt_rotasjon i) v (slag i) (pumping i) (comment_label i).
Definition set_slag (v : value) (i : indicator_dict) : indicator_dict :=
  Indicators (okt_rotasjon i) (spyling i) v (pumping i) (comment_label i).
Definition set_pumping (v : value) (i : indicator_dict) : indicator_dict :=
  Indicators (okt_rotasjon i) (spyling i) (slag i) v (comment_label i).
Definition append_comment_label (c : Z) (i : indicator_dict) : indicator_dict :=
  Indicators (okt_rotasjon i) (spyling i) (slag i) (pumping i) (comment_label i ++ [c]).

(** [_merge_comments_to_single_label]: [max] of a non-empty list. *)
Definition _merge_comments_to_single_label (comment_label : list Z) : res Z :=
  match comment_label with
  | [] => Raise ValueError
  | c :: rest => Ok (fold_left Z.max rest c)
  end.

(** ** The tables of [mappings.py]

    [parser.py] takes its mapping tables and its two comment-code tables
    from [mappings.py].  They are parameters of everything below.
    [geosuite_code_to_label] has [int] keys; [geosuite_textcode_to_code]
    has [str] keys. *)
Record tables : Type := Tables {
  first_block_mapping : mapping;
  second_block_mapping : mapping;
  third_block_mapping : mapping;
  data_block_metadata_mapping : mapping;
  cpt_unknown_block_mapping : mapping;
  tlk_data_mapping : mapping;
  prv_metadata_mapping : mapping;
  tot_data_mapping : data_mapping;
  cpt_data_mapping : data_mapping;
  prv_data_mapping : data_mapping;
  geosuite_code_to_label : list (Z * string);
  geosuite_textcode_to_code : list (string * value)
}.

(** ** Results *)

(** An entry of the error list: a message written in the parser, or
    [str(e)] of a caught exception. *)
Inductive error : Type :=
| ErrMsg (msg : string)
| ErrStr (e : exn).

(** A value of a series dictionary [{**metadata, "data": data}]. *)
Inductive svalue : Type :=
| SVal (v : value)
| SRows (rows : list record).

Abbreviation series := (gmap string svalue).

(** A value of a result dictionary. *)
Inductive rvalue : Type :=
| RVal (v : value)
| RRows (rows : list record)
| RSeries (blocks : list series)
| RErrors (errors : list error).

Abbreviation result := (gmap string rvalue).

Definition _SURVEY_CODE_TO_TEXT : list (Z * string) := [(25, "tot"); (7, "cpt")].

(** [d[v]] for a dictionary with [int] keys *)
Fixpoint int_dict_get {A} (d : list (Z * A)) (v : value) : res A :=
  match d with
  | [] => Raise KeyError
  | (k, a) :: rest => if eq_int v k then Ok a else int_dict_get rest v
  end.

Section Parser.

Variable T : tables.

(** [_modify_indicator_by_code] *)
Definition _modify_indicator_by_code (code : Z) (indicators : indicator_dict) : indicator_dict :=
  if in_list code (List.map fst (geosuite_code_to_label T))
  then append_comment_label code indicators
  else if code =? 70 then set_okt_rotasjon (VInt 1) indicators
  else if code =? 71 then set_okt_rotasjon (VInt 0) indicators
  else if code =? 72 then set_spyling (VInt 1) indicators
  else if code =? 73 then set_spyling (VInt 0) indicators
  else if code =? 74 then set_slag (VInt 1) indicators
  else if code =? 75 then set_slag (VInt 0) indicators
  else if code =? 76 then set_spyling (VInt 1) (set_slag (VInt 1) indicators)
  else if code =? 77 then set_spyling (VInt 0) (set_slag (VInt 0) indicators)
  else if code =? 78 then set_pumping (VInt 1) indicators
  else if code =? 79 then set_pumping (VInt 0) indicators
  else indicators.

(** [geosuite_textcode_to_code[code]] when [code] is a key *)
Fixpoint textcode_lookup (d : list (string * value)) (code : string) : option value :=
  match d with
  | [] => None
  | (k, v) :: rest => if String.eqb code k then Some v else textcode_lookup rest code
  end.

(** The code that a token of the comment applies, if any: the token is
    translated when it is a key of [geosuite_textcode_to_code], and
    counts when the outcome is among the values of that table. *)
Definition applied_code (code : string) : res (option Z) :=
  let code := match textcode_lookup (geosuite_textcode_to_code T) code with
              | Some c => c
              | None => VStr code
              end in
  if py_in code (List.map snd (geosuite_textcode_to_code T))
  then c ← py_int code; Ok (Some c)
  else Ok None.

(** One round of the loop over [comments.split()]. *)
Definition apply_comment_token (code : string) (indicators : indicator_dict)
    : res indicator_dict :=
  c ← applied_code code;
  match c with
  | Some c => Ok (_modify_indicator_by_code c indicators)
  | None => Ok indicators
  end.

Fixpoint apply_comment_tokens (codes : list string) (indicators : indicator_dict)
    : res indicator_dict :=
  match codes with
  | [] => Ok indicators
  | code :: rest =>
      indicators ← apply_comment_token code indicators;
      apply_comment_tokens rest indicators
  end.

Definition initial_indicators : indicator_dict := Indicators VNan VNan VNan VNan [].

(** The indicators of one row, before [comment_label] is merged. *)
Definition row_indicators (row : record) : res indicator_dict :=
  comments ← dict_get row "kommentar";
  match comments with
  | VStr comments => apply_comment_tokens (split comments) initial_indicators
  | _ => Ok initial_indicators
  end.

(** [{**row, **indicators}] with the merged [comment_label] *)
Definition merge_indicators (row : record) (i : indicator_dict) (label : value) : record :=
  <["comment_label" := label]>
    (<["pumping" := pumping i]>
       (<["slag" := slag i]>
          (<["spyling" := spyling i]>
             (<["okt_rotasjon" := okt_rotasjon i]> row)))).

Fixpoint _convert_comment_codes_to_indicator_columns (parsed_snd_block : list record)
    : res (list record) :=
  match parsed_snd_block with
  | [] => Ok []
  | row :: rest =>
      indicators ← row_indicators row;
      label ← (if nonempty (comment_label indicators)
               then m ← _merge_comments_to_single_label (comment_label indicators);
                    Ok (VInt m)
               else Ok VNan);
      let row := merge_indicators row indicators label in
      res ← _convert_comment_codes_to_indicator_columns rest;
      Ok (row :: res)
  end.

(** [_get_data_block_survey_type] *)
Definition _get_data_block_survey_type (data_block_metadata : record) : res value :=
  match data_block_metadata !! "survey_type_code" with
  | None => Raise IndexError
  | Some v => Ok v
  end.

Definition _parse_unknown_data_block (block : Block) : res (record * list record) :=
  let metadata_lines := take 2 block in
  let data_lines := drop 2 block in
  metadata ← _parse_metadata_block metadata_lines (data_block_metadata_mapping T);
  survey_type ← _get_data_block_survey_type metadata;
  data ← (if eq_int survey_type 25
          then _parse_data_block data_lines (tot_data_mapping T) _tot_split_func
          else if eq_int survey_type 7
          then _parse_data_block data_lines (cpt_data_mapping T) _cpt_split_func
          else Raise ValueError);
  Ok (metadata, data).

Definition _is_unknown_metadata_block (block : Block) : bool :=
  match _parse_metadata_block block (cpt_unknown_block_mapping T) with
  | Ok _ => true
  | Raise _ => false
  end.

(** *** Interpretation file *)

Definition tlk_result (rows : list record) (errors : list error) : result :=
  <["errors" := RErrors errors]>
    (<["data" := RRows rows]> {["type" := RVal (VStr "tlk")]}).

(** The body of the [try] in the loop of [parse_tlk_file]. *)
Definition parse_tlk_block (block : Block) : res record :=
  unknown ← _is_unknown_material block;
  block ← (if unknown : bool then _add_empty_value_as_material_text_1 block
           else Ok block);
  _parse_metadata_block block (tlk_data_mapping T).

Fixpoint parse_tlk_blocks (blocks : list Block) (rows : list record)
    (errors : list error) : list record * list error :=
  match blocks with
  | [] => (rows, errors)
  | block :: rest =>
      match parse_tlk_block block with
      | Ok row => parse_tlk_blocks rest (rows ++ [row]) errors
      | Raise e => parse_tlk_blocks rest rows (errors ++ [ErrStr e])
      end
  end.

Definition parse_tlk_file (lines : list string) : res result :=
  let errors := [] in
  if negb (nonempty lines)
  then Ok (tlk_result [] (errors ++ [ErrMsg "No lines found. Could not parse file"]))
  else
    let blocks := _split_tlk_to_blocks lines in
    let '(rows, errors) := parse_tlk_blocks blocks [] errors in
    Ok (tlk_result rows errors).

(** *** Sound file *)

Definition snd_result (metadata : record) (blocks : list series)
    (errors : list error) : result :=
  <["errors" := RErrors errors]>
    (<["blocks" := RSeries blocks]>
       (dict_merge {["type" := RVal (VStr "snd")]} (RVal <$> metadata))).

(** [{**metadata, "data": data}] *)
Definition series_entry (metadata : record) (data : list record) : series :=
  <["data" := SRows data]> (SVal <$> metadata).

(** The trailing metadata of a CPT block: the block at [i] in the
    file, or missing values when there is none. *)
Definition cpt_trailing_metadata (blocks : list Block) (i : Z) : res record :=
  try_except
    (cpt_unknown_metadata_block ← getitem blocks i;
     _parse_metadata_block cpt_unknown_metadata_block (cpt_unknown_block_mapping T))
    is_IndexError
    (fun _ => Ok (_initialize_empty_mapping (cpt_unknown_block_mapping T))).

(** How one round of the scan ends: the loop goes on, or [break]. *)
Inductive control : Set := Continue | Break.

(** The body of the [try] in the scan of [parse_snd_file], for the
    block at position [current_block_index] of [blocks[block_index:]]. *)
Definition parse_snd_data_block (blocks : list Block) (block_index : Z)
    (current_block_index : Z) (block : Block) (data_blocks : list series)
    : res (control * list series) :=
  '(metadata, data) ← _parse_unknown_data_block block;
  survey_type ← dict_get metadata "survey_type_code";
  type ← int_dict_get _SURVEY_CODE_TO_TEXT survey_type;
  let metadata := <["type" := VStr type]> metadata in
  if eq_int survey_type 7 then
    cpt_unknown_metadata ←
      cpt_trailing_metadata blocks (block_index + current_block_index + 1);
    let metadata := dict_merge metadata cpt_unknown_metadata in
    Ok (Break, data_blocks ++ [series_entry metadata data])
  else if eq_int survey_type 25 then
    data ← _convert_comment_codes_to_indicator_columns data;
    Ok (Continue, data_blocks ++ [series_entry metadata data])
  else Ok (Continue, data_blocks).

(** The scan [for current_block_index, block in enumerate(blocks[block_index:])]. *)
Fixpoint scan_blocks (blocks : list Block) (block_index : Z)
    (current_block_index : Z) (remaining : list Block)
    (data_blocks : list series) (errors : list error)
    : res (list series * list error) :=
  match remaining with
  | [] => Ok (data_blocks, errors)
  | block :: rest =>
      is_data ← _is_data_block block;
      if is_data : bool then
        match parse_snd_data_block blocks block_index current_block_index
                block data_blocks with
        | Ok (Break, data_blocks) => Ok (data_blocks, errors)
        | Ok (Continue, data_blocks) =>
            scan_blocks blocks block_index (current_block_index + 1) rest
              data_blocks errors
        | Raise e =>
            if is_ValueError e
            then scan_blocks blocks block_index (current_block_index + 1) rest
                   data_blocks (errors ++ [ErrStr e])
            else Raise e
        end
      else scan_blocks blocks block_index (current_block_index + 1) rest
             data_blocks errors
  end.

Definition less_than_min_blocks_msg (min_blocks : Z) : string :=
  "File contains less than "
  +:+ NilZero.string_of_int (Z.to_int min_blocks) +:+ " blocks. Cannot parse".

(** The leading metadata blocks of a sound file: the first and the
    second block, and the third unless it is a data block.  The
    outcome is the merged metadata with the index of the first block
    left to scan, or [None] when the second block raised [ValueError]
    (the parser then returns early). *)
Definition parse_snd_metadata (blocks : list Block) : res (option (record * Z)) :=
  let block_index := 0 in
  b ← getitem blocks block_index;
  first_block ← _parse_metadata_block b (first_block_mapping T);
  let block_index := block_index + 1 in
  match (b ← getitem blocks block_index;
         _parse_metadata_block b (second_block_mapping T)) with
  | Raise ValueError => Ok None
  | Raise e => Raise e
  | Ok second_block =>
      let block_index := block_index + 1 in
      let third_block := _initialize_empty_mapping (third_block_mapping T) in
      b ← getitem blocks block_index;
      is_data ← _is_data_block b;
      '(third_block, block_index) ←
        (if negb is_data
         then b ← getitem blocks block_index;
              third_block ← _parse_metadata_block b (third_block_mapping T);
              Ok (third_block, block_index + 1)
         else Ok (third_block, block_index));
      let snd_metadata := dict_merge (dict_merge first_block second_block) third_block in
      Ok (Some (snd_metadata, block_index))
  end.

(** [parse_snd_file] once the lines are segmented into [blocks]. *)
Definition parse_snd_blocks (min_blocks : Z) (blocks : list Block) : res result :=
  let errors := [] in
  let metadata :=
    dict_merge
      (dict_merge (_initialize_empty_mapping (first_block_mapping T))
                  (_initialize_empty_mapping (second_block_mapping T)))
      (_initialize_empty_mapping (third_block_mapping T)) in
  if Z.of_nat (length blocks) <? min_blocks then
    Ok (snd_result metadata [] (errors ++ [ErrMsg (less_than_min_blocks_msg min_blocks)]))
  else
    header ← parse_snd_metadata blocks;
    match header with
    | None =>
        Ok (snd_result metadata []
              (errors ++ [ErrMsg "File doesnt contain second metadatablock. Cannot parse"]))
    | Some (snd_metadata, block_index) =>
        '(data_blocks, errors) ←
          scan_blocks blocks block_index 0 (drop (Z.to_nat block_index) blocks) [] errors;
        Ok (snd_result snd_metadata data_blocks errors)
    end.

Definition parse_snd_file_min (min_blocks : Z) (lines : list string) : res result :=
  let blocks := _get_blocks lines in
  parse_snd_blocks min_blocks blocks.

(** [min_blocks] defaults to 3. *)
Definition parse_snd_file (lines : list string) : res result :=
  parse_snd_file_min 3 lines.

(** *** Auxiliary file *)

Definition prv_result (metadata : record) (data : list record)
    (errors : list error) : result :=
  <["errors" := RErrors errors]>
    (<["data" := RRows data]>
       (dict_merge {["type" := RVal (VStr "prv")]} (RVal <$> metadata))).

(** [parse_prv_file] once the lines are segmented into [blocks]. *)
Definition parse_prv_blocks (blocks : list Block) : res result :=
  let errors := [] in
  b ← getitem blocks 0;
  metadata ← _parse_metadata_block b (prv_metadata_mapping T);
  '(data, errors) ←
    (if (length blocks <? 2)%nat
     then Ok ([], errors ++ [ErrMsg "PRV contains less than 2 blocks. Cannot parse"])
     else
       data ← try_except
                (b ← getitem blocks 1;
                 data ← _parse_data_block b (prv_data_mapping T) _prv_split_func;
                 _extract_and_add_symbol_text data)
                is_ValueError (fun _ => Ok []);
       Ok (data, errors));
  Ok (prv_result metadata data errors).

Definition parse_prv_file (lines : list string) : res result :=
  let blocks := _get_blocks lines in
  parse_prv_blocks blocks.

End Parser.

(** ** Mutable lists

    The entry points receive a Python list, which is a mutable object;
    so are the blocks that the segmenters build.  To say that a call
    leaves its argument alone, the lists live in a store: [Lines] is a
    list of [str], [Blocks] a list of references to lists of [str].
    Strings are immutable and dictionaries built by the extractors are
    never reachable from the input, so both stay plain values.  A [for]
    loop over a list reads the items the list has when the loop starts;
    every write to a list is an operation on the store. *)
Module Store.

Abbreviation loc := nat.

Inductive object : Type :=
| Lines (items : list string)
| Blocks (items : list loc).

Abbreviation store := (gmap nat object).

(** A computation returns or raises, and leaves a store in both cases. *)
Definition M (A : Type) : Type := store -> res A * store.

Definition ret {A} (a : A) : M A := fun h => (Ok a, h).

Definition bind {A B} (m : M A) (k : A -> M B) : M B :=
  fun h => match m h with
           | (Ok a, h') => k a h'
           | (Raise e, h') => (Raise e, h')
           end.

Definition lift {A} (r : res A) : M A := fun h => (r, h).

Declare Scope store_scope.
Delimit Scope store_scope with store.
Notation "x <~ m ; k" := (bind m (fun x => k))
  (at level 100, m at next level, k at level 200, right associativity,
   format "x  <~  m ; '/' k") : store_scope.
Notation "'( x , y ) <~ m ; k" := (bind m (fun '(x, y) => k))
  (at level 100, x name, y name, m at next level, k at level 200,
   right associativity) : store_scope.
Notation "m ;~ k" := (bind m (fun _ => k))
  (at level 100, k at level 200, right associativity) : store_scope.
Local Open Scope store_scope.

(** A new list object: a list display, a comprehension or [l.copy()]. *)
Definition alloc (o : object) : M loc :=
  fun h => let l := fresh (dom h) in (Ok l, <[l := o]> h).

Definition read_lines (l : loc) : M (list string) :=
  fun h => match h !! l with
           | Some (Lines items) => (Ok items, h)
           | _ => (Raise TypeError, h)
           end.

Definition read_blocks (l : loc) : M (list loc) :=
  fun h => match h !! l with
           | Some (Blocks items) => (Ok items, h)
           | _ => (Raise TypeError, h)
           end.

(** [l.append(x)] *)
Definition append_line (l : loc) (x : string) : M unit :=
  fun h => match h !! l with
           | Some (Lines items) => (Ok tt, <[l := Lines (items ++ [x])]> h)
           | _ => (Raise TypeError, h)
           end.

Definition append_block (l : loc) (b : loc) : M unit :=
  fun h => match h !! l with
           | Some (Blocks items) => (Ok tt, <[l := Blocks (items ++ [b])]> h)
           | _ => (Raise TypeError, h)
           end.

(** [l[0] = x] *)
Definition set_line0 (l : loc) (x : string) : M unit :=
  fun h => match h !! l with
           | Some (Lines []) => (Raise IndexError, h)
           | Some (Lines (_ :: rest)) => (Ok tt, <[l := Lines (x :: rest)]> h)
           | _ => (Raise TypeError, h)
           end.

(** [l.copy()] *)
Definition copy_lines (l : loc) : M loc :=
  items <~ read_lines l; alloc (Lines items).

(** The lines of each block of a list of blocks. *)
Fixpoint read_each (bs : list loc) : M (list Block) :=
  match bs with
  | [] => ret []
  | b :: rest =>
      items <~ read_lines b;
      others <~ read_each rest;
      ret (items :: others)
  end.

Definition contents (blocks : loc) : M (list Block) :=
  bs <~ read_blocks blocks; read_each bs.

(** [_get_blocks] *)
Fixpoint _get_blocks_loop (lines : list string) (blocks current_block : loc) : M loc :=
  match lines with
  | [] => ret current_block
  | line :: rest =>
      if String.eqb line "*"
      then append_block blocks current_block;~
           current_block <~ alloc (Lines []);
           _get_blocks_loop rest blocks current_block
      else append_line current_block line;~
           _get_blocks_loop rest blocks current_block
  end.

(** [[b for b in blocks if b]] *)
Fixpoint keep_nonempty (bs : list loc) : M (list loc) :=
  match bs with
  | [] => ret []
  | b :: rest =>
      items <~ read_lines b;
      kept <~ keep_nonempty rest;
      ret (if nonempty items then b :: kept else kept)
  end.

Definition _get_blocks (lines : loc) : M loc :=
  blocks <~ alloc (Blocks []);
  current_block <~ alloc (Lines []);
  items <~ read_lines lines;
  current_block <~ _get_blocks_loop items blocks current_block;
  current <~ read_lines current_block;
  (if nonempty current then append_block blocks current_block else ret tt);~
  bs <~ read_blocks blocks;
  kept <~ keep_nonempty bs;
  alloc (Blocks kept).

(** [_split_tlk_to_blocks] *)
Fixpoint _split_tlk_loop (lines : list string) (blocks block : loc) (c : Z) : M loc :=
  match lines with
  | [] => ret block
  | line :: rest =>
      if String.eqb line "*" then ret block
      else if c =? 3
           then append_block blocks block;~
                block <~ alloc (Lines []);
                append_line block line;~
                _split_tlk_loop rest blocks block 1
           else append_line block line;~
                _split_tlk_loop rest blocks block (c + 1)
  end.

Definition _split_tlk_to_blocks (lines : loc) : M loc :=
  blocks <~ alloc (Blocks []);
  block <~ alloc (Lines []);
  items <~ read_lines lines;
  block <~ _split_tlk_loop items blocks block 0;
  append_block blocks block;~
  ret blocks.

(** [_add_empty_value_as_material_text_1] *)
Definition _add_empty_value_as_material_text_1 (block : loc) : M loc :=
  temp_block <~ copy_lines block;
  items <~ read_lines temp_block;
  first_line <~ lift (getitem items 0);
  set_line0 temp_block ("None" +:+ first_line);~
  ret temp_block.

Section Parser.

Variable T : tables.

(** The body of the [try] in the loop of [parse_tlk_file]. *)
Definition parse_tlk_block (block : loc) : M record :=
  items <~ read_lines block;
  unknown <~ lift (_is_unknown_material items);
  block <~ (if unknown : bool then _add_empty_value_as_material_text_1 block
            else ret block);
  items <~ read_lines block;
  lift (_parse_metadata_block items (tlk_data_mapping T)).

Fixpoint parse_tlk_blocks (blocks : list loc) (rows : list record)
    (errors : list error) : M (list record * list error) :=
  match blocks with
  | [] => ret (rows, errors)
  | block :: rest =>
      fun h =>
        match parse_tlk_block block h with
        | (Ok row, h') => parse_tlk_blocks rest (rows ++ [row]) errors h'
        | (Raise e, h') => parse_tlk_blocks rest rows (errors ++ [ErrStr e]) h'
        end
  end.

Definition parse_tlk_file (lines : loc) : M result :=
  let errors := [] in
  items <~ read_lines lines;
  if negb (nonempty items)
  then ret (tlk_result [] (errors ++ [ErrMsg "No lines found. Could not parse file"]))
  else
    blocks <~ _split_tlk_to_blocks lines;
    bs <~ read_blocks blocks;
    '( rows , errors ) <~ parse_tlk_blocks bs [] errors;
    ret (tlk_result rows errors).

(** After segmentation [parse_snd_file] and [parse_prv_file] only
    read the blocks (by index, slice and [split]). *)
Definition parse_snd_file (lines : loc) : M result :=
  blocks <~ _get_blocks lines;
  bs <~ contents blocks;
  lift (parse_snd_blocks T 3 bs).

Definition parse_prv_file (lines : loc) : M result :=
  blocks <~ _get_blocks lines;
  bs <~ contents blocks;
  lift (parse_prv_blocks T bs).

End Parser.

(** [h'] has every object of [h], unchanged. *)
Definition preserves (h h' : store) : Prop :=
  forall l o, h !! l = Some o -> h' !! l = Some o.

(** The blocks referred to by [bs] hold the lines [pbs]; they were
    made after the store [h0] and are neither [blocks] nor [cur]. *)
Definition owned_blocks (h0 h : store) (blocks cur : loc)
    (bs : list loc) (pbs : list Block) : Prop :=
  Forall2 (fun b items =>
             h !! b = Some (Lines items) /\ h0 !! b = None
             /\ b <> blocks /\ b <> cur) bs pbs.

End Store.

(** ** Notions used to state the properties *)

(** How a field is read: from a whole line, or from a token of a line. *)
Inductive field_kind : Set := whole_line | token.

(** The exceptions that [_parse_metadata_block] catches for a field. *)
Definition caught (k : field_kind) (e : exn) : bool :=
  match k with
  | whole_line => is_IndexError e
  | token => is_Index_or_ValueError e
  end.

(** The conversion that a table asks for a field, from the block. *)
Definition whole_conversion (value1 : field) (block : Block) : res value :=
  line ← getitem block (index value1);
  dtype value1 line.

Definition token_conversion (idx : Z) (value2 : field) (block : Block) : res value :=
  line ← getitem block idx;
  tok ← getitem (split line) (index value2);
  dtype value2 tok.

(** The fields of a table in the order in which the extractor writes
    them, each with its kind and conversion. *)
Fixpoint field_conversions (mapping : mapping)
    : list (string * (field_kind * (Block -> res value))) :=
  match mapping with
  | [] => []
  | (key1, Whole value1) :: rest =>
      (key1, (whole_line, whole_conversion value1)) :: field_conversions rest
  | (key1, Nested idx nested) :: rest =>
      List.map (fun '(key2, value2) => (key2, (token, token_conversion idx value2))) nested
      ++ field_conversions rest
  end.

Definition field_names (mapping : mapping) : list string :=
  List.map fst (field_conversions mapping).

(** The value of a conversion, the missing value when it raises. *)
Definition value_or_nan (r : res value) : value :=
  match r with
  | Ok v => v
  | Raise _ => VNan
  end.

(** The record after writing the fields' values, later fields last. *)
Definition write_all (block : Block)
    (fields : list (string * (field_kind * (Block -> res value))))
    (block_parsed : record) : record :=
  fold_left (fun acc '(name, (_, conv)) => <[name := value_or_nan (conv block)]> acc)
            fields block_parsed.

(** Every exception of a conversion on [block] is one that the extractor
    catches for that field. *)
Definition all_caught (block : Block)
    (fields : list (string * (field_kind * (Block -> res value)))) : Prop :=
  forall name k conv e,
    In (name, (k, conv)) fields -> conv block = Raise e -> caught k e = true.

(** Blocks of the store that hold the given lines. *)
Definition hold (h : gmap nat Store.object) (bs : list nat) (pbs : list Block) : Prop :=
  Forall2 (fun b items => h !! b = Some (Store.Lines items)) bs pbs.

(** The four indicator flags and their keys in a row. *)
Inductive flag : Set := Okt_rotasjon | Spyling | Slag | Pumping.

#[global] Instance flag_eq_dec : EqDecision flag.
Proof. solve_decision. Defined.

Definition flag_key (f : flag) : string :=
  match f with
  | Okt_rotasjon => "okt_rotasjon"
  | Spyling => "spyling"
  | Slag => "slag"
  | Pumping => "pumping"
  end.

Definition flag_value (f : flag) (i : indicator_dict) : value :=
  match f with
  | Okt_rotasjon => okt_rotasjon i
  | Spyling => spyling i
  | Slag => slag i
  | Pumping => pumping i
  end.





(** A block that the scan of [parse_snd_file] decodes as a CPT series:
    it is a data block, its metadata and rows are decoded, and its
    survey code equals 7. *)
Definition decodes_as_cpt (T : tables) (block : Block) : bool :=
  match _is_data_block block with
  | Ok true =>
      match _parse_unknown_data_block T block with
      | Ok (metadata, _) =>
          match metadata !! "survey_type_code" with
          | Some v => eq_int v 7
          | None => false
          end
      | Raise _ => false
      end
  | _ => false
  end.

(** ** Sample tables

    A small instance of the tables of [mappings.py], to run the parser
    on concrete files. *)
Definition sample_tables : tables := {|
  first_block_mapping :=
    [ ("coordinates", Nested 0 [ ("x", Field 0 dtype_str); ("y", Field 1 dtype_str) ]) ];
  second_block_mapping := [ ("borehole", Whole (Field 0 dtype_str)) ];
  third_block_mapping := [ ("guid", Whole (Field 0 dtype_str)) ];
  data_block_metadata_mapping :=
    [ ("survey", Nested 0 [ ("survey_type_code", Field 0 dtype_int);
                            ("date", Field 1 dtype_str) ]) ];
  cpt_unknown_block_mapping := [ ("cpt_info", Whole (Field 0 dtype_str)) ];
  tlk_data_mapping :=
    [ ("materials", Nested 0 [ ("material_text_1", Field 0 dtype_str);
                               ("material_text_2", Field 1 dtype_str) ]);
      ("depth", Whole (Field 1 dtype_str)) ];
  prv_metadata_mapping := [ ("name", Whole (Field 0 dtype_str)) ];
  tot_data_mapping := [ ("dybde", Field 0 dtype_str); ("kommentar", Field 1 dtype_str) ];
  cpt_data_mapping := [ ("dybde", Field 0 dtype_str); ("kommentar", Field 4 dtype_str) ];
  prv_data_mapping := [ ("dybde", Field 0 dtype_str); ("symbol", Field 1 dtype_int) ];
  geosuite_code_to_label := [ (41, "stein"); (42, "blokk") ];
  geosuite_textcode_to_code :=
    [ ("R1", VInt 70); ("R2", VInt 71); ("Y1", VInt 72); ("Y2", VInt 73);
      ("S1", VInt 74); ("S2", VInt 75); ("D1", VInt 76); ("D2", VInt 77);
      ("P1", VInt 78); ("P2", VInt 79); ("K1", VInt 41) ]
|}.

(** A sound file for the sample tables: three metadata blocks, a
    total sounding, a CPT series with its trailing block, and one more
    total sounding after it. *)
Definition sample_snd_lines : list string :=
  [ "1.0 2.0"; "*"; "BH1"; "*"; "guid-1"; "*";
    "25 01.02.2020"; "x"; "0.1 R1"; "0.2 R2"; "*";
    "7 01.02.2020"; "x"; " 1.0 2.0 3.0 4.0 hello world              5 6 7"; "*";
    "trailer"; "*";
    "25 01.02.2020"; "x"; "0.5 K1"; "*" ].

(** ** Further notions used to state the properties *)

(** The conversion that a data table asks for a field, from the tokens
    of a line. *)
Definition row_conversion (f : field) (line_vals : list string) : res value :=
  tok ← getitem line_vals (index f);
  dtype f tok.

(** Every conversion of a data table raises nothing but [ValueError] and
    [IndexError]. *)
Definition raises_value_or_index (mapping : data_mapping) : Prop :=
  forall key (f : field) s e,
    In (key, f) mapping -> dtype f s = Raise e ->
    e = ValueError \/ e = IndexError.



(** The keys that the converter writes into a row. *)
Definition indicator_keys : list string :=
  [ "okt_rotasjon"; "spyling"; "slag"; "pumping"; "comment_label" ].



(** Whether a computation returns, and the value that it returns
    ([d] when it raises). *)
Definition returns {A} (m : res A) : bool :=
  match m with Ok _ => true | Raise _ => false end.

Definition returned {A} (d : A) (m : res A) : A :=
  match m with Ok a => a | Raise _ => d end.

(** The rows of the blocks that [parse_tlk_file] decodes, and the
    errors of those that raise, in the order of the blocks. *)
Definition tlk_rows (T : tables) (blocks : list Block) : list record :=
  omap (fun block => match parse_tlk_block T block with
                     | Ok row => Some row
                     | Raise _ => None
                     end) blocks.

Definition tlk_errors (T : tables) (blocks : list Block) : list error :=
  omap (fun block => match parse_tlk_block T block with
                     | Ok _ => None
                     | Raise e => Some (ErrStr e)
                     end) blocks.

(** A series entry of a total sounding: its survey code equals 25. *)
Definition is_tot_series (s : series) : bool :=
  match s !! "survey_type_code" with
  | Some (SVal v) => eq_int v 25
  | _ => false
  end.

(** The metadata of a sound file before any block is decoded: every
    field of the three leading tables holds the missing value. *)
Definition empty_snd_metadata (T : tables) : record :=
  dict_merge
    (dict_merge (_initialize_empty_mapping (first_block_mapping T))
                (_initialize_empty_mapping (second_block_mapping T)))
    (_initialize_empty_mapping (third_block_mapping T)).

(** The sample tables with whole-line [int] fields in the first two
    blocks of a sound file. *)
Definition int_header_tables : tables := {|
  first_block_mapping := [ ("number", Whole (Field 0 dtype_int)) ];
  second_block_mapping := [ ("level", Whole (Field 0 dtype_int)) ];
  third_block_mapping := third_block_mapping sample_tables;
  data_block_metadata_mapping := data_block_metadata_mapping sample_tables;
  cpt_unknown_block_mapping := cpt_unknown_block_mapping sample_tables;
  tlk_data_mapping := tlk_data_mapping sample_tables;
  prv_metadata_mapping := prv_metadata_mapping sample_tables;
  tot_data_mapping := tot_data_mapping sample_tables;
  cpt_data_mapping := cpt_data_mapping sample_tables;
  prv_data_mapping := prv_data_mapping sample_tables;
  geosuite_code_to_label := geosuite_code_to_label sample_tables;
  geosuite_textcode_to_code := geosuite_textcode_to_code sample_tables
|}.





(** What a result of [parse_snd_file] holds for the metadata, the
    series and the errors that the call has found: the series under
    [blocks], the errors under [errors], every metadata field under its
    name, and the type [snd] unless a metadata field has this name. *)
Definition holds_snd_result (metadata : record) (blocks : list series)
    (errors : list error) (r : result) : Prop :=
  r !! "blocks" = Some (RSeries blocks)
  /\ r !! "errors" = Some (RErrors errors)
  /\ (forall k v, metadata !! k = Some v -> k <> "blocks" -> k <> "errors" ->
                  r !! k = Some (RVal v))
  /\ (metadata !! "type" = None -> r !! "type" = Some (RVal (VStr "snd"))).

(** What the series entry of a CPT block holds: the rows under [data],
    every field of the trailing metadata [tm] under its name, every
    field of the block's own metadata that [tm] does not name, the type
    [cpt] unless [tm] has a field of this name, and nothing else. *)
Definition holds_cpt_series (metadata tm : record) (data : list record)
    (e : series) : Prop :=
  e !! "data" = Some (SRows data)
  /\ (forall k v, tm !! k = Some v -> k <> "data" -> e !! k = Some (SVal v))
  /\ (forall k v, metadata !! k = Some v -> tm !! k = None ->
                  k <> "data" -> k <> "type" -> e !! k = Some (SVal v))
  /\ (tm !! "type" = None -> e !! "type" = Some (SVal (VStr "cpt")))
  /\ (forall k, is_Some (e !! k) ->
                k = "data" \/ k = "type" \/ is_Some (tm !! k) \/ is_Some (metadata !! k)).

(** ** Grouping the files of a folder ([geotolk_tools/load.py])

    [load.py] groups the file names of a folder by what precedes their
    last four characters.  Its helpers work on names only; they are
    transcribed here.  [load_folder] reads the files and calls the
    parser of its own package, and is left out. *)

(** [c.lower()] on U+0000 to U+00FF: the letters A to Z and the capital
    letters U+00C0 to U+00DE, the multiplication sign U+00D7 apart, move
    up by 32. *)
Definition lower_chr (c : ascii) : ascii :=
  let n := ord c in
  if ((65 <=? n) && (n <=? 90)
      || (192 <=? n) && (n <=? 222) && negb (n =? 215))%nat
  then chr (n + 32) else c.

(** [s.lower()] *)
Fixpoint lower (s : string) : string :=
  match s with
  | EmptyString => EmptyString
  | String c s' => String (lower_chr c) (lower s')
  end.

(** [s[-n:]] and [s[:-n]] for [n > 0]: a string of at most [n]
    characters is its own tail, and has the empty string in front. *)
Definition str_last (n : nat) (s : string) : string :=
  str_drop (String.length s - n) s.

Definition str_but_last (n : nat) (s : string) : string :=
  str_take (String.length s - n) s.

(** Regular expressions, as far as [_PR_PATTERN] uses them, and
    [pattern.match(s)]: whether some prefix of [s] belongs to the
    pattern.  [lang] is the language of a pattern; [re_match] decides
    the match with derivatives. *)
Module Re.

Inductive regex : Type :=
| Void
| Eps
| Class (p : ascii -> bool)
| Seq (r1 r2 : regex)
| Alt (r1 r2 : regex)
| Star (r : regex).

(** The characters of [w], one after the other. *)
Fixpoint lit (w : string) : regex :=
  match w with
  | EmptyString => Eps
  | String c w' => Seq (Class (Ascii.eqb c)) (lit w')
  end.

Inductive lang : regex -> string -> Prop :=
| lang_eps : lang Eps ""
| lang_class p c : p c = true -> lang (Class p) (String c "")
| lang_seq r1 r2 s1 s2 : lang r1 s1 -> lang r2 s2 -> lang (Seq r1 r2) (s1 +:+ s2)
| lang_alt_l r1 r2 s : lang r1 s -> lang (Alt r1 r2) s
| lang_alt_r r1 r2 s : lang r2 s -> lang (Alt r1 r2) s
| lang_star_nil r : lang (Star r) ""
| lang_star_app r s1 s2 : lang r s1 -> lang (Star r) s2 -> lang (Star r) (s1 +:+ s2).

Fixpoint nullable (r : regex) : bool :=
  match r with
  | Void => false
  | Eps => true
  | Class _ => false
  | Seq r1 r2 => nullable r1 && nullable r2
  | Alt r1 r2 => nullable r1 || nullable r2
  | Star _ => true
  end.

Fixpoint deriv (c : ascii) (r : regex) : regex :=
  match r with
  | Void => Void
  | Eps => Void
  | Class p => if p c then Eps else Void
  | Seq r1 r2 =>
      if nullable r1
      then Alt (Seq (deriv c r1) r2) (deriv c r2)
      else Seq (deriv c r1) r2
  | Alt r1 r2 => Alt (deriv c r1) (deriv c r2)
  | Star r => Seq (deriv c r) (Star r)
  end.

(** [pattern.match(s) is not None] *)
Fixpoint re_match (r : regex) (s : string) {struct s} : bool :=
  nullable r
  || match s with
     | EmptyString => false
     | String c s' => re_match (deriv c r) s'
     end.

End Re.

(** [.]: any character but the newline.  [[^\-]]: any character but
    the hyphen. *)
Definition dot (c : ascii) : bool := negb (Ascii.eqb c "010").
Definition not_hyphen (c : ascii) : bool := negb (Ascii.eqb c "-").

Definition _VALID_FILETYPES : list string := [".snd"; ".tlk"; ".prv"].

(** [re.compile(".*PR([^\-]).*(SND|snd)")] *)
Definition _PR_PATTERN : Re.regex :=
  Re.Seq (Re.Star (Re.Class dot))
    (Re.Seq (Re.lit "PR")
       (Re.Seq (Re.Class not_hyphen)
          (Re.Seq (Re.Star (Re.Class dot))
             (Re.Alt (Re.lit "SND") (Re.lit "snd"))))).

(** [s in l] for a list of [str] *)
Definition str_in (s : string) (l : list string) : bool := existsb (String.eqb s) l.

(** The loop of [_remove_filenames_without_snd_file] returns [files]
    at the first name that ends in [.snd]. *)
Fixpoint _remove_filenames_loop (files rest : list string) : list string :=
  match rest with
  | [] => []
  | filename :: rest =>
      if String.eqb (lower (str_last 4 filename)) ".snd"
      then files
      else _remove_filenames_loop files rest
  end.

Definition _remove_filenames_without_snd_file (files : list string) : list string :=
  _remove_filenames_loop files files.

Definition _prune_filetypes (files : list string) : list string :=
  List.filter (fun f => str_in (lower (str_last 4 f)) _VALID_FILETYPES) files.

Definition _remove_incomplete_files (files : list string) : list string :=
  List.filter (fun f => negb (Re.re_match _PR_PATTERN f)) files.

(** The body of the loop of [_associate_filenames_in_folder]: the
    group of one prefix. *)
Definition grouped_filenames (filenames : list string) (unique_filename : string)
    : list string :=
  let grouped_filenames :=
    List.filter (fun full_filename =>
                   String.eqb (str_but_last 4 full_filename) unique_filename)
                filenames in
  let grouped_filenames := _remove_incomplete_files grouped_filenames in
  let grouped_filenames := _prune_filetypes grouped_filenames in
  _remove_filenames_without_snd_file grouped_filenames.

Fixpoint _associate_filenames_loop (filenames : list string) (prefixes : list string)
    (associated_files : gmap string (list string)) : gmap string (list string) :=
  match prefixes with
  | [] => associated_files
  | unique_filename :: rest =>
      let grouped := grouped_filenames filenames unique_filename in
      _associate_filenames_loop filenames rest
        (if nonempty grouped
         then <[unique_filename := grouped]> associated_files
         else associated_files)
  end.

(** [prefixes] is a [set]: the loop goes through its elements in an
    order that the language leaves open.  The result is a dictionary
    with one key per prefix, read here as a finite map. *)
Definition _associate_filenames_in_folder (filenames : list string)
    : gmap string (list string) :=
  let prefixes : gset string := list_to_set (List.map (str_but_last 4) filenames) in
  _associate_filenames_loop filenames (elements prefixes) ∅.

(** A name that [_PR_PATTERN] matches: [PR], a character that is no
    hyphen, and later [SND] or [snd], with no newline before [PR] nor
    between that character and [SND]. *)
Definition pr_name (f : string) : Prop :=
  exists (a : string) (c : ascii) (b t rest : string),
    f = a +:+ "PR" +:+ String c (b +:+ t +:+ rest)
    /\ str_forallb dot a = true
    /\ c <> "-"%char
    /\ str_forallb dot b = true
    /\ (t = "SND" \/ t = "snd").

(** A name that the filters of a group keep, and a name that counts as
    a sound file. *)
Definition kept_name (f : string) : bool :=
  negb (Re.re_match _PR_PATTERN f)
  && str_in (lower (str_last 4 f)) _VALID_FILETYPES.

Definition snd_name (f : string) : bool :=
  String.eqb (lower (str_last 4 f)) ".snd".

(** * Properties *)

(** ** Fixed-arity segmenter *)

Lemma _split_tlk_loop_spec (lines : list string) :
  forall (blocks : list Block) (block : Block) (c : Z),
    c = Z.of_nat (length block) ->
    (length block <= 3)%nat ->
    exists (full : list Block) (final : Block),
      _split_tlk_loop lines blocks block c = (blocks ++ full, final)
      /\ Forall (fun b => length b = 3%nat) full
      /\ concat full ++ final = block ++ before_asterisk lines
      /\ (length final <= 3)%nat
      /\ (final = [] -> block = [] /\ full = []).
Proof.
  induction lines as [|line rest IH]; intros blocks block c Hc Hlen; simpl.
  - exists [], block. rewrite !app_nil_r. repeat split; auto.
  - destruct (String.eqb line "*") eqn:Hstar.
    + exists [], block. rewrite !app_nil_r. repeat split; auto.
    + destruct (c =? 3) eqn:Hc3.
      * apply Z.eqb_eq in Hc3.
        destruct (IH (blocks ++ [block]) [line] 1)
          as (full & final & Heq & Hfull & Hcat & Hfin & Hnil);
          [reflexivity | simpl; lia |].
        exists (block :: full), final.
        rewrite Heq, <- app_assoc. simpl.
        split; [reflexivity|]. split; [constructor; [lia | assumption]|].
        split; [rewrite <- app_assoc, Hcat; reflexivity|].
        split; [assumption|].
        intros Hf. destruct (Hnil Hf) as [Habs _]. discriminate.
      * apply Z.eqb_neq in Hc3.
        destruct (IH blocks (block ++ [line]) (c + 1))
          as (full & final & Heq & Hfull & Hcat & Hfin & Hnil).
        -- rewrite length_app. simpl. lia.
        -- rewrite length_app. simpl. lia.
        -- exists full, final. rewrite Heq.
           split; [reflexivity|]. split; [assumption|].
           split; [rewrite Hcat, <- app_assoc; reflexivity|].
           split; [assumption|].
           intros Hf. destruct (Hnil Hf) as [Habs _].
           destruct block; discriminate.
Qed.

(** C5 (as amended).  [_split_tlk_to_blocks] stops at the first asterisk
    line and returns the lines in front of it cut into groups: every
    block but the last has exactly three lines, and the group that was
    being accumulated when the scan stopped, of at most three lines, is
    the last block of the result; it is empty only when no line comes
    before the asterisk. *)
Theorem split_tlk_keeps_final_group (lines : list string) :
  exists (full : list Block) (final : Block),
    _split_tlk_to_blocks lines = full ++ [final]
    /\ Forall (fun b => length b = 3%nat) full
    /\ (length final <= 3)%nat
    /\ concat (full ++ [final]) = before_asterisk lines
    /\ (final = [] <-> before_asterisk lines = []).
Proof.
  unfold _split_tlk_to_blocks.
  destruct (_split_tlk_loop_spec lines [] [] 0)
    as (full & final & Heq & Hfull & Hcat & Hfin & Hnil);
    [reflexivity | simpl; lia |].
  rewrite Heq. simpl in *. exists full, final.
  split; [reflexivity|]. split; [assumption|]. split; [assumption|].
  split.
  - rewrite concat_app. simpl. rewrite app_nil_r. exact Hcat.
  - split.
    + intros Hf. destruct (Hnil Hf) as [_ ->]. subst final. symmetry. exact Hcat.
    + intros Hb. rewrite Hb in Hcat. apply app_eq_nil in Hcat. tauto.
Qed.

(** C5, the claim as written fails: the two lines in front of the
    asterisk are no group of three, and they are in the result. *)
Lemma split_tlk_partial_group_returned :
  _split_tlk_to_blocks ["a"; "b"; "*"] = [["a"; "b"]]
  /\ ~ Forall (fun b : Block => length b = 3%nat) (_split_tlk_to_blocks ["a"; "b"; "*"]).
Proof.
  split; [reflexivity|].
  intros H. inversion H as [|b l Hb Hl]; subst. discriminate Hb.
Qed.

(** ** Symbol decoder *)

(** C7.  The negative table has 13 entries; [-5] (binary [101]) decodes
    to its entries 0 and 2, in this order, which join to one string
    with a space between them; [23] decodes to the entries 2 and 3 of
    the positive table, in the order of the digits; [0] decodes to no
    label. *)
Theorem label_from_symbol_examples :
  length _SYMBOL_LABELS_NEG = 13%nat
  /\ bin_digits (Z.to_pos (Z.abs (-5))) = "101"
  /\ (exists l0 l2,
        _SYMBOL_LABELS_NEG !! 0%nat = Some l0
        /\ _SYMBOL_LABELS_NEG !! 2%nat = Some l2
        /\ _label_from_symbol (VInt (-5)) = Ok [l0; l2]
        /\ join_values " " [l0; l2] = Ok "Leire Grus")
  /\ (exists p2 p3,
        _SYMBOL_LABELS_POS !! 2%nat = Some p2
        /\ _SYMBOL_LABELS_POS !! 3%nat = Some p3
        /\ _label_from_symbol (VInt 23) = Ok [p2; p3])
  /\ _label_from_symbol (VInt 0) = Ok [].
Proof.
  split; [reflexivity|]. split; [reflexivity|]. split; [|split].
  - exists (VStr "Leire"), (VStr "Grus"). repeat split; reflexivity.
  - exists (VStr "Silt"), (VStr "Sand"). repeat split; reflexivity.
  - reflexivity.
Qed.

(** ** Soil-type label of auxiliary rows *)

(** C8, at the failing input.  The test that turns an empty label into
    the missing value comes after the loop of
    [_extract_and_add_symbol_text] and only sees the last row: with the
    symbols 0 and 1, the row of symbol 0 keeps the empty string. *)
Theorem extract_symbol_text_first_row_empty :
  _extract_and_add_symbol_text [ {["symbol" := VInt 0]}; {["symbol" := VInt 1]} ]
  = Ok [ <["symbol_soiltype" := VStr ""]> {["symbol" := VInt 0]};
         <["symbol_soiltype" := VStr "Leire"]> {["symbol" := VInt 1]} ].
Proof. vm_compute. reflexivity. Qed.

(** The same symbol in the last row gets the missing value. *)
Lemma extract_symbol_text_last_row_nan :
  _extract_and_add_symbol_text [ {["symbol" := VInt 1]}; {["symbol" := VInt 0]} ]
  = Ok [ <["symbol_soiltype" := VStr "Leire"]> {["symbol" := VInt 1]};
         <["symbol_soiltype" := VNan]> {["symbol" := VInt 0]} ].
Proof. vm_compute. reflexivity. Qed.

(** ** Exceptions at the entry points *)

(** C1, at the failing input.  On a file without lines the segmenter
    returns no block, and [parse_prv_file] takes [blocks[0]] before it
    looks at the number of blocks: the call raises [IndexError]. *)
Theorem parse_prv_file_no_lines (T : tables) :
  parse_prv_file T [] = Raise IndexError.
Proof. reflexivity. Qed.

(** The interpretation-file entry point returns for every input and
    every table: all that can raise is inside its [try]. *)
Lemma parse_tlk_file_returns (T : tables) (lines : list string) :
  exists r, parse_tlk_file T lines = Ok r.
Proof.
  unfold parse_tlk_file.
  destruct (negb (nonempty lines)); [eexists; reflexivity|].
  destruct (parse_tlk_blocks T (_split_tlk_to_blocks lines) [] []) as [rows errors].
  eexists; reflexivity.
Qed.

Arguments in_list : simpl never.
Arguments getitem : simpl never.
Arguments int_of_str : simpl never.
Arguments isdigit : simpl never.
Arguments split : simpl never.
Arguments _try_parse_datetime : simpl never.

(** ** Indexing *)

Lemma getitem_nonneg {A} (l : list A) (i : Z) :
  0 <= i ->
  getitem l i = match l !! Z.to_nat i with
                | Some a => Ok a
                | None => Raise IndexError
                end.
Proof.
  intros Hi. unfold getitem.
  destruct (i <? 0) eqn:Hneg; [apply Z.ltb_lt in Hneg; lia|].
  destruct (l !! Z.to_nat i) as [a|] eqn:Hl.
  - apply lookup_lt_Some in Hl.
    replace ((0 <=? i) && (i <? Z.of_nat (length l))) with true; [reflexivity|].
    symmetry. apply andb_true_iff. split; [apply Z.leb_le | apply Z.ltb_lt]; lia.
  - destruct ((0 <=? i) && (i <? Z.of_nat (length l))); reflexivity.
Qed.

Lemma getitem_0 {A} (x : A) (l : list A) : getitem (x :: l) 0 = Ok x.
Proof. rewrite getitem_nonneg by lia. reflexivity. Qed.

Lemma getitem_1 {A} (x y : A) (l : list A) : getitem (x :: y :: l) 1 = Ok y.
Proof. rewrite getitem_nonneg by lia. reflexivity. Qed.

Lemma in_list_In (n : Z) (l : list Z) : in_list n l = true <-> In n l.
Proof.
  unfold in_list. rewrite existsb_exists. split.
  - intros (x & Hx & Heq). apply Z.eqb_eq in Heq. subst. exact Hx.
  - intros Hn. exists n. split; [exact Hn | apply Z.eqb_refl].
Qed.

(** ** Computations that return *)

Lemma returns_returned {A} (d : A) (m : res A) :
  returns m = true -> m = Ok (returned d m).
Proof. destruct m; [reflexivity | discriminate]. Qed.

Lemma returns_returned_pair {A B} (d : A * B) (m : res (A * B)) :
  returns m = true -> m = Ok ((returned d m).1, (returned d m).2).
Proof. destruct m as [[a b]|e]; [reflexivity | discriminate]. Qed.

(** [int] on some literals, as Python answers: the separator U+001C is
    no whitespace for [int], NEL and the no-break space are. *)
Lemma int_of_str_samples :
  List.map int_of_str
    [ "1" +:+ String (chr 28) ""; String (chr 28) "1"; " 1" +:+ String (chr 133) "";
      String (chr 160) ("1" +:+ String (chr 160) ""); String (chr 11) "1";
      "+1"; "-1"; "+-1"; "1_0"; "_1"; "1_"; "1__0"; ""; "  "; String (chr 178) "" ]
  = [ Raise ValueError; Raise ValueError; Ok 1;
      Ok 1; Ok 1;
      Ok 1; Ok (-1); Raise ValueError; Ok 10; Raise ValueError; Raise ValueError;
      Raise ValueError; Raise ValueError; Raise ValueError; Raise ValueError ].
Proof. vm_compute. reflexivity. Qed.

(** ** Survey dispatcher *)

(** The classification as the code makes it.  A block with a first line
    is a data block exactly when that line splits into two tokens, the
    first token is all digits, and either its integer value is a known
    survey code and the second token parses under one of the date
    patterns or is all digits, or [int] refuses the first token and the
    second token is all digits (the [except] clause of [_is_data_block]
    takes every exception of its [try]).  The classification returns
    for every such block; the first line [7 01.02.2020] is a data
    block, [99 xyz] is not. *)
Lemma is_data_block_iff (first_line : string) (rest : list string) :
  (exists b, _is_data_block (first_line :: rest) = Ok b)
  /\ (_is_data_block (first_line :: rest) = Ok true <->
      exists survey_code date,
        split first_line = [survey_code; date]
        /\ isdigit survey_code = true
        /\ ((exists n, int_of_str survey_code = Ok n
                       /\ In n _KNOWN_SURVEY_CODES
                       /\ (is_Ok (_try_parse_datetime date) \/ isdigit date = true))
            \/ ((exists e, int_of_str survey_code = Raise e) /\ isdigit date = true)))
  /\ _is_data_block ["7 01.02.2020"] = Ok true
  /\ _is_data_block ["99 xyz"] = Ok false.
Proof.
  split; [|split; [|split; reflexivity]].
  - unfold _is_data_block. rewrite getitem_0. simpl.
    destruct (split first_line) as [|a [|b [|c l]]]; simpl; try (eexists; reflexivity).
    destruct (isdigit a); simpl.
    + destruct (int_of_str a) as [n|e]; simpl.
      * destruct (in_list n _KNOWN_SURVEY_CODES); simpl; [|eexists; reflexivity].
        destruct (_try_parse_datetime b); simpl; [eexists; reflexivity|].
        destruct (isdigit b); eexists; reflexivity.
      * destruct (isdigit b); eexists; reflexivity.
    + eexists; reflexivity.
  - unfold _is_data_block. rewrite getitem_0. simpl.
    destruct (split first_line) as [|a [|b [|c l]]]; simpl;
      try (split; [discriminate | intros (sc & d & Hs & _); discriminate]).
    destruct (isdigit a) eqn:Ha; simpl.
    + destruct (int_of_str a) as [n|e] eqn:Hint; simpl.
      * destruct (in_list n _KNOWN_SURVEY_CODES) eqn:Hin; simpl.
        -- apply in_list_In in Hin.
           destruct (_try_parse_datetime b) as [dt|e] eqn:Hdate; simpl.
           ++ split; [intros _ | reflexivity].
              exists a, b. split; [reflexivity|]. split; [assumption|].
              left. exists n. split; [assumption|]. split; [assumption|].
              left. exists dt. assumption.
           ++ destruct (isdigit b) eqn:Hb.
              ** split; [intros _ | reflexivity].
                 exists a, b. split; [reflexivity|]. split; [assumption|].
                 left. exists n. split; [assumption|]. split; [assumption|].
                 right. assumption.
              ** split; [discriminate|].
                 intros (sc & d & Hs & _ & [(m & Hm & _ & [[dt Hdt] | Hd]) | [_ Hd]]);
                   inversion Hs; subst; congruence.
        -- split; [discriminate|].
           intros (sc & d & Hs & _ & [(m & Hm & Hk & _) | [[e He] _]]);
             inversion Hs; subst; [|congruence].
           rewrite Hint in Hm. inversion Hm; subst.
           assert (Hm' : in_list m _KNOWN_SURVEY_CODES = true)
             by (apply in_list_In; exact Hk).
           congruence.
      * destruct (isdigit b) eqn:Hb.
        -- split; [intros _ | reflexivity].
           exists a, b. split; [reflexivity|]. split; [assumption|].
           right. split; [exists e; assumption | assumption].
        -- split; [discriminate|].
           intros (sc & d & Hs & _ & [(m & Hm & _) | [_ Hd]]);
             inversion Hs; subst; congruence.
    + split; [discriminate|].
      intros (sc & d & Hs & Hd & _). inversion Hs; subst. congruence.
Qed.

(** C4, at the failing input.  The first line made of a superscript
    two, a space and [5] is classified as a data block, although its
    first token has no integer value, so none in the set of known
    survey codes.  [str.isdigit] takes the superscript two for a digit,
    so the test in front of [int] lets the token through; [int]
    refuses it; and the [except Exception] clause, which is there for a
    date that does not parse, takes this [ValueError] as well and
    accepts the block on its all-digit second token alone. *)
Theorem is_data_block_superscript_code :
  let survey_code := String (chr 178) "" in
  let first_line := String (chr 178) " 5" in
  split first_line = [survey_code; "5"]
  /\ isdigit survey_code = true
  /\ int_of_str survey_code = Raise ValueError
  /\ _is_data_block [first_line] = Ok true
  /\ ~ (exists survey_code date,
          split first_line = [survey_code; date]
          /\ isdigit survey_code = true
          /\ (exists n, int_of_str survey_code = Ok n /\ In n _KNOWN_SURVEY_CODES)
          /\ (is_Ok (_try_parse_datetime date) \/ isdigit date = true)).
Proof.
  repeat (split; [reflexivity|]).
  intros (sc & d & Hs & _ & (n & Hn & _) & _).
  inversion Hs; subst. discriminate Hn.
Qed.

(** ** Metadata block extractor *)

Section Extractor.

Variable block : Block.

Lemma write_all_app fs gs acc :
  write_all block (fs ++ gs) acc = write_all block gs (write_all block fs acc).
Proof. unfold write_all. apply fold_left_app. Qed.

Lemma _parse_metadata_nested_writes (idx : Z) (nested : list (string * field)) :
  forall block_parsed,
    all_caught block (List.map (fun '(key2, value2) =>
                            (key2, (token, token_conversion idx value2))) nested) ->
    _parse_metadata_nested block idx nested block_parsed
    = Ok (write_all block (List.map (fun '(key2, value2) =>
                                 (key2, (token, token_conversion idx value2))) nested)
                    block_parsed).
Proof.
  induction nested as [|[key2 value2] rest IH]; intros acc Hall; [reflexivity|].
  simpl.
  assert (Hstep : try_except (token_conversion idx value2 block)
                    is_Index_or_ValueError (fun _ => Ok VNan)
                  = Ok (value_or_nan (token_conversion idx value2 block))).
  { destruct (token_conversion idx value2 block) as [v|e] eqn:Hconv; [reflexivity|].
    simpl. specialize (Hall key2 token (token_conversion idx value2) e).
    simpl in Hall. rewrite Hall; auto. }
  unfold token_conversion in Hstep at 1. rewrite Hstep. simpl.
  rewrite IH; [reflexivity|].
  intros name k conv e Hin. apply (Hall name k conv e). right. exact Hin.
Qed.

Lemma _parse_metadata_loop_writes (mapping : mapping) :
  forall block_parsed,
    all_caught block (field_conversions mapping) ->
    _parse_metadata_loop block mapping block_parsed
    = Ok (write_all block (field_conversions mapping) block_parsed).
Proof.
  induction mapping as [|[key1 [value1|idx nested]] rest IH]; intros acc Hall;
    [reflexivity| |].
  - simpl.
    assert (Hstep : try_except (whole_conversion value1 block)
                      is_IndexError (fun _ => Ok VNan)
                    = Ok (value_or_nan (whole_conversion value1 block))).
    { destruct (whole_conversion value1 block) as [v|e] eqn:Hconv; [reflexivity|].
      simpl. specialize (Hall key1 whole_line (whole_conversion value1) e).
      simpl in Hall. rewrite Hall; auto. }
    unfold whole_conversion in Hstep at 1. rewrite Hstep. simpl.
    rewrite IH; [reflexivity|].
    intros name k conv e Hin. apply (Hall name k conv e). right. exact Hin.
  - simpl. rewrite _parse_metadata_nested_writes.
    + simpl. rewrite IH.
      * rewrite write_all_app. reflexivity.
      * intros name k conv e Hin. apply (Hall name k conv e).
        simpl. apply in_or_app. right. exact Hin.
    + intros name k conv e Hin. apply (Hall name k conv e).
      simpl. apply in_or_app. left. exact Hin.
Qed.

Lemma write_all_other fs : forall acc name,
  ~ In name (List.map fst fs) -> write_all block fs acc !! name = acc !! name.
Proof.
  induction fs as [|[n [k conv]] rest IH]; intros acc name Hnot; [reflexivity|].
  simpl in *. unfold write_all in *. simpl. rewrite IH by tauto.
  apply lookup_insert_ne. intros ->. tauto.
Qed.

Lemma write_all_lookup fs : forall acc name k conv,
  NoDup (List.map fst fs) ->
  In (name, (k, conv)) fs ->
  write_all block fs acc !! name = Some (value_or_nan (conv block)).
Proof.
  induction fs as [|[n [k0 conv0]] rest IH]; intros acc name k conv Hnd Hin; [destruct Hin|].
  simpl in Hnd. apply NoDup_cons in Hnd as [Hfresh Hnd].
  destruct Hin as [Heq|Hin].
  - inversion Heq; subst. unfold write_all. simpl.
    fold (write_all block rest (<[name := value_or_nan (conv block)]> acc)).
    rewrite write_all_other; [apply lookup_insert_eq|].
    intros Hin. apply Hfresh. apply list_elem_of_In. exact Hin.
  - unfold write_all. simpl.
    fold (write_all block rest (<[n := value_or_nan (conv0 block)]> acc)).
    apply IH with (k := k); assumption.
Qed.

Lemma write_all_keys fs : forall acc name,
  is_Some (write_all block fs acc !! name) <-> In name (List.map fst fs) \/ is_Some (acc !! name).
Proof.
  induction fs as [|[n [k conv]] rest IH]; intros acc name.
  - simpl. tauto.
  - unfold write_all. simpl.
    fold (write_all block rest (<[n := value_or_nan (conv block)]> acc)).
    rewrite IH. rewrite lookup_insert_is_Some. 
    destruct (decide (n = name)); tauto.
Qed.

End Extractor.

Lemma field_conversions_app (m1 m2 : mapping) :
  field_conversions (m1 ++ m2) = field_conversions m1 ++ field_conversions m2.
Proof.
  induction m1 as [|[key1 [value1|idx nested]] rest IH]; [reflexivity| |].
  - simpl. rewrite IH. reflexivity.
  - simpl. rewrite IH, <- app_assoc. reflexivity.
Qed.

Lemma _parse_metadata_loop_app (block : Block) (m1 m2 : mapping) :
  forall block_parsed,
    _parse_metadata_loop block (m1 ++ m2) block_parsed
    = (block_parsed ← _parse_metadata_loop block m1 block_parsed;
       _parse_metadata_loop block m2 block_parsed).
Proof.
  induction m1 as [|[key1 [value1|idx nested]] rest IH]; intros acc; [reflexivity| |].
  - simpl.
    destruct (try_except _ is_IndexError _) as [v|e]; simpl; [apply IH | reflexivity].
  - simpl.
    destruct (_parse_metadata_nested block idx nested acc) as [acc'|e]; simpl;
      [apply IH | reflexivity].
Qed.

(** A whole-line field whose line is there and whose conversion raises
    anything but [IndexError] ends the loop with that exception, when
    the fields in front of it are written. *)
Lemma _parse_metadata_loop_aborts (block : Block) (m1 m2 : mapping)
    (key1 : string) (value1 : field) (line : string) (e : exn) :
  forall block_parsed,
    all_caught block (field_conversions m1) ->
    getitem block (index value1) = Ok line ->
    dtype value1 line = Raise e ->
    e <> IndexError ->
    _parse_metadata_loop block (m1 ++ (key1, Whole value1) :: m2) block_parsed = Raise e.
Proof.
  intros acc Hall Hline Hconv He.
  rewrite _parse_metadata_loop_app, (_parse_metadata_loop_writes block m1 acc Hall).
  simpl. rewrite Hline. simpl. rewrite Hconv. simpl.
  unfold is_IndexError. rewrite bool_decide_eq_false_2 by exact He. reflexivity.
Qed.

(** C3 (as amended).  When no conversion of the table raises an
    exception that [_parse_metadata_block] lets through on this block
    (it catches [IndexError] and [ValueError] for a token field, and
    only [IndexError] for a whole-line field), the extractor returns a
    record with exactly the fields of the table, in which every field
    whose line or token index is out of range or whose conversion fails
    holds the missing value, and every other field holds its converted
    value.  A whole-line field whose line is there and whose conversion
    fails with [ValueError], or with anything but [IndexError], is not
    caught: whatever the tables and the block are, the extraction of
    the block ends with that exception and yields no record, once the
    fields in front of it in the table are written. *)
Theorem parse_metadata_block_fields (block : Block) (mapping : mapping) :
  (NoDup (field_names mapping) ->
   (forall name k conv e,
       In (name, (k, conv)) (field_conversions mapping) ->
       conv block = Raise e -> caught k e = true) ->
   exists r,
     _parse_metadata_block block mapping = Ok r
     /\ (forall name, is_Some (r !! name) <-> In name (field_names mapping))
     /\ (forall name k conv,
           In (name, (k, conv)) (field_conversions mapping) ->
           r !! name = Some (value_or_nan (conv block))))
  /\ (forall (m1 m2 : list (string * entry)) (key1 : string) (value1 : field)
        (line : string) (e : exn),
        mapping = m1 ++ (key1, Whole value1) :: m2 ->
        (forall name k conv e',
            In (name, (k, conv)) (field_conversions m1) ->
            conv block = Raise e' -> caught k e' = true) ->
        getitem block (index value1) = Ok line ->
        dtype value1 line = Raise e ->
        e <> IndexError ->
        _parse_metadata_block block mapping = Raise e
        /\ ~ (exists r, _parse_metadata_block block mapping = Ok r)).
Proof.
  split.
  - intros Hnd Hall.
    exists (write_all block (field_conversions mapping) ∅).
    split; [|split].
    + apply _parse_metadata_loop_writes. exact Hall.
    + intros name. rewrite write_all_keys. rewrite lookup_empty.
      unfold field_names. split; [intros [H|[x Hx]]; [exact H | discriminate] | tauto].
    + intros name k conv Hin. apply write_all_lookup with (k := k); assumption.
  - intros m1 m2 key1 value1 line e -> Hall Hline Hconv He.
    assert (Hraise : _parse_metadata_block block (m1 ++ (key1, Whole value1) :: m2)
                     = Raise e)
      by (apply (_parse_metadata_loop_aborts block m1 m2 key1 value1 line e);
          assumption).
    split; [exact Hraise|].
    intros [r Hr]. rewrite Hraise in Hr. discriminate Hr.
Qed.

(** C3, the claim as written fails: the conversion of the whole-line
    field [a] raises [ValueError], which the extractor only catches for
    token fields; the block yields no record, so [a] is not set to the
    missing value and the field [b] gets no value. *)
Lemma parse_metadata_block_whole_line_aborts :
  let mapping := [ ("a", Whole (Field 0 dtype_int)); ("b", Whole (Field 1 dtype_str)) ] in
  let block := [ "x"; "y" ] in
  whole_conversion (Field 0 dtype_int) block = Raise ValueError
  /\ _parse_metadata_block block mapping = Raise ValueError
  /\ ~ (exists r, _parse_metadata_block block mapping = Ok r
                  /\ r !! "a" = Some VNan /\ r !! "b" = Some (VStr "y")).
Proof.
  split; [reflexivity|]. split; [reflexivity|].
  intros (r & Hr & _). discriminate Hr.
Qed.

(** The theorem on two blocks.  In the first one [x] converts, [y] is
    no number, [z] and [guid] are out of range: the record has all five
    fields.  In the second one the whole-line field [level] is no
    number, after a field that is written: the extraction raises. *)
Lemma parse_metadata_block_fields_witness :
  let mapping :=
    [ ("xyz", Nested 0 [ ("x", Field 0 dtype_int); ("y", Field 1 dtype_int);
                         ("z", Field 2 dtype_int) ]);
      ("name", Whole (Field 1 dtype_str));
      ("guid", Whole (Field 5 dtype_str)) ] in
  let block := [ "12 abc"; "BH" ] in
  let mapping' :=
    [ ("xy", Nested 0 [ ("x", Field 0 dtype_int); ("y", Field 1 dtype_int) ]);
      ("level", Whole (Field 1 dtype_int));
      ("name", Whole (Field 2 dtype_str)) ] in
  let block' := [ "12 abc"; "high"; "BH" ] in
  (exists r,
     _parse_metadata_block block mapping = Ok r
     /\ (forall name, is_Some (r !! name) <-> In name (field_names mapping))
     /\ (forall name k conv,
           In (name, (k, conv)) (field_conversions mapping) ->
           r !! name = Some (value_or_nan (conv block))))
  /\ (_parse_metadata_block block' mapping' = Raise ValueError
      /\ ~ (exists r, _parse_metadata_block block' mapping' = Ok r)).
Proof.
  intros mapping block mapping' block'.
  split.
  - apply (proj1 (parse_metadata_block_fields block mapping)).
    + apply (bool_decide_unpack (NoDup (field_names mapping))). vm_compute. exact I.
    + intros name k conv e Hin Hconv. simpl in Hin.
      repeat (destruct Hin as [Hin|Hin];
              [inversion Hin; subst; vm_compute in Hconv;
               first [discriminate Hconv | inversion Hconv; reflexivity]|]).
      destruct Hin.
  - apply (proj2 (parse_metadata_block_fields block' mapping')
             [ ("xy", Nested 0 [ ("x", Field 0 dtype_int); ("y", Field 1 dtype_int) ]) ]
             [ ("name", Whole (Field 2 dtype_str)) ]
             "level" (Field 1 dtype_int) "high" ValueError).
    + reflexivity.
    + intros name k conv e Hin Hconv. simpl in Hin.
      repeat (destruct Hin as [Hin|Hin];
              [inversion Hin; subst; vm_compute in Hconv;
               first [discriminate Hconv | inversion Hconv; reflexivity]|]).
      destruct Hin.
    + reflexivity.
    + reflexivity.
    + discriminate.
Defined.

(** ** Comment-code indicator converter *)

Section Converter.

Variable T : tables.


Lemma merge_indicators_flag (row : record) (i : indicator_dict) (label : value) (f : flag) :
  merge_indicators row i label !! flag_key f = Some (flag_value f i).
Proof.
  unfold merge_indicators.
  destruct f; simpl;
    repeat first [ apply lookup_insert_eq
                 | rewrite lookup_insert_ne by discriminate ].
Qed.

End Converter.

Section Flags.

Variable T : tables.











End Flags.




(** ** Sound-file orchestrator *)

Section Sound.

Variable T : tables.

Lemma eq_int_7_not_25 (v : value) : eq_int v 7 = true -> eq_int v 25 = false.
Proof.
  destruct v as [|s|z|q]; simpl; try discriminate.
  - intros H. apply Z.eqb_eq in H. subst. reflexivity.
  - intros H. apply Qeq_bool_iff in H.
    destruct (Qeq_bool q (inject_Z 25)) eqn:H25; [|reflexivity].
    apply Qeq_bool_iff in H25. unfold Qeq in *. simpl in *. lia.
Qed.

Lemma parse_snd_metadata_index (blocks : list Block) (m : record) (bi : Z) :
  parse_snd_metadata T blocks = Ok (Some (m, bi)) -> bi = 2 \/ bi = 3.
Proof.
  unfold parse_snd_metadata. cbv zeta.
  change (0 + 1 + 1 + 1) with 3. change (0 + 1 + 1) with 2. change (0 + 1) with 1.
  destruct (getitem blocks 0) as [b0|e]; simpl; [|discriminate].
  destruct (_parse_metadata_block b0 (first_block_mapping T)) as [fb|e]; simpl; [|discriminate].
  destruct (getitem blocks 1) as [b1|e]; simpl; [|destruct e; discriminate].
  destruct (_parse_metadata_block b1 (second_block_mapping T)) as [sb|e]; simpl;
    [|destruct e; discriminate].
  destruct (getitem blocks 2) as [b2|e]; simpl; [|discriminate].
  destruct (_is_data_block b2) as [[|]|e]; simpl; try discriminate.
  - intros H. inversion H. left. reflexivity.
  - destruct (_parse_metadata_block b2 (third_block_mapping T)) as [tb|e]; simpl;
      [|discriminate].
    intros H. inversion H. right. reflexivity.
Qed.

(** The scan only stops at a block that decodes as a CPT series. *)
Lemma parse_snd_data_block_break (blocks : list Block) (bi i : Z) (block : Block)
    (ds ds' : list series) :
  parse_snd_data_block T blocks bi i block ds = Ok (Break, ds') ->
  exists metadata data v,
    _parse_unknown_data_block T block = Ok (metadata, data)
    /\ metadata !! "survey_type_code" = Some v
    /\ eq_int v 7 = true.
Proof.
  unfold parse_snd_data_block.
  destruct (_parse_unknown_data_block T block) as [[metadata data]|e]; simpl; [|discriminate].
  unfold dict_get.
  destruct (metadata !! "survey_type_code") as [v|] eqn:Hv; simpl; [|discriminate].
  destruct (eq_int v 7) eqn:H7.
  - intros _. exists metadata, data, v. auto.
  - destruct (eq_int v 25); simpl; [|discriminate].
    destruct (_convert_comment_codes_to_indicator_columns T data); simpl; discriminate.
Qed.

Lemma scan_blocks_prefix (blocks : list Block) (bi : Z) (pre : list Block) :
  forall (i : Z) (rest : list Block) (ds : list series) (es : list error) ds' es',
    Forall (fun b => decodes_as_cpt T b = false) pre ->
    scan_blocks T blocks bi i pre ds es = Ok (ds', es') ->
    scan_blocks T blocks bi i (pre ++ rest) ds es
    = scan_blocks T blocks bi (i + Z.of_nat (length pre)) rest ds' es'.
Proof.
  induction pre as [|b pre IH]; intros i rest ds es ds' es' Hpre Hscan.
  - simpl in *. inversion Hscan; subst. rewrite Z.add_0_r. reflexivity.
  - apply Forall_cons in Hpre as [Hb Hpre].
    replace (i + Z.of_nat (length (b :: pre))) with (i + 1 + Z.of_nat (length pre))
      by (simpl length; lia).
    simpl in *.
    destruct (_is_data_block b) as [[|]|e] eqn:Hdata; simpl in *; try discriminate.
    + destruct (parse_snd_data_block T blocks bi i b ds) as [[[|] ds1]|e] eqn:Hblock.
      * apply IH; assumption.
      * exfalso. apply parse_snd_data_block_break in Hblock as (m & d & v & Hm & Hv & H7).
        unfold decodes_as_cpt in Hb. rewrite Hdata, Hm, Hv, H7 in Hb. discriminate.
      * destruct (is_ValueError e); [apply IH; assumption | discriminate].
    + apply IH; assumption.
Qed.

Lemma scan_blocks_cpt (blocks : list Block) (bi i : Z) (cpt : Block)
    (rest : list Block) (ds : list series) (es : list error)
    (metadata tm : record) (data : list record) (v : value) :
  _is_data_block cpt = Ok true ->
  _parse_unknown_data_block T cpt = Ok (metadata, data) ->
  metadata !! "survey_type_code" = Some v ->
  eq_int v 7 = true ->
  cpt_trailing_metadata T blocks (bi + i + 1) = Ok tm ->
  scan_blocks T blocks bi i (cpt :: rest) ds es
  = Ok (ds ++ [series_entry (dict_merge (<["type" := VStr "cpt"]> metadata) tm) data], es).
Proof.
  intros Hdata Hparse Hv H7 Htrail.
  simpl. rewrite Hdata. simpl.
  unfold parse_snd_data_block. rewrite Hparse. simpl.
  unfold dict_get. rewrite Hv. simpl.
  rewrite (eq_int_7_not_25 v H7), H7. simpl.
  rewrite Htrail. reflexivity.
Qed.

Lemma snd_result_lookup (metadata : record) (blocks : list series) (errors : list error) :
  snd_result metadata blocks errors !! "blocks" = Some (RSeries blocks)
  /\ snd_result metadata blocks errors !! "errors" = Some (RErrors errors).
Proof.
  unfold snd_result. split.
  - rewrite lookup_insert_ne by discriminate. apply lookup_insert_eq.
  - apply lookup_insert_eq.
Qed.

End Sound.

Lemma dict_merge_lookup {A} (d1 d2 : gmap string A) (k : string) :
  dict_merge d1 d2 !! k = match d2 !! k with
                          | Some v => Some v
                          | None => d1 !! k
                          end.
Proof.
  unfold dict_merge. rewrite lookup_union.
  destruct (d2 !! k), (d1 !! k); reflexivity.
Qed.

Lemma snd_result_holds (metadata : record) (blocks : list series) (errors : list error) :
  holds_snd_result metadata blocks errors (snd_result metadata blocks errors).
Proof.
  unfold holds_snd_result, snd_result. split; [|split; [|split]].
  - rewrite lookup_insert_ne by discriminate. apply lookup_insert_eq.
  - apply lookup_insert_eq.
  - intros k v Hk Hb He. rewrite !lookup_insert_ne by congruence.
    rewrite dict_merge_lookup, lookup_fmap, Hk. reflexivity.
  - intros Ht. rewrite !lookup_insert_ne by discriminate.
    rewrite dict_merge_lookup, lookup_fmap, Ht. reflexivity.
Qed.

Lemma series_entry_holds (metadata tm : record) (data : list record) :
  holds_cpt_series metadata tm data
    (series_entry (dict_merge (<["type" := VStr "cpt"]> metadata) tm) data).
Proof.
  unfold holds_cpt_series, series_entry. split; [|split; [|split; [|split]]].
  - apply lookup_insert_eq.
  - intros k v Hk Hd. rewrite lookup_insert_ne by congruence.
    rewrite lookup_fmap, dict_merge_lookup, Hk. reflexivity.
  - intros k v Hk Htm Hd Ht. rewrite lookup_insert_ne by congruence.
    rewrite lookup_fmap, dict_merge_lookup, Htm.
    rewrite lookup_insert_ne by congruence. rewrite Hk. reflexivity.
  - intros Htm. rewrite lookup_insert_ne by discriminate.
    rewrite lookup_fmap, dict_merge_lookup, Htm, lookup_insert_eq. reflexivity.
  - intros k Hk.
    destruct (decide (k = "data")) as [->|Hd]; [left; reflexivity|].
    destruct (decide (k = "type")) as [->|Ht]; [right; left; reflexivity|].
    right. right.
    rewrite lookup_insert_ne in Hk by congruence.
    rewrite lookup_fmap, dict_merge_lookup in Hk.
    destruct (tm !! k) as [v|]; [left; eauto|].
    rewrite lookup_insert_ne in Hk by congruence.
    destruct (metadata !! k) as [v|]; [right; eauto|].
    destruct Hk as [x Hx]. discriminate Hx.
Qed.

(** C2.  When the lines segment into fewer than three blocks,
    [parse_snd_file] returns a result with an empty list of series and
    one error.  When the leading metadata blocks are decoded and the
    blocks left to scan are [pre], then a block that decodes as a CPT
    series (survey code 7), then a block [trailing] that decodes under
    the table of the trailing metadata, then any blocks [more], and the
    scan goes through [pre] without stopping, the call returns a result
    that holds the metadata of the leading blocks, the errors found in
    [pre], and as series those found in [pre] and one entry for the CPT
    block.  This entry holds the rows of the CPT block under [data],
    every field of [trailing] under its name, the fields of the block's
    own metadata that [trailing] does not name, and the type [cpt]: the
    two blocks are merged into the one entry.  The result is the same
    whatever [more] is, since the scan stops there. *)
Theorem parse_snd_file_blocks (T : tables) (lines : list string) :
  ((length (_get_blocks lines) < 3)%nat ->
   exists r e,
     parse_snd_file T lines = Ok r
     /\ r !! "blocks" = Some (RSeries [])
     /\ r !! "errors" = Some (RErrors [e]))
  /\ (forall (snd_metadata : record) (block_index : Z) (pre : list Block)
         (cpt trailing : Block) (more : list Block) (ds : list series)
         (es : list error) (metadata tm : record) (data : list record) (v : value),
        (3 <= length (_get_blocks lines))%nat ->
        parse_snd_metadata T (_get_blocks lines) = Ok (Some (snd_metadata, block_index)) ->
        drop (Z.to_nat block_index) (_get_blocks lines) = pre ++ cpt :: trailing :: more ->
        Forall (fun b => decodes_as_cpt T b = false) pre ->
        scan_blocks T (_get_blocks lines) block_index 0 pre [] [] = Ok (ds, es) ->
        _is_data_block cpt = Ok true ->
        _parse_unknown_data_block T cpt = Ok (metadata, data) ->
        metadata !! "survey_type_code" = Some v ->
        eq_int v 7 = true ->
        _parse_metadata_block trailing (cpt_unknown_block_mapping T) = Ok tm ->
        exists r e,
          parse_snd_file T lines = Ok r
          /\ r = snd_result snd_metadata (ds ++ [e]) es
          /\ e = series_entry (dict_merge (<["type" := VStr "cpt"]> metadata) tm) data
          /\ holds_snd_result snd_metadata (ds ++ [e]) es r
          /\ holds_cpt_series metadata tm data e).
Proof.
  unfold parse_snd_file, parse_snd_file_min, parse_snd_blocks.
  split.
  - intros Hlen.
    replace (Z.of_nat (length (_get_blocks lines)) <? 3) with true
      by (symmetry; apply Z.ltb_lt; lia).
    eexists. eexists. split; [reflexivity|]. apply snd_result_lookup.
  - intros snd_metadata bi pre cpt trailing more ds es metadata tm data v
           Hlen Hmeta Hdrop Hpre Hscan Hdata Hparse Hv H7 Htm.
    replace (Z.of_nat (length (_get_blocks lines)) <? 3) with false
      by (symmetry; apply Z.ltb_ge; lia).
    rewrite Hmeta. simpl. rewrite Hdrop.
    rewrite (scan_blocks_prefix T _ bi pre 0 _ [] [] ds es Hpre Hscan).
    rewrite (scan_blocks_cpt T _ bi _ cpt _ ds es metadata tm data v Hdata Hparse Hv H7).
    + eexists. eexists. split; [reflexivity|]. split; [reflexivity|].
      split; [reflexivity|]. split; [apply snd_result_holds | apply series_entry_holds].
    + unfold cpt_trailing_metadata.
      assert (Hbi : 0 <= bi)
        by (destruct (parse_snd_metadata_index T _ _ _ Hmeta); lia).
      rewrite getitem_nonneg by lia.
      replace (Z.to_nat (bi + (0 + Z.of_nat (length pre)) + 1))
        with (Z.to_nat bi + (length pre + 1))%nat by lia.
      rewrite <- lookup_drop, Hdrop.
      rewrite lookup_app_r by lia.
      replace (length pre + 1 - length pre)%nat with 1%nat by lia.
      simpl. rewrite Htm. reflexivity.
Qed.

(** The theorem on two files for the sample tables: one of two blocks,
    and [sample_snd_lines], where a total sounding comes before the CPT
    series and another one after its trailing block.  The entry of the
    CPT series has the field [cpt_info] of the trailing block. *)
Lemma parse_snd_file_blocks_witness :
  let blocks := _get_blocks sample_snd_lines in
  let pre := [ ["25 01.02.2020"; "x"; "0.1 R1"; "0.2 R2"] ] in
  let cpt := ["7 01.02.2020"; "x"; " 1.0 2.0 3.0 4.0 hello world              5 6 7"] in
  let snd_metadata := match parse_snd_metadata sample_tables blocks with
                      | Ok (Some (m, _)) => m
                      | _ => ∅
                      end in
  let scanned := returned ([], []) (scan_blocks sample_tables blocks 3 0 pre [] []) in
  let decoded := returned (∅, []) (_parse_unknown_data_block sample_tables cpt) in
  let tm : gmap string value := {[ "cpt_info" := VStr "trailer" ]} in
  (exists r e,
     parse_snd_file sample_tables ["a"; "*"; "b"] = Ok r
     /\ r !! "blocks" = Some (RSeries [])
     /\ r !! "errors" = Some (RErrors [e]))
  /\ (exists r e,
        parse_snd_file sample_tables sample_snd_lines = Ok r
        /\ r = snd_result snd_metadata (scanned.1 ++ [e]) scanned.2
        /\ e = series_entry (dict_merge (<["type" := VStr "cpt"]> decoded.1) tm) decoded.2
        /\ holds_snd_result snd_metadata (scanned.1 ++ [e]) scanned.2 r
        /\ holds_cpt_series decoded.1 tm decoded.2 e).
Proof.
  intros blocks pre cpt snd_metadata scanned decoded tm.
  split.
  - apply (proj1 (parse_snd_file_blocks sample_tables ["a"; "*"; "b"])).
    vm_compute. lia.
  - apply (proj2 (parse_snd_file_blocks sample_tables sample_snd_lines)
             snd_metadata 3 pre cpt ["trailer"]
             [ ["25 01.02.2020"; "x"; "0.5 K1"] ]
             scanned.1 scanned.2 decoded.1 tm decoded.2 (VInt 7)).
    + vm_compute. lia.
    + vm_compute. reflexivity.
    + vm_compute. reflexivity.
    + apply Forall_cons. split; [vm_compute; reflexivity | apply Forall_nil; exact I].
    + apply returns_returned_pair. vm_compute. reflexivity.
    + vm_compute. reflexivity.
    + apply returns_returned_pair. vm_compute. reflexivity.
    + vm_compute. reflexivity.
    + reflexivity.
    + vm_compute. reflexivity.
Defined.

(** ** The "Annet" patch of the first line *)

Lemma append_cons (x : ascii) (a b : string) : String x a +:+ b = String x (a +:+ b).
Proof. reflexivity. Qed.

Lemma append_nil (b : string) : "" +:+ b = b.
Proof. reflexivity. Qed.

Lemma append_assoc (a b c : string) : (a +:+ b) +:+ c = a +:+ (b +:+ c).
Proof.
  induction a as [|x a IH]; [reflexivity|].
  rewrite !append_cons, IH. reflexivity.
Qed.

Lemma str_nonempty_append (p cur : string) :
  str_nonempty cur = true -> str_nonempty (p +:+ cur) = true.
Proof. destruct p; [rewrite append_nil; auto | reflexivity]. Qed.

(** A prefix put in front of a token under construction ends up in
    front of the first token of the outcome. *)
Lemma split_from_prefix (p : string) (s : string) : forall cur,
  str_nonempty cur = true ->
  exists t ts,
    split_from cur s = t :: ts /\ split_from (p +:+ cur) s = (p +:+ t) :: ts.
Proof.
  induction s as [|c s IH]; intros cur Hcur; simpl.
  - rewrite Hcur, (str_nonempty_append p cur Hcur). eauto.
  - destruct (isspace c).
    + rewrite Hcur, (str_nonempty_append p cur Hcur). eauto.
    + rewrite append_assoc. apply IH.
      destruct cur; [discriminate | reflexivity].
Qed.

(** When the first line starts with whitespace, the text [None] becomes
    a token of its own in front of the tokens of the line. *)
Lemma none_prefix_new_token (c : ascii) (line : string) :
  isspace c = true ->
  split ("None" +:+ String c line) = "None" :: split (String c line).
Proof.
  intros Hc. unfold split. rewrite !append_cons, append_nil. simpl.
  rewrite Hc. reflexivity.
Qed.

(** When the first line starts with another character, the text [None]
    is glued to the first token: the line has as many tokens as before
    and no field moves. *)
Lemma none_prefix_glued (c : ascii) (line : string) :
  isspace c = false ->
  exists t ts,
    split (String c line) = t :: ts
    /\ split ("None" +:+ String c line) = ("None" +:+ t) :: ts.
Proof.
  intros Hc. unfold split. rewrite !append_cons, append_nil. simpl.
  rewrite Hc. rewrite !append_nil.
  apply (split_from_prefix "None" line (String c "")). reflexivity.
Qed.

(** C6, at the failing input.  The first line [Leire Annet] ends in the
    token [Annet]; the patch returns the line [NoneLeire Annet], whose
    tokens are [NoneLeire] and [Annet]: no token is put in front, and
    with the sample table the field read from token 0 is [NoneLeire]
    and the field read from token 1 is still [Annet]. *)
Theorem add_empty_value_glues_first_token :
  let block := [ "Leire Annet"; "1.0"; "x" ] in
  _is_unknown_material block = Ok true
  /\ _add_empty_value_as_material_text_1 block = Ok [ "NoneLeire Annet"; "1.0"; "x" ]
  /\ split "Leire Annet" = [ "Leire"; "Annet" ]
  /\ split "NoneLeire Annet" = [ "NoneLeire"; "Annet" ]
  /\ (exists row,
        parse_tlk_block sample_tables block = Ok row
        /\ row !! "material_text_1" = Some (VStr "NoneLeire")
        /\ row !! "material_text_2" = Some (VStr "Annet")).
Proof.
  repeat split; try reflexivity.
  eexists. split; [vm_compute; reflexivity|]. split; vm_compute; reflexivity.
Qed.

(** ** The input list is left alone *)

Section Frame.

Lemma preserves_refl (h : gmap nat Store.object) : Store.preserves h h.
Proof. intros l o H. exact H. Qed.

Lemma preserves_trans (h1 h2 h3 : gmap nat Store.object) :
  Store.preserves h1 h2 -> Store.preserves h2 h3 -> Store.preserves h1 h3.
Proof. intros H12 H23 l o H. apply H23, H12, H. Qed.

(** A location that is free in the later store was free before. *)
Lemma preserves_free (h0 h : gmap nat Store.object) (l : nat) :
  Store.preserves h0 h -> h !! l = None -> h0 !! l = None.
Proof.
  intros Hp Hl. destruct (h0 !! l) as [o|] eqn:H0; [|reflexivity].
  apply Hp in H0. congruence.
Qed.

(** Writing to a location that was free at the start keeps what was
    there at the start. *)
Lemma preserves_write (h0 h : gmap nat Store.object) (l : nat) (o : Store.object) :
  Store.preserves h0 h -> h0 !! l = None -> Store.preserves h0 (<[l := o]> h).
Proof.
  intros Hp Hl k o' Hk.
  rewrite lookup_insert_ne; [apply Hp, Hk | intros ->; congruence].
Qed.

Lemma fresh_free (h : gmap nat Store.object) : h !! fresh (dom h) = None.
Proof. apply not_elem_of_dom. apply is_fresh. Qed.

Lemma preserves_alloc (h : gmap nat Store.object) (o : Store.object) :
  Store.preserves h (<[fresh (dom h) := o]> h).
Proof. apply preserves_write; [apply preserves_refl | apply fresh_free]. Qed.

Lemma owned_blocks_write (h0 h : gmap nat Store.object) (blocks cur : nat)
    (bs : list nat) (pbs : list Block) (l : nat) (o : Store.object) :
  Store.owned_blocks h0 h blocks cur bs pbs ->
  (l = cur \/ l = blocks) ->
  Store.owned_blocks h0 (<[l := o]> h) blocks cur bs pbs.
Proof.
  intros Hown Hl. unfold Store.owned_blocks in *.
  eapply Forall2_impl; [exact Hown|].
  intros b items (Hb & H0 & Hnb & Hnc). repeat split; auto.
  rewrite lookup_insert_ne; [exact Hb | destruct Hl; subst; auto].
Qed.

(** The loop of [_get_blocks] on the store does what the loop on
    values does, and writes only to lists made after [h0]. *)
Lemma get_blocks_loop_run (lines : list string) :
  forall (h0 h : gmap nat Store.object) (blocks cur : nat)
         (bs : list nat) (pbs : list Block) (pcur : Block),
    Store.preserves h0 h ->
    h0 !! blocks = None -> h0 !! cur = None -> blocks <> cur ->
    h !! blocks = Some (Store.Blocks bs) ->
    h !! cur = Some (Store.Lines pcur) ->
    Store.owned_blocks h0 h blocks cur bs pbs ->
    exists h' cur' bs',
      Store._get_blocks_loop lines blocks cur h = (Ok cur', h')
      /\ Store.preserves h0 h'
      /\ h0 !! cur' = None /\ blocks <> cur'
      /\ h' !! blocks = Some (Store.Blocks bs')
      /\ h' !! cur' = Some (Store.Lines (snd (_get_blocks_loop lines pbs pcur)))
      /\ Store.owned_blocks h0 h' blocks cur' bs' (fst (_get_blocks_loop lines pbs pcur)).
Proof.
  induction lines as [|line rest IH];
    intros h0 h blocks cur bs pbs pcur Hp H0b H0c Hne Hb Hc Hown.
  - exists h, cur, bs. simpl. unfold Store.ret. auto 10.
  - simpl. destruct (String.eqb line "*").
    + unfold Store.bind at 1. unfold Store.append_block. rewrite Hb.
      unfold Store.bind at 1. unfold Store.alloc at 1. cbv zeta.
      set (h1 := <[blocks := Store.Blocks (bs ++ [cur])]> h).
      set (c' := fresh (dom h1)).
      assert (Hc'1 : h1 !! c' = None) by apply fresh_free.
      assert (Hc' : h !! c' = None).
      { subst h1. destruct (decide (blocks = c')) as [<-|Hn].
        - rewrite lookup_insert_eq in Hc'1. discriminate.
        - rewrite lookup_insert_ne in Hc'1 by exact Hn. exact Hc'1. }
      assert (Hbc' : blocks <> c') by (intros <-; congruence).
      assert (Hcc' : cur <> c') by (intros <-; congruence).
      apply (IH h0 _ blocks c' (bs ++ [cur]) (pbs ++ [pcur]) []).
      * apply preserves_write; [apply preserves_write; assumption|].
        eapply preserves_free; eassumption.
      * exact H0b.
      * eapply preserves_free; eassumption.
      * exact Hbc'.
      * rewrite lookup_insert_ne by auto. subst h1. apply lookup_insert_eq.
      * apply lookup_insert_eq.
      * unfold Store.owned_blocks. apply Forall2_app.
        -- eapply Forall2_impl; [exact Hown|].
           intros b items (Hb1 & H01 & Hnb & Hnc). repeat split; auto.
           ++ rewrite lookup_insert_ne by (intros <-; congruence).
              subst h1. rewrite lookup_insert_ne by auto. exact Hb1.
           ++ intros ->. congruence.
        -- constructor; [|constructor]. repeat split; auto.
           rewrite lookup_insert_ne by auto.
           subst h1. rewrite lookup_insert_ne by auto. exact Hc.
    + unfold Store.bind at 1. unfold Store.append_line. rewrite Hc.
      apply (IH h0 _ blocks cur bs pbs (pcur ++ [line])); auto.
      * apply preserves_write; assumption.
      * rewrite lookup_insert_ne by auto. exact Hb.
      * apply lookup_insert_eq.
      * apply owned_blocks_write; auto.
Qed.

Lemma hold_preserves (h h' : gmap nat Store.object) bs pbs :
  Store.preserves h h' -> hold h bs pbs -> hold h' bs pbs.
Proof.
  intros Hp Hh. eapply Forall2_impl; [exact Hh|].
  intros b items Hb. apply Hp, Hb.
Qed.

Lemma owned_blocks_hold h0 h blocks cur bs pbs :
  Store.owned_blocks h0 h blocks cur bs pbs -> hold h bs pbs.
Proof.
  intros Ho. eapply Forall2_impl; [exact Ho|]. intros b items (Hb & _). exact Hb.
Qed.

Lemma keep_nonempty_run (h : gmap nat Store.object) (bs : list nat) (pbs : list Block) :
  hold h bs pbs ->
  exists kept,
    Store.keep_nonempty bs h = (Ok kept, h)
    /\ hold h kept (List.filter nonempty pbs).
Proof.
  induction 1 as [|b items bs pbs Hb Hrest (kept & Hrun & Hkept)].
  - exists []. split; [reflexivity | constructor].
  - simpl. unfold Store.bind at 1. unfold Store.read_lines. rewrite Hb.
    unfold Store.bind at 1. rewrite Hrun. unfold Store.ret.
    destruct (nonempty items).
    + exists (b :: kept). split; [reflexivity | constructor; assumption].
    + exists kept. split; [reflexivity | assumption].
Qed.

Lemma read_each_run (h : gmap nat Store.object) (bs : list nat) (pbs : list Block) :
  hold h bs pbs -> Store.read_each bs h = (Ok pbs, h).
Proof.
  induction 1 as [|b items bs pbs Hb Hrest Hrun]; [reflexivity|].
  simpl. unfold Store.bind at 1. unfold Store.read_lines. rewrite Hb.
  unfold Store.bind at 1. rewrite Hrun. reflexivity.
Qed.

(** [_get_blocks] on the store returns a new list of blocks that hold
    what [_get_blocks] on values returns, and keeps the store it was
    given. *)
Lemma get_blocks_run (h : gmap nat Store.object) (a : nat) (ls : list string) :
  h !! a = Some (Store.Lines ls) ->
  exists r h' bs,
    Store._get_blocks a h = (Ok r, h')
    /\ Store.preserves h h'
    /\ h' !! r = Some (Store.Blocks bs)
    /\ hold h' bs (_get_blocks ls).
Proof.
  intros Ha. unfold Store._get_blocks.
  unfold Store.bind at 1. unfold Store.alloc at 1. cbv zeta.
  set (blocks := fresh (dom h)).
  set (h1 := <[blocks := Store.Blocks []]> h).
  unfold Store.bind at 1. unfold Store.alloc at 1. cbv zeta.
  set (cur := fresh (dom h1)).
  set (h2 := <[cur := Store.Lines []]> h1).
  assert (H0b : h !! blocks = None) by apply fresh_free.
  assert (H1c : h1 !! cur = None) by apply fresh_free.
  assert (Hp1 : Store.preserves h h1) by apply preserves_alloc.
  assert (H0c : h !! cur = None) by (eapply preserves_free; eassumption).
  assert (Hne : blocks <> cur).
  { intros Heq. rewrite <- Heq in H1c. subst h1.
    rewrite lookup_insert_eq in H1c. discriminate. }
  assert (Hp2 : Store.preserves h h2) by (apply preserves_write; assumption).
  unfold Store.bind at 1. unfold Store.read_lines at 1.
  rewrite (Hp2 _ _ Ha).
  destruct (get_blocks_loop_run ls h h2 blocks cur [] [] [])
    as (h3 & cur' & bs' & Hrun & Hp3 & H0c' & Hne' & Hb3 & Hc3 & Hown); auto.
  { subst h2. rewrite lookup_insert_ne by auto. subst h1. apply lookup_insert_eq. }
  { subst h2. apply lookup_insert_eq. }
  { constructor. }
  unfold Store.bind at 1. rewrite Hrun.
  unfold Store.bind at 1. unfold Store.read_lines at 1. rewrite Hc3.
  unfold _get_blocks.
  destruct (_get_blocks_loop ls [] []) as [pbs pcur]. simpl in Hc3, Hown.
  cbn [fst snd].
  assert (Hfinal : exists h4 bs4,
             (if nonempty pcur then Store.append_block blocks cur' else Store.ret tt) h3
             = (Ok tt, h4)
             /\ Store.preserves h h4
             /\ h4 !! blocks = Some (Store.Blocks bs4)
             /\ hold h4 bs4 (if nonempty pcur then pbs ++ [pcur] else pbs)).
  { destruct (nonempty pcur).
    - exists (<[blocks := Store.Blocks (bs' ++ [cur'])]> h3), (bs' ++ [cur']).
      unfold Store.append_block. rewrite Hb3.
      split; [reflexivity|]. split; [apply preserves_write; assumption|].
      split; [apply lookup_insert_eq|].
      apply Forall2_app.
      + apply owned_blocks_hold with (h0 := h) (blocks := blocks) (cur := cur').
        apply owned_blocks_write; auto.
      + constructor; [|constructor].
        rewrite lookup_insert_ne by auto. exact Hc3.
    - exists h3, bs'. split; [reflexivity|]. split; [assumption|].
      split; [assumption|]. eapply owned_blocks_hold; eassumption. }
  destruct Hfinal as (h4 & bs4 & Hrun4 & Hp4 & Hb4 & Hhold4).
  unfold Store.bind at 1. rewrite Hrun4.
  unfold Store.bind at 1. unfold Store.read_blocks at 1. rewrite Hb4.
  destruct (keep_nonempty_run h4 bs4 _ Hhold4) as (kept & Hkeep & Hkept).
  unfold Store.bind at 1. rewrite Hkeep.
  unfold Store.alloc. cbv zeta.
  exists (fresh (dom h4)), (<[fresh (dom h4) := Store.Blocks kept]> h4), kept.
  split; [reflexivity|].
  split; [eapply preserves_trans; [exact Hp4 | apply preserves_alloc]|].
  split; [apply lookup_insert_eq|].
  eapply hold_preserves; [apply preserves_alloc | exact Hkept].
Qed.

(** The loop of [_split_tlk_to_blocks] on the store. *)
Lemma split_tlk_loop_run (lines : list string) :
  forall (h0 h : gmap nat Store.object) (blocks cur : nat)
         (bs : list nat) (pbs : list Block) (pcur : Block) (c : Z),
    Store.preserves h0 h ->
    h0 !! blocks = None -> h0 !! cur = None -> blocks <> cur ->
    h !! blocks = Some (Store.Blocks bs) ->
    h !! cur = Some (Store.Lines pcur) ->
    Store.owned_blocks h0 h blocks cur bs pbs ->
    exists h' cur' bs',
      Store._split_tlk_loop lines blocks cur c h = (Ok cur', h')
      /\ Store.preserves h0 h'
      /\ h0 !! cur' = None /\ blocks <> cur'
      /\ h' !! blocks = Some (Store.Blocks bs')
      /\ h' !! cur' = Some (Store.Lines (snd (_split_tlk_loop lines pbs pcur c)))
      /\ Store.owned_blocks h0 h' blocks cur' bs' (fst (_split_tlk_loop lines pbs pcur c)).
Proof.
  induction lines as [|line rest IH];
    intros h0 h blocks cur bs pbs pcur c Hp H0b H0c Hne Hb Hc Hown.
  - exists h, cur, bs. simpl. unfold Store.ret. auto 10.
  - simpl. destruct (String.eqb line "*").
    + exists h, cur, bs. simpl. unfold Store.ret. auto 10.
    + destruct (c =? 3).
      * unfold Store.bind at 1. unfold Store.append_block. rewrite Hb.
        unfold Store.bind at 1. unfold Store.alloc at 1. cbv zeta.
        set (h1 := <[blocks := Store.Blocks (bs ++ [cur])]> h).
        set (c' := fresh (dom h1)).
        assert (Hc'1 : h1 !! c' = None) by apply fresh_free.
        assert (Hc' : h !! c' = None).
        { subst h1. destruct (decide (blocks = c')) as [<-|Hn].
          - rewrite lookup_insert_eq in Hc'1. discriminate.
          - rewrite lookup_insert_ne in Hc'1 by exact Hn. exact Hc'1. }
        assert (Hbc' : blocks <> c') by (intros <-; congruence).
        assert (Hcc' : cur <> c') by (intros <-; congruence).
        unfold Store.bind at 1. unfold Store.append_line at 1.
        rewrite lookup_insert_eq. rewrite insert_insert_eq.
        apply (IH h0 _ blocks c' (bs ++ [cur]) (pbs ++ [pcur]) [line] 1).
        -- apply preserves_write; [apply preserves_write; assumption|].
           eapply preserves_free; eassumption.
        -- exact H0b.
        -- eapply preserves_free; eassumption.
        -- exact Hbc'.
        -- rewrite lookup_insert_ne by auto. subst h1. apply lookup_insert_eq.
        -- apply lookup_insert_eq.
        -- unfold Store.owned_blocks. apply Forall2_app.
           ++ eapply Forall2_impl; [exact Hown|].
              intros b items (Hb1 & H01 & Hnb & Hnc). repeat split; auto.
              ** rewrite lookup_insert_ne by (intros <-; congruence).
                 subst h1. rewrite lookup_insert_ne by auto. exact Hb1.
              ** intros ->. congruence.
           ++ constructor; [|constructor]. repeat split; auto.
              rewrite lookup_insert_ne by auto.
              subst h1. rewrite lookup_insert_ne by auto. exact Hc.
      * unfold Store.bind at 1. unfold Store.append_line. rewrite Hc.
        apply (IH h0 _ blocks cur bs pbs (pcur ++ [line]) (c + 1)); auto.
        -- apply preserves_write; assumption.
        -- rewrite lookup_insert_ne by auto. exact Hb.
        -- apply lookup_insert_eq.
        -- apply owned_blocks_write; auto.
Qed.

Lemma split_tlk_to_blocks_run (h : gmap nat Store.object) (a : nat) (ls : list string) :
  h !! a = Some (Store.Lines ls) ->
  exists r h' bs,
    Store._split_tlk_to_blocks a h = (Ok r, h')
    /\ Store.preserves h h'
    /\ h' !! r = Some (Store.Blocks bs)
    /\ hold h' bs (_split_tlk_to_blocks ls).
Proof.
  intros Ha. unfold Store._split_tlk_to_blocks.
  unfold Store.bind at 1. unfold Store.alloc at 1. cbv zeta.
  set (blocks := fresh (dom h)).
  set (h1 := <[blocks := Store.Blocks []]> h).
  unfold Store.bind at 1. unfold Store.alloc at 1. cbv zeta.
  set (cur := fresh (dom h1)).
  set (h2 := <[cur := Store.Lines []]> h1).
  assert (H0b : h !! blocks = None) by apply fresh_free.
  assert (H1c : h1 !! cur = None) by apply fresh_free.
  assert (Hp1 : Store.preserves h h1) by apply preserves_alloc.
  assert (H0c : h !! cur = None) by (eapply preserves_free; eassumption).
  assert (Hne : blocks <> cur).
  { intros Heq. rewrite <- Heq in H1c. subst h1.
    rewrite lookup_insert_eq in H1c. discriminate. }
  assert (Hp2 : Store.preserves h h2) by (apply preserves_write; assumption).
  unfold Store.bind at 1. unfold Store.read_lines at 1.
  rewrite (Hp2 _ _ Ha).
  destruct (split_tlk_loop_run ls h h2 blocks cur [] [] [] 0)
    as (h3 & cur' & bs' & Hrun & Hp3 & H0c' & Hne' & Hb3 & Hc3 & Hown); auto.
  { subst h2. rewrite lookup_insert_ne by auto. subst h1. apply lookup_insert_eq. }
  { subst h2. apply lookup_insert_eq. }
  { constructor. }
  unfold Store.bind at 1. rewrite Hrun.
  unfold Store.bind at 1. unfold Store.append_block at 1. rewrite Hb3.
  unfold Store.ret. unfold _split_tlk_to_blocks.
  destruct (_split_tlk_loop ls [] [] 0) as [pbs pcur]. simpl in Hc3, Hown.
  exists blocks, (<[blocks := Store.Blocks (bs' ++ [cur'])]> h3), (bs' ++ [cur']).
  split; [reflexivity|]. split; [apply preserves_write; assumption|].
  split; [apply lookup_insert_eq|].
  apply Forall2_app.
  - apply owned_blocks_hold with (h0 := h) (blocks := blocks) (cur := cur').
    apply owned_blocks_write; auto.
  - constructor; [|constructor].
    rewrite lookup_insert_ne by auto. exact Hc3.
Qed.

Section Orchestrators.

Variable T : tables.

(** The patch writes to a copy of the block. *)
Lemma add_empty_value_run (h : gmap nat Store.object) (b : nat) (items : Block) :
  h !! b = Some (Store.Lines items) ->
  exists h',
    Store.preserves h h'
    /\ match _add_empty_value_as_material_text_1 items with
       | Ok patched =>
           exists t, Store._add_empty_value_as_material_text_1 b h = (Ok t, h')
                     /\ h' !! t = Some (Store.Lines patched)
       | Raise e => Store._add_empty_value_as_material_text_1 b h = (Raise e, h')
       end.
Proof.
  intros Hb.
  assert (Hrun : Store._add_empty_value_as_material_text_1 b h
                 = match items with
                   | [] => (Raise IndexError, <[fresh (dom h) := Store.Lines []]> h)
                   | first_line :: others =>
                       (Ok (fresh (dom h)),
                        <[fresh (dom h) :=
                            Store.Lines (("None" +:+ first_line) :: others)]> h)
                   end).
  { unfold Store._add_empty_value_as_material_text_1, Store.copy_lines,
      Store.bind, Store.read_lines, Store.alloc, Store.lift, Store.set_line0,
      Store.ret.
    cbv beta zeta. rewrite Hb. cbv beta iota. rewrite lookup_insert_eq.
    destruct items as [|first_line others]; [reflexivity|].
    rewrite getitem_0. cbv beta iota. rewrite lookup_insert_eq.
    rewrite insert_insert_eq. reflexivity. }
  rewrite Hrun. unfold _add_empty_value_as_material_text_1.
  destruct items as [|first_line others].
  - exists (<[fresh (dom h) := Store.Lines []]> h).
    split; [apply preserves_alloc | reflexivity].
  - rewrite getitem_0. simpl.
    exists (<[fresh (dom h) := Store.Lines (("None" +:+ first_line) :: others)]> h).
    split; [apply preserves_alloc|].
    exists (fresh (dom h)). split; [reflexivity | apply lookup_insert_eq].
Qed.

Lemma parse_tlk_block_run (h : gmap nat Store.object) (b : nat) (items : Block) :
  h !! b = Some (Store.Lines items) ->
  exists h',
    Store.parse_tlk_block T b h = (parse_tlk_block T items, h')
    /\ Store.preserves h h'.
Proof.
  intros Hb. unfold Store.parse_tlk_block, parse_tlk_block.
  unfold Store.bind at 1. unfold Store.read_lines at 1. rewrite Hb.
  unfold Store.bind at 1. unfold Store.lift at 1.
  destruct (_is_unknown_material items) as [[|]|e]; simpl.
  - destruct (add_empty_value_run h b items Hb) as (h' & Hp & Hrun).
    destruct (_add_empty_value_as_material_text_1 items) as [patched|e]; simpl.
    + destruct Hrun as (t & Hrun & Ht).
      unfold Store.bind at 1. rewrite Hrun.
      unfold Store.bind at 1. unfold Store.read_lines. rewrite Ht.
      unfold Store.lift. exists h'. split; [reflexivity | assumption].
    + unfold Store.bind at 1. rewrite Hrun.
      exists h'. split; [reflexivity | assumption].
  - unfold Store.bind at 1. unfold Store.ret.
    unfold Store.bind at 1. unfold Store.read_lines. rewrite Hb.
    unfold Store.lift. exists h. split; [reflexivity | apply preserves_refl].
  - exists h. split; [reflexivity | apply preserves_refl].
Qed.

Lemma parse_tlk_blocks_run (bs : list nat) (pbs : list Block) :
  forall (h : gmap nat Store.object) (rows : list record) (errors : list error),
    hold h bs pbs ->
    exists h',
      Store.parse_tlk_blocks T bs rows errors h
      = (Ok (parse_tlk_blocks T pbs rows errors), h')
      /\ Store.preserves h h'.
Proof.
  revert pbs. induction bs as [|b bs IH]; intros pbs h rows errors Hhold.
  - inversion Hhold; subst. exists h. split; [reflexivity | apply preserves_refl].
  - inversion Hhold as [|? items ? pbs' Hb Hrest]; subst.
    destruct (parse_tlk_block_run h b items Hb) as (h1 & Hrun & Hp1).
    simpl. rewrite Hrun.
    destruct (parse_tlk_block T items) as [row|e].
    + destruct (IH pbs' h1 (rows ++ [row]) errors (hold_preserves _ _ _ _ Hp1 Hrest))
        as (h2 & Hrun2 & Hp2).
      exists h2. split; [exact Hrun2 | eapply preserves_trans; eassumption].
    + destruct (IH pbs' h1 rows (errors ++ [ErrStr e]) (hold_preserves _ _ _ _ Hp1 Hrest))
        as (h2 & Hrun2 & Hp2).
      exists h2. split; [exact Hrun2 | eapply preserves_trans; eassumption].
Qed.

(** Each entry point on the store returns what the entry point on
    values returns, and keeps every object of the store. *)
Lemma parse_tlk_file_run (h : gmap nat Store.object) (a : nat) (ls : list string) :
  h !! a = Some (Store.Lines ls) ->
  exists h',
    Store.parse_tlk_file T a h = (parse_tlk_file T ls, h')
    /\ Store.preserves h h'.
Proof.
  intros Ha. unfold Store.parse_tlk_file, parse_tlk_file.
  unfold Store.bind at 1. unfold Store.read_lines at 1. rewrite Ha.
  destruct (negb (nonempty ls)).
  - exists h. split; [reflexivity | apply preserves_refl].
  - destruct (split_tlk_to_blocks_run h a ls Ha) as (r & h1 & bs & Hrun & Hp1 & Hr & Hhold).
    unfold Store.bind at 1. rewrite Hrun.
    unfold Store.bind at 1. unfold Store.read_blocks at 1. rewrite Hr.
    destruct (parse_tlk_blocks_run bs _ h1 [] [] Hhold) as (h2 & Hrun2 & Hp2).
    unfold Store.bind at 1. rewrite Hrun2.
    destruct (parse_tlk_blocks T (_split_tlk_to_blocks ls) [] []) as [rows errors].
    exists h2. split; [reflexivity | eapply preserves_trans; eassumption].
Qed.

Lemma contents_run (h : gmap nat Store.object) (r : nat) (bs : list nat)
    (pbs : list Block) :
  h !! r = Some (Store.Blocks bs) -> hold h bs pbs ->
  Store.contents r h = (Ok pbs, h).
Proof.
  intros Hr Hhold. unfold Store.contents.
  unfold Store.bind at 1. unfold Store.read_blocks. rewrite Hr.
  apply read_each_run. exact Hhold.
Qed.

Lemma parse_snd_file_run (h : gmap nat Store.object) (a : nat) (ls : list string) :
  h !! a = Some (Store.Lines ls) ->
  exists h',
    Store.parse_snd_file T a h = (parse_snd_file T ls, h')
    /\ Store.preserves h h'.
Proof.
  intros Ha. unfold Store.parse_snd_file.
  destruct (get_blocks_run h a ls Ha) as (r & h1 & bs & Hrun & Hp1 & Hr & Hhold).
  unfold Store.bind at 1. rewrite Hrun.
  unfold Store.bind at 1. rewrite (contents_run h1 r bs _ Hr Hhold).
  exists h1. split; [reflexivity | assumption].
Qed.

Lemma parse_prv_file_run (h : gmap nat Store.object) (a : nat) (ls : list string) :
  h !! a = Some (Store.Lines ls) ->
  exists h',
    Store.parse_prv_file T a h = (parse_prv_file T ls, h')
    /\ Store.preserves h h'.
Proof.
  intros Ha. unfold Store.parse_prv_file.
  destruct (get_blocks_run h a ls Ha) as (r & h1 & bs & Hrun & Hp1 & Hr & Hhold).
  unfold Store.bind at 1. rewrite Hrun.
  unfold Store.bind at 1. rewrite (contents_run h1 r bs _ Hr Hhold).
  exists h1. split; [reflexivity | assumption].
Qed.

End Orchestrators.

End Frame.

(** C10.  The input is a list object of the caller's store.  After a
    call of [parse_snd_file], [parse_tlk_file] or [parse_prv_file] on
    it, whether the call returns or raises, the store still has the
    input list with the same lines, and every other object it had
    before: the segmenters write to lists that they make, and the patch
    of an "Annet" block writes to a copy of the block. *)
Theorem entry_points_keep_input (T : tables) (h : gmap nat Store.object)
    (lines : nat) (items : list string) :
  h !! lines = Some (Store.Lines items) ->
  (snd (Store.parse_snd_file T lines h) !! lines = Some (Store.Lines items)
   /\ Store.preserves h (snd (Store.parse_snd_file T lines h)))
  /\ (snd (Store.parse_tlk_file T lines h) !! lines = Some (Store.Lines items)
      /\ Store.preserves h (snd (Store.parse_tlk_file T lines h)))
  /\ (snd (Store.parse_prv_file T lines h) !! lines = Some (Store.Lines items)
      /\ Store.preserves h (snd (Store.parse_prv_file T lines h))).
Proof.
  intros Ha.
  destruct (parse_snd_file_run T h lines items Ha) as (h1 & E1 & P1).
  destruct (parse_tlk_file_run T h lines items Ha) as (h2 & E2 & P2).
  destruct (parse_prv_file_run T h lines items Ha) as (h3 & E3 & P3).
  rewrite E1, E2, E3. simpl. auto 10.
Qed.

(** The theorem on a store that holds an interpretation file with an
    "Annet" block. *)
Lemma entry_points_keep_input_witness :
  let items := [ "Leire Annet"; "1.0"; "x"; " Annet"; "2.0"; "y"; "*" ] in
  let h : gmap nat Store.object := {[ 0%nat := Store.Lines items ]} in
  (snd (Store.parse_snd_file sample_tables 0%nat h) !! 0%nat = Some (Store.Lines items)
   /\ Store.preserves h (snd (Store.parse_snd_file sample_tables 0%nat h)))
  /\ (snd (Store.parse_tlk_file sample_tables 0%nat h) !! 0%nat = Some (Store.Lines items)
      /\ Store.preserves h (snd (Store.parse_tlk_file sample_tables 0%nat h)))
  /\ (snd (Store.parse_prv_file sample_tables 0%nat h) !! 0%nat = Some (Store.Lines items)
      /\ Store.preserves h (snd (Store.parse_prv_file sample_tables 0%nat h))).
Proof.
  intros items h.
  apply (entry_points_keep_input sample_tables h 0%nat items).
  reflexivity.
Defined.

(** ** Sentinel-delimited segmenter *)

Lemma _get_blocks_loop_app (a l : list string) : forall blocks cur,
  _get_blocks_loop (a ++ l) blocks cur
  = _get_blocks_loop l (fst (_get_blocks_loop a blocks cur))
                       (snd (_get_blocks_loop a blocks cur)).
Proof.
  induction a as [|x a IH]; intros blocks cur; [reflexivity|].
  simpl. destruct (String.eqb x "*"); apply IH.
Qed.

Lemma _get_blocks_loop_acc (lines : list string) : forall blocks cur,
  _get_blocks_loop lines blocks cur
  = (blocks ++ fst (_get_blocks_loop lines [] cur), snd (_get_blocks_loop lines [] cur)).
Proof.
  induction lines as [|x lines IH]; intros blocks cur; simpl.
  - rewrite app_nil_r. reflexivity.
  - destruct (String.eqb x "*").
    + rewrite (IH (blocks ++ [cur])), (IH ([] ++ [cur])). simpl.
      rewrite <- app_assoc. reflexivity.
    + apply IH.
Qed.

Lemma _get_blocks_loop_inv (lines : list string) : forall blocks cur,
  Forall (fun b => Forall (fun l => String.eqb l "*" = false) b) blocks ->
  Forall (fun l => String.eqb l "*" = false) cur ->
  Forall (fun b => Forall (fun l => String.eqb l "*" = false) b)
         (fst (_get_blocks_loop lines blocks cur))
  /\ Forall (fun l => String.eqb l "*" = false) (snd (_get_blocks_loop lines blocks cur))
  /\ concat (fst (_get_blocks_loop lines blocks cur)) ++ snd (_get_blocks_loop lines blocks cur)
     = concat blocks ++ cur ++ List.filter (fun l => negb (String.eqb l "*")) lines.
Proof.
  induction lines as [|x lines IH]; intros blocks cur Hb Hc; simpl.
  - rewrite app_nil_r. auto.
  - destruct (String.eqb x "*") eqn:Hx; simpl.
    + destruct (IH (blocks ++ [cur]) []) as (H1 & H2 & H3).
      * apply Forall_app. split; [exact Hb | constructor; [exact Hc | constructor]].
      * constructor.
      * split; [exact H1|]. split; [exact H2|].
        etransitivity; [exact H3|].
        rewrite concat_app. simpl. rewrite app_nil_r, <- app_assoc. reflexivity.
    + destruct (IH blocks (cur ++ [x])) as (H1 & H2 & H3).
      * exact Hb.
      * apply Forall_app. split; [exact Hc | constructor; [exact Hx | constructor]].
      * split; [exact H1|]. split; [exact H2|].
        etransitivity; [exact H3|].
        rewrite <- !app_assoc. reflexivity.
Qed.

Lemma concat_filter_nonempty {A} (l : list (list A)) :
  concat (List.filter nonempty l) = concat l.
Proof.
  induction l as [|b l IH]; [reflexivity|].
  simpl. destruct b; simpl; [exact IH | rewrite IH; reflexivity].
Qed.

(** X1.  Every block that [_get_blocks] returns has at least one line,
    and no line of a block is the asterisk line: the separators are
    dropped, and so are the empty groups between two of them. *)
Theorem get_blocks_blocks_nonempty_without_asterisk (lines : list string) :
  Forall (fun b : Block => b <> [] /\ Forall (fun l => l <> "*") b) (_get_blocks lines).
Proof.
  unfold _get_blocks.
  destruct (_get_blocks_loop_inv lines (@nil Block) (@nil string)) as (H1 & H2 & _); [constructor | constructor |].
  destruct (_get_blocks_loop lines [] []) as [blocks cur] eqn:E. simpl in H1, H2.
  assert (Hall : Forall (fun b => Forall (fun l => String.eqb l "*" = false) b)
                        (if nonempty cur then blocks ++ [cur] else blocks)).
  { destruct (nonempty cur); [|exact H1].
    apply Forall_app. split; [exact H1 | constructor; [exact H2 | constructor]]. }
  apply List.Forall_forall. intros b Hb. apply filter_In in Hb as [Hin Hne].
  split; [destruct b; [discriminate | discriminate]|].
  rewrite List.Forall_forall in Hall. specialize (Hall b Hin).
  eapply Forall_impl; [exact Hall|].
  intros l Hl ->. discriminate Hl.
Qed.

(** X2.  [_get_blocks] loses no line and keeps the order: the lines of
    the blocks, one block after the other, are the lines of the file
    without the asterisk lines. *)
Theorem get_blocks_concat (lines : list string) :
  concat (_get_blocks lines) = List.filter (fun l => negb (String.eqb l "*")) lines.
Proof.
  unfold _get_blocks.
  destruct (_get_blocks_loop_inv lines (@nil Block) (@nil string)) as (_ & _ & H3); [constructor | constructor |].
  destruct (_get_blocks_loop lines [] []) as [blocks cur] eqn:E. simpl in H3.
  rewrite concat_filter_nonempty.
  destruct cur as [|x cur]; simpl.
  - rewrite app_nil_r in H3. exact H3.
  - rewrite concat_app. simpl. rewrite app_nil_r. exact H3.
Qed.

(** X3.  An asterisk line cuts the file in two parts that are
    segmented apart: the blocks of the file are the blocks of the lines
    in front of it, then the blocks of the lines behind it. *)
Theorem get_blocks_app (a b : list string) :
  _get_blocks (a ++ "*" :: b) = _get_blocks a ++ _get_blocks b.
Proof.
  unfold _get_blocks.
  rewrite _get_blocks_loop_app.
  destruct (_get_blocks_loop a [] []) as [Ba ca]. simpl.
  rewrite _get_blocks_loop_acc.
  destruct (_get_blocks_loop b [] []) as [Bb cb]. simpl.
  destruct (nonempty cb); destruct ca as [|x ca]; simpl;
    repeat (rewrite List.filter_app; simpl);
    repeat rewrite <- app_assoc; simpl; rewrite ?app_nil_r; reflexivity.
Qed.

(** ** Fixed-arity segmenter *)

Lemma _split_tlk_loop_before (lines : list string) : forall blocks block c,
  _split_tlk_loop lines blocks block c
  = _split_tlk_loop (before_asterisk lines) blocks block c.
Proof.
  induction lines as [|x lines IH]; intros blocks block c; [reflexivity|].
  simpl. destruct (String.eqb x "*") eqn:Hx; [reflexivity|].
  simpl. rewrite Hx. destruct (c =? 3); apply IH.
Qed.

(** X4.  [_split_tlk_to_blocks] never looks behind the first asterisk
    line: the result is that of the lines in front of it. *)
Theorem split_tlk_ignores_after_asterisk (lines : list string) :
  _split_tlk_to_blocks lines = _split_tlk_to_blocks (before_asterisk lines).
Proof. unfold _split_tlk_to_blocks. rewrite _split_tlk_loop_before. reflexivity. Qed.

Lemma length_concat_threes (full : list Block) :
  Forall (fun b => length b = 3%nat) full ->
  length (concat full) = (3 * length full)%nat.
Proof.
  induction 1 as [|b full Hb _ IH]; [reflexivity|].
  simpl. rewrite length_app, Hb, IH. lia.
Qed.

(** X5.  When the number of lines in front of the first asterisk line
    is [3 * k] with [k >= 1], [_split_tlk_to_blocks] returns [k] blocks
    of three lines each, which hold these lines in order; no empty or
    partial block is added. *)
Theorem split_tlk_regular_file (lines : list string) (k : nat) :
  (1 <= k)%nat ->
  length (before_asterisk lines) = (3 * k)%nat ->
  length (_split_tlk_to_blocks lines) = k
  /\ Forall (fun b : Block => length b = 3%nat) (_split_tlk_to_blocks lines)
  /\ concat (_split_tlk_to_blocks lines) = before_asterisk lines.
Proof.
  intros Hk Hlen. unfold _split_tlk_to_blocks.
  destruct (_split_tlk_loop_spec lines [] [] 0)
    as (full & final & Heq & Hfull & Hcat & Hfin & Hnil); [reflexivity | simpl; lia |].
  rewrite Heq. simpl in Hcat. simpl app.
  assert (Hl : (length (concat full) + length final = 3 * k)%nat)
    by (rewrite <- Hlen, <- Hcat, length_app; reflexivity).
  rewrite (length_concat_threes full Hfull) in Hl.
  assert (Hne : final <> []).
  { intros Hf. destruct (Hnil Hf) as [_ ->]. subst final. simpl length in Hl. lia. }
  assert (Hf3 : length final = 3%nat).
  { destruct final as [|x [|y [|z [|w final]]]]; simpl length in *; try lia. congruence. }
  split; [rewrite length_app; simpl; lia|].
  split.
  - apply Forall_app. split; [exact Hfull | constructor; [exact Hf3 | constructor]].
  - rewrite concat_app. simpl. rewrite app_nil_r. exact Hcat.
Qed.

Lemma split_tlk_regular_file_witness :
  length (_split_tlk_to_blocks ["a"; "b"; "c"; "d"; "e"; "f"; "*"; "g"]) = 2%nat
  /\ Forall (fun b : Block => length b = 3%nat)
            (_split_tlk_to_blocks ["a"; "b"; "c"; "d"; "e"; "f"; "*"; "g"])
  /\ concat (_split_tlk_to_blocks ["a"; "b"; "c"; "d"; "e"; "f"; "*"; "g"])
     = before_asterisk ["a"; "b"; "c"; "d"; "e"; "f"; "*"; "g"].
Proof.
  apply (split_tlk_regular_file ["a"; "b"; "c"; "d"; "e"; "f"; "*"; "g"] 2).
  - lia.
  - reflexivity.
Defined.

(** ** Key sets of the extracted records *)

Lemma _initialize_empty_nested_lookup (nested : list (string * field)) :
  forall acc k,
    (In k (List.map fst nested) -> _initialize_empty_nested nested acc !! k = Some VNan)
    /\ (~ In k (List.map fst nested) -> _initialize_empty_nested nested acc !! k = acc !! k).
Proof.
  induction nested as [|[key2 f] rest IH]; intros acc k; simpl.
  - tauto.
  - destruct (IH (<[key2 := VNan]> acc) k) as [Hin Hout].
    destruct (in_dec String.string_dec k (List.map fst rest)) as [Hr|Hr].
    + split; [intros _; auto | tauto].
    + split.
      * intros [->|H]; [|tauto]. rewrite Hout by exact Hr. apply lookup_insert_eq.
      * intros Hn. rewrite Hout by exact Hr. apply lookup_insert_ne. tauto.
Qed.

Lemma field_names_nested (idx : Z) (nested : list (string * field)) :
  List.map fst (List.map (fun '(key2, value2) =>
                            (key2, (token, token_conversion idx value2))) nested)
  = List.map fst nested.
Proof.
  induction nested as [|[k f] rest IH]; [reflexivity|]. simpl. rewrite IH. reflexivity.
Qed.

Lemma _initialize_empty_loop_lookup (mapping : mapping) :
  forall acc k,
    (In k (field_names mapping) -> _initialize_empty_loop mapping acc !! k = Some VNan)
    /\ (~ In k (field_names mapping) -> _initialize_empty_loop mapping acc !! k = acc !! k).
Proof.
  unfold field_names.
  induction mapping as [|[key1 [value1|idx nested]] rest IH]; intros acc k; simpl.
  - tauto.
  - destruct (IH (<[key1 := VNan]> acc) k) as [Hin Hout].
    destruct (in_dec String.string_dec k (List.map fst (field_conversions rest))) as [Hr|Hr].
    + split; [intros _; auto | tauto].
    + split.
      * intros [->|H]; [|tauto]. rewrite Hout by exact Hr. apply lookup_insert_eq.
      * intros Hn. rewrite Hout by exact Hr. apply lookup_insert_ne. tauto.
  - rewrite map_app, field_names_nested.
    destruct (IH (_initialize_empty_nested nested acc) k) as [Hin Hout].
    destruct (_initialize_empty_nested_lookup nested acc k) as [Hnin Hnout].
    destruct (in_dec String.string_dec k (List.map fst (field_conversions rest))) as [Hr|Hr].
    + split; [intros _; auto|]. intros Hn. exfalso. apply Hn, in_or_app. tauto.
    + split.
      * intros H. apply in_app_or in H as [H|H]; [|tauto].
        rewrite Hout by exact Hr. auto.
      * intros Hn. rewrite Hout by exact Hr. apply Hnout.
        intros H. apply Hn, in_or_app. tauto.
Qed.

Lemma _parse_metadata_nested_keys (block : Block) (idx : Z) (nested : list (string * field)) :
  forall acc r,
    _parse_metadata_nested block idx nested acc = Ok r ->
    forall k, is_Some (r !! k) <-> In k (List.map fst nested) \/ is_Some (acc !! k).
Proof.
  induction nested as [|[key2 f] rest IH]; intros acc r Hrun k; simpl in *.
  - inversion Hrun; subst. tauto.
  - destruct (try_except _ is_Index_or_ValueError _) as [v|e]; simpl in Hrun; [|discriminate].
    rewrite (IH _ _ Hrun k), lookup_insert_is_Some.
    destruct (decide (key2 = k)); tauto.
Qed.

Lemma _parse_metadata_loop_keys (block : Block) (mapping : mapping) :
  forall acc r,
    _parse_metadata_loop block mapping acc = Ok r ->
    forall k, is_Some (r !! k) <-> In k (field_names mapping) \/ is_Some (acc !! k).
Proof.
  unfold field_names.
  induction mapping as [|[key1 [value1|idx nested]] rest IH]; intros acc r Hrun k; simpl in *.
  - inversion Hrun; subst. tauto.
  - destruct (try_except _ is_IndexError _) as [v|e]; simpl in Hrun; [|discriminate].
    rewrite (IH _ _ Hrun k), lookup_insert_is_Some.
    destruct (decide (key1 = k)); tauto.
  - destruct (_parse_metadata_nested block idx nested acc) as [acc'|e] eqn:Hn;
      simpl in Hrun; [|discriminate].
    rewrite (IH _ _ Hrun k), (_parse_metadata_nested_keys _ _ _ _ _ Hn k).
    rewrite map_app, field_names_nested, in_app_iff. tauto.
Qed.

(** X6.  Whatever the block holds, a record that [_parse_metadata_block]
    returns has exactly the fields of the table as its keys: the same
    keys as the record that [_initialize_empty_mapping] builds for the
    table, in which every field is the missing value. *)
Theorem parse_metadata_block_keys (block : Block) (mapping : mapping) (r : record) :
  _parse_metadata_block block mapping = Ok r ->
  dom r = dom (_initialize_empty_mapping mapping)
  /\ (forall k, is_Some (r !! k) <-> In k (field_names mapping))
  /\ (forall k v, _initialize_empty_mapping mapping !! k = Some v -> v = VNan).
Proof.
  intros Hrun.
  assert (Hkeys : forall k, is_Some (r !! k) <-> In k (field_names mapping)).
  { intros k. rewrite (_parse_metadata_loop_keys _ _ _ _ Hrun k), lookup_empty.
    split; [intros [H|[x Hx]]; [exact H | discriminate] | tauto]. }
  assert (Hinit : forall k,
             (In k (field_names mapping) ->
              _initialize_empty_mapping mapping !! k = Some VNan)
             /\ (~ In k (field_names mapping) ->
                 _initialize_empty_mapping mapping !! k = None)).
  { intros k. unfold _initialize_empty_mapping.
    destruct (_initialize_empty_loop_lookup mapping ∅ k) as [Hin Hout].
    split; [exact Hin|]. intros Hn. rewrite Hout by exact Hn. apply lookup_empty. }
  split; [|split].
  - apply set_eq. intros k. rewrite !elem_of_dom, Hkeys.
    destruct (Hinit k) as [Hin Hout].
    destruct (in_dec String.string_dec k (field_names mapping)) as [Hk|Hk].
    + rewrite (Hin Hk). split; [eauto | intros _; exact Hk].
    + rewrite (Hout Hk). split; [tauto | intros [x Hx]; discriminate].
  - exact Hkeys.
  - intros k v Hv. destruct (Hinit k) as [Hin Hout].
    destruct (in_dec String.string_dec k (field_names mapping)) as [Hk|Hk].
    + rewrite (Hin Hk) in Hv. inversion Hv. reflexivity.
    + rewrite (Hout Hk) in Hv. discriminate.
Qed.

Lemma parse_metadata_block_keys_witness :
  let mapping := tlk_data_mapping sample_tables in
  let r : gmap string value :=
    {[ "material_text_1" := VStr "Sand"; "material_text_2" := VNan; "depth" := VNan ]} in
  dom r = dom (_initialize_empty_mapping mapping)
  /\ (forall k, is_Some (r !! k) <-> In k (field_names mapping))
  /\ (forall k v, _initialize_empty_mapping mapping !! k = Some v -> v = VNan).
Proof.
  intros mapping r.
  apply (parse_metadata_block_keys ["Sand"] mapping r).
  vm_compute. reflexivity.
Defined.

(** ** The block that is not there *)

Lemma getitem_nil {A} (i : Z) : getitem (@nil A) i = Raise IndexError.
Proof.
  unfold getitem.
  destruct ((0 <=? (if i <? 0 then Z.of_nat (length (@nil A)) + i else i))
            && ((if i <? 0 then Z.of_nat (length (@nil A)) + i else i)
                <? Z.of_nat (length (@nil A)))); reflexivity.
Qed.

Lemma _parse_metadata_nested_nil (idx : Z) (nested : list (string * field)) :
  forall acc,
    _parse_metadata_nested [] idx nested acc = Ok (_initialize_empty_nested nested acc).
Proof.
  induction nested as [|[key2 f] rest IH]; intros acc; [reflexivity|].
  simpl. rewrite getitem_nil. simpl. apply IH.
Qed.

(** X7.  On a block without lines every field is out of range: the
    extractor returns the record of missing values of the table, for
    every table. *)
Theorem parse_metadata_block_no_lines (mapping : mapping) :
  _parse_metadata_block [] mapping = Ok (_initialize_empty_mapping mapping).
Proof.
  unfold _parse_metadata_block, _initialize_empty_mapping.
  generalize (∅ : gmap string value).
  induction mapping as [|[key1 [value1|idx nested]] rest IH]; intros acc; [reflexivity| |].
  - simpl. rewrite getitem_nil. simpl. apply IH.
  - simpl. rewrite _parse_metadata_nested_nil. simpl. apply IH.
Qed.

(** ** Data rows *)

Lemma _parse_data_row_keys (line_vals : list string) (mapping : data_mapping) :
  forall acc row,
    _parse_data_row line_vals mapping acc = Ok row ->
    forall k, is_Some (row !! k) <-> In k (List.map fst mapping) \/ is_Some (acc !! k).
Proof.
  induction mapping as [|[key f] rest IH]; intros acc row Hrun k; simpl in *.
  - inversion Hrun; subst. tauto.
  - destruct (try_except _ is_Index_or_ValueError _) as [v|e]; simpl in Hrun; [|discriminate].
    rewrite (IH _ _ Hrun k), lookup_insert_is_Some.
    destruct (decide (key = k)); tauto.
Qed.


Lemma _parse_data_row_values (line_vals : list string) (mapping : data_mapping) :
  raises_value_or_index mapping ->
  forall acc,
    _parse_data_row line_vals mapping acc
    = Ok (fold_left (fun acc '(key, value) =>
                       <[key := value_or_nan (row_conversion value line_vals)]> acc)
                    mapping acc).
Proof.
  induction mapping as [|[key f] rest IH]; intros Hraise acc; [reflexivity|].
  simpl.
  assert (Hstep : try_except (row_conversion f line_vals) is_Index_or_ValueError
                    (fun _ => Ok VNan)
                  = Ok (value_or_nan (row_conversion f line_vals))).
  { unfold row_conversion.
    destruct (getitem line_vals (index f)) as [tok|e] eqn:Hg; simpl.
    - destruct (dtype f tok) as [v|e] eqn:Hd; simpl; [reflexivity|].
      destruct (Hraise key f tok e) as [->| ->]; [left; reflexivity | exact Hd | |];
        reflexivity.
    - unfold getitem in Hg.
      destruct ((0 <=? (if index f <? 0 then Z.of_nat (length line_vals) + index f
                        else index f))
                && ((if index f <? 0 then Z.of_nat (length line_vals) + index f
                     else index f) <? Z.of_nat (length line_vals))) in Hg;
        [destruct (line_vals !! _) in Hg|]; inversion Hg; reflexivity. }
  unfold row_conversion in Hstep at 1. rewrite Hstep. simpl.
  apply IH. intros k v s e Hin. apply (Hraise k v s e). right. exact Hin.
Qed.

Lemma fold_insert_other (line_vals : list string) (mapping : data_mapping) :
  forall (acc : gmap string value) k,
    ~ In k (List.map fst mapping) ->
    fold_left (fun acc '(key, value) =>
                 <[key := value_or_nan (row_conversion value line_vals)]> acc)
              mapping acc !! k = acc !! k.
Proof.
  induction mapping as [|[key f] rest IH]; intros acc k Hn; [reflexivity|].
  simpl in *. rewrite IH by tauto. apply lookup_insert_ne. tauto.
Qed.

Lemma fold_insert_lookup (line_vals : list string) (mapping : data_mapping) :
  forall (acc : gmap string value) key value,
    NoDup (List.map fst mapping) ->
    In (key, value) mapping ->
    fold_left (fun acc '(key, value) =>
                 <[key := value_or_nan (row_conversion value line_vals)]> acc)
              mapping acc !! key
    = Some (value_or_nan (row_conversion value line_vals)).
Proof.
  induction mapping as [|[k f] rest IH]; intros acc key value Hnd Hin; [destruct Hin|].
  simpl in Hnd. apply NoDup_cons in Hnd as [Hfresh Hnd].
  destruct Hin as [Heq|Hin].
  - inversion Heq; subst. simpl. rewrite fold_insert_other; [apply lookup_insert_eq|].
    intros H. apply Hfresh. apply list_elem_of_In. exact H.
  - simpl. apply IH; assumption.
Qed.

(** A row that the row decoder returns holds, for every field, the
    converted token or the missing value. *)
Lemma _parse_data_row_returned (line_vals : list string) (mapping : data_mapping) :
  forall acc row,
    _parse_data_row line_vals mapping acc = Ok row ->
    row = fold_left (fun acc '(key, value) =>
                       <[key := value_or_nan (row_conversion value line_vals)]> acc)
                    mapping acc.
Proof.
  induction mapping as [|[key f] rest IH]; intros acc row Hrun.
  - inversion Hrun. reflexivity.
  - cbn [_parse_data_row] in Hrun. cbn [fold_left].
    assert (Hstep : forall v,
               try_except (row_conversion f line_vals) is_Index_or_ValueError
                 (fun _ => Ok VNan) = Ok v ->
               v = value_or_nan (row_conversion f line_vals)).
    { intros v. destruct (row_conversion f line_vals) as [w|e]; simpl.
      - intros H. inversion H. reflexivity.
      - destruct (is_Index_or_ValueError e); intros H; inversion H. reflexivity. }
    unfold row_conversion in Hstep at 1.
    destruct (try_except _ is_Index_or_ValueError _) as [v|e]; [|discriminate Hrun].
    rewrite <- (Hstep v eq_refl). apply IH. exact Hrun.
Qed.

(** X8.  When [_parse_data_block] returns, it returns one record per
    line of the block, in the order of the lines: the record at the
    place of a line is decoded from the tokens of this line, and holds,
    for every field of the table, the converted token or the missing
    value.  Every record has exactly the keys of the table, whatever
    the tokenizer is. *)
Theorem parse_data_block_shape (mapping : data_mapping)
    (line_split_func : string -> res (list string)) (block : Block)
    (rows : list record) :
  _parse_data_block block mapping line_split_func = Ok rows ->
  length rows = length block
  /\ Forall (fun row : record =>
               forall k, is_Some (row !! k) <-> In k (List.map fst mapping)) rows
  /\ Forall2 (fun line (row : record) =>
                exists line_vals,
                  line_split_func line = Ok line_vals
                  /\ _parse_data_row line_vals mapping ∅ = Ok row
                  /\ (NoDup (List.map fst mapping) ->
                      forall key value,
                        In (key, value) mapping ->
                        row !! key = Some (value_or_nan (row_conversion value line_vals))))
             block rows.
Proof.
  revert rows.
  induction block as [|line rest IH]; intros rows Hrun.
  - inversion Hrun; subst. split; [reflexivity|]. split; constructor.
  - simpl in Hrun.
    destruct (line_split_func line) as [line_vals|e] eqn:Hline; simpl in Hrun;
      [|discriminate].
    destruct (_parse_data_row line_vals mapping ∅) as [row|e] eqn:Hrow;
      simpl in Hrun; [|discriminate].
    destruct (_parse_data_block rest mapping line_split_func) as [rows'|e];
      simpl in Hrun; [|discriminate].
    inversion Hrun; subst. destruct (IH rows' eq_refl) as (Hlen & Hall & Hord).
    split; [simpl; rewrite Hlen; reflexivity|]. split.
    + constructor; [|exact Hall].
      intros k. rewrite (_parse_data_row_keys _ _ _ _ Hrow k), lookup_empty.
      split; [intros [H|[x Hx]]; [exact H | discriminate] | tauto].
    + constructor; [|exact Hord].
      exists line_vals. split; [exact Hline|]. split; [exact Hrow|].
      intros Hnd key value Hin.
      rewrite (_parse_data_row_returned _ _ _ _ Hrow).
      apply fold_insert_lookup; assumption.
Qed.

Lemma parse_data_block_shape_witness :
  let block := [" 1.0 2.0 3.0 4.0 hello world              5 6 7"; " 1 2 3 4 "] in
  let rows := returned [] (_parse_data_block block (cpt_data_mapping sample_tables)
                             _cpt_split_func) in
  length rows = length block
  /\ Forall (fun row : record =>
               forall k, is_Some (row !! k)
                         <-> In k (List.map fst (cpt_data_mapping sample_tables))) rows
  /\ Forall2 (fun line (row : record) =>
                exists line_vals,
                  _cpt_split_func line = Ok line_vals
                  /\ _parse_data_row line_vals (cpt_data_mapping sample_tables) ∅ = Ok row
                  /\ (NoDup (List.map fst (cpt_data_mapping sample_tables)) ->
                      forall key value,
                        In (key, value) (cpt_data_mapping sample_tables) ->
                        row !! key = Some (value_or_nan (row_conversion value line_vals))))
             block rows.
Proof.
  intros block rows.
  apply (parse_data_block_shape (cpt_data_mapping sample_tables) _cpt_split_func
           block rows).
  apply returns_returned. vm_compute. reflexivity.
Defined.

Lemma _parse_data_block_split (mapping : data_mapping)
    (f : string -> res (list string)) (block : Block) :
  (forall line, f line = Ok (split line)) ->
  raises_value_or_index mapping ->
  _parse_data_block block mapping f
  = Ok (List.map (fun line =>
                    fold_left (fun acc '(key, value) =>
                                 <[key := value_or_nan (row_conversion value (split line))]> acc)
                              mapping ∅) block).
Proof.
  intros Hf Hraise. induction block as [|line rest IH]; [reflexivity|].
  simpl. rewrite Hf. simpl.
  rewrite (_parse_data_row_values (split line) mapping Hraise ∅). simpl.
  rewrite IH. reflexivity.
Qed.

(** X9.  With the whitespace tokenizer and a table whose conversions
    raise nothing but [ValueError] and [IndexError], [_parse_data_block]
    returns for every block: one record per line, in which every field
    holds its converted token, or the missing value when the token is
    absent or does not convert; the other fields of the row and the
    other rows are not affected. *)
Theorem parse_data_block_whitespace (mapping : data_mapping) (block : Block) :
  NoDup (List.map fst mapping) ->
  raises_value_or_index mapping ->
  exists rows,
    _parse_data_block block mapping _prv_split_func = Ok rows
    /\ _parse_data_block block mapping _tot_split_func = Ok rows
    /\ Forall2 (fun line (row : record) =>
                  forall key value,
                    In (key, value) mapping ->
                    row !! key = Some (value_or_nan (row_conversion value (split line))))
               block rows.
Proof.
  intros Hnd Hraise.
  eexists. split; [|split].
  - apply _parse_data_block_split; [reflexivity | exact Hraise].
  - apply _parse_data_block_split; [reflexivity | exact Hraise].
  - induction block as [|line rest IH]; [constructor|].
    simpl. constructor; [|exact IH].
    intros key value Hin. apply fold_insert_lookup; assumption.
Qed.

Lemma digits_value_raises (s : string) : forall acc prev e,
  digits_value acc prev s = Raise e -> e = ValueError.
Proof.
  induction s as [|c s IH]; intros acc prev e; simpl.
  - destruct prev; [discriminate | intros H; inversion H; reflexivity].
  - destruct (isdecimal c); [apply IH|].
    destruct ((ord c =? 95)%nat && prev); [apply IH | intros H; inversion H; reflexivity].
Qed.

Lemma int_of_str_raises (s : string) (e : exn) :
  int_of_str s = Raise e -> e = ValueError.
Proof.
  unfold int_of_str.
  assert (Hneg : forall t, (n ← digits_value 0 false t; Ok (- n)) = Raise e -> e = ValueError).
  { intros t. destruct (digits_value 0 false t) as [n|e'] eqn:Hd; simpl; [discriminate|].
    intros H. inversion H; subst. eapply digits_value_raises; eassumption. }
  destruct (strip_int s) as [|c t]; [apply digits_value_raises|].
  destruct c as [[] [] [] [] [] [] [] []];
    first [apply Hneg | apply digits_value_raises].
Qed.

Lemma parse_data_block_whitespace_witness :
  exists rows,
    _parse_data_block ["1.0 0"; "2.0 x"; ""] (prv_data_mapping sample_tables)
                      _prv_split_func = Ok rows
    /\ _parse_data_block ["1.0 0"; "2.0 x"; ""] (prv_data_mapping sample_tables)
                         _tot_split_func = Ok rows
    /\ Forall2 (fun line (row : record) =>
                  forall key value,
                    In (key, value) (prv_data_mapping sample_tables) ->
                    row !! key = Some (value_or_nan (row_conversion value (split line))))
               ["1.0 0"; "2.0 x"; ""] rows.
Proof.
  apply (parse_data_block_whitespace (prv_data_mapping sample_tables)
           ["1.0 0"; "2.0 x"; ""]).
  - apply (bool_decide_unpack (NoDup (List.map fst (prv_data_mapping sample_tables)))).
    vm_compute. exact I.
  - intros key value s e Hin Hd. simpl in Hin.
    destruct Hin as [Hin|[Hin|[]]]; inversion Hin; subst; simpl in Hd.
    + discriminate Hd.
    + unfold dtype_int in Hd. destruct (int_of_str s) as [n|e'] eqn:Hi; simpl in Hd;
        [discriminate|]. inversion Hd; subst. left. eapply int_of_str_raises; eassumption.
Defined.

(** ** Symbol decoder: the range of the codes *)

Lemma length_append (a b : string) :
  String.length (a +:+ b) = (String.length a + String.length b)%nat.
Proof.
  induction a as [|x a IH]; [reflexivity|].
  rewrite append_cons. simpl. rewrite IH. reflexivity.
Qed.

Lemma length_list_ascii (s : string) :
  length (list_ascii_of_string s) = String.length s.
Proof. induction s as [|c s IH]; simpl; [reflexivity | rewrite IH; reflexivity]. Qed.

Lemma list_ascii_append (a b : string) :
  list_ascii_of_string (a +:+ b) = list_ascii_of_string a ++ list_ascii_of_string b.
Proof.
  induction a as [|x a IH]; [reflexivity|].
  rewrite append_cons. simpl. rewrite IH. reflexivity.
Qed.

Lemma bin_digits_upper (p : positive) : forall n : nat,
  Z.pos p < 2 ^ Z.of_nat n -> (String.length (bin_digits p) <= n)%nat.
Proof.
  induction p as [p IH|p IH|]; intros n Hn; simpl.
  - destruct n as [|n]; [simpl in Hn; lia|].
    rewrite length_append. simpl.
    assert (Z.pos p < 2 ^ Z.of_nat n).
    { rewrite Nat2Z.inj_succ, Z.pow_succ_r in Hn by lia. lia. }
    specialize (IH n H). lia.
  - destruct n as [|n]; [simpl in Hn; lia|].
    rewrite length_append. simpl.
    assert (Z.pos p < 2 ^ Z.of_nat n).
    { rewrite Nat2Z.inj_succ, Z.pow_succ_r in Hn by lia. lia. }
    specialize (IH n H). lia.
  - destruct n as [|n]; [simpl in Hn; lia | simpl; lia].
Qed.

Lemma bin_digits_lower (p : positive) : forall n : nat,
  2 ^ Z.of_nat n <= Z.pos p -> (n + 1 <= String.length (bin_digits p))%nat.
Proof.
  induction p as [p IH|p IH|]; intros n Hn; simpl.
  - rewrite length_append. simpl. destruct n as [|n]; [lia|].
    assert (2 ^ Z.of_nat n <= Z.pos p).
    { rewrite Nat2Z.inj_succ, Z.pow_succ_r in Hn by lia. lia. }
    specialize (IH n H). lia.
  - rewrite length_append. simpl. destruct n as [|n]; [lia|].
    assert (2 ^ Z.of_nat n <= Z.pos p).
    { rewrite Nat2Z.inj_succ, Z.pow_succ_r in Hn by lia. lia. }
    specialize (IH n H). lia.
  - destruct n as [|n]; [simpl; lia|].
    rewrite Nat2Z.inj_succ, Z.pow_succ_r in Hn by lia.
    assert (0 < 2 ^ Z.of_nat n) by (apply Z.pow_pos_nonneg; lia). lia.
Qed.

Lemma bin_digits_head (p : positive) : exists t, bin_digits p = String "1" t.
Proof.
  induction p as [p [t Ht]|p [t Ht]|]; simpl.
  - exists (t +:+ "1"). rewrite Ht. reflexivity.
  - exists (t +:+ "0"). rewrite Ht. reflexivity.
  - exists "". reflexivity.
Qed.

Lemma zfill_long (width : nat) (s : string) :
  (width <= String.length s)%nat -> zfill width s = s.
Proof.
  intros H. unfold zfill. replace (width - String.length s)%nat with 0%nat by lia.
  reflexivity.
Qed.

Lemma length_str_repeat (c : ascii) (n : nat) : String.length (str_repeat c n) = n.
Proof. induction n as [|n IH]; simpl; [reflexivity | rewrite IH; reflexivity]. Qed.

Lemma zfill_short (width : nat) (s : string) :
  (String.length s <= width)%nat -> String.length (zfill width s) = width.
Proof.
  intros H. unfold zfill. rewrite length_append, length_str_repeat. lia.
Qed.

(** A set bit at a position from 13 on ends the decoding with
    [IndexError]. *)
Lemma labels_of_bits_out_of_range (bits : list ascii) : forall (pos : Z) (i : nat),
  0 <= pos ->
  bits !! i = Some "1"%char -> 13 <= pos + Z.of_nat i ->
  labels_of_bits bits pos = Raise IndexError.
Proof.
  induction bits as [|bit rest IH]; intros pos i Hpos Hi Hrange; [discriminate|].
  simpl.
  destruct i as [|i].
  - simpl in Hi. inversion Hi; subst. simpl.
    rewrite getitem_nonneg by lia.
    rewrite (lookup_ge_None_2 _SYMBOL_LABELS_NEG (Z.to_nat pos)) by (simpl; lia).
    reflexivity.
  - simpl in Hi.
    assert (Hrest : labels_of_bits rest (pos + 1) = Raise IndexError)
      by (apply (IH (pos + 1) i); [lia | exact Hi | lia]).
    rewrite Hrest.
    destruct (Ascii.eqb bit "1"); [|reflexivity].
    rewrite getitem_nonneg by lia.
    destruct (_SYMBOL_LABELS_NEG !! Z.to_nat pos); reflexivity.
Qed.

(** Bits at the positions below 13 decode to entries of the table. *)
Lemma labels_of_bits_in_range (bits : list ascii) : forall pos : Z,
  0 <= pos -> pos + Z.of_nat (length bits) <= 13 ->
  exists labels,
    labels_of_bits bits pos = Ok labels
    /\ Forall (fun l => In l _SYMBOL_LABELS_NEG) labels
    /\ (In "1"%char bits -> labels <> []).
Proof.
  induction bits as [|bit rest IH]; intros pos Hpos Hlen.
  - exists []. simpl. repeat split; [constructor | tauto].
  - simpl in Hlen. destruct (IH (pos + 1)) as (ls & Hrun & Hall & Hne); [lia | lia |].
    simpl. rewrite Hrun.
    destruct (Ascii.eqb bit "1") eqn:Hbit.
    + rewrite getitem_nonneg by lia.
      destruct (_SYMBOL_LABELS_NEG !! Z.to_nat pos) as [l|] eqn:Hl.
      * exists (l :: ls). split; [reflexivity|]. split; [|discriminate].
        constructor; [|exact Hall].
        apply (proj1 (list_elem_of_In _SYMBOL_LABELS_NEG l)).
        eapply list_elem_of_lookup_2. exact Hl.
      * apply lookup_ge_None in Hl. simpl in Hl. lia.
    + exists ls. split; [reflexivity|]. split; [exact Hall|].
      intros [Heq|Hin]; [|auto].
      subst bit. discriminate Hbit.
Qed.

Lemma strs_of_values_neg (labels : list value) :
  Forall (fun l => In l _SYMBOL_LABELS_NEG) labels ->
  exists strs, strs_of_values labels = Ok strs.
Proof.
  induction 1 as [|l ls Hl _ [strs IH]]; [exists []; reflexivity|].
  simpl in Hl.
  repeat (destruct Hl as [<-|Hl]; [simpl; rewrite IH; eexists; reflexivity|]).
  destruct Hl.
Qed.

(** X10.  For a negative symbol down to -8191 the decoder returns a
    non-empty list of entries of the negative table, all of them
    strings, so that joining them never fails. *)
Theorem label_from_symbol_negative (symbol : Z) :
  -8191 <= symbol <= -1 ->
  exists labels strs,
    _label_from_symbol (VInt symbol) = Ok labels
    /\ labels <> []
    /\ Forall (fun l => In l _SYMBOL_LABELS_NEG) labels
    /\ join_values " " labels = Ok (join " " strs).
Proof.
  intros Hs. unfold _label_from_symbol. simpl.
  replace (symbol <? 0) with true by (symmetry; apply Z.ltb_lt; lia).
  set (p := Z.to_pos (Z.abs symbol)).
  assert (Hp : Z.pos p < 2 ^ Z.of_nat 13) by (subst p; simpl; lia).
  pose proof (bin_digits_upper p 13 Hp) as Hlen.
  destruct (labels_of_bits_in_range
              (rev (list_ascii_of_string (zfill 13 (bin_digits p)))) 0)
    as (labels & Hrun & Hall & Hne); [lia | |].
  { rewrite length_rev, length_list_ascii, zfill_short by exact Hlen. simpl. lia. }
  destruct (strs_of_values_neg labels Hall) as [strs Hstrs].
  exists labels, strs. split; [exact Hrun|]. split.
  - apply Hne. apply in_rev. rewrite rev_involutive.
    unfold zfill. rewrite list_ascii_append. apply in_or_app. right.
    destruct (bin_digits_head p) as [t ->]. left. reflexivity.
  - split; [exact Hall|]. unfold join_values. rewrite Hstrs. reflexivity.
Qed.

Lemma label_from_symbol_negative_witness :
  exists labels strs,
    _label_from_symbol (VInt (-4097)) = Ok labels
    /\ labels <> []
    /\ Forall (fun l => In l _SYMBOL_LABELS_NEG) labels
    /\ join_values " " labels = Ok (join " " strs).
Proof. apply (label_from_symbol_negative (-4097)). lia. Defined.

Lemma _label_from_symbol_below (symbol : Z) :
  symbol <= -8192 ->
  _label_from_symbol (VInt symbol) = Raise IndexError.
Proof.
  intros Hs. unfold _label_from_symbol. simpl.
  replace (symbol <? 0) with true by (symmetry; apply Z.ltb_lt; lia).
  set (p := Z.to_pos (Z.abs symbol)).
  assert (Hp : 2 ^ Z.of_nat 13 <= Z.pos p) by (subst p; simpl; lia).
  pose proof (bin_digits_lower p 13 Hp) as Hlen.
  rewrite zfill_long by lia.
  destruct (bin_digits_head p) as [t Ht]. rewrite Ht in *. simpl in Hlen.
  simpl list_ascii_of_string. simpl rev.
  apply (labels_of_bits_out_of_range _ 0 (length (rev (list_ascii_of_string t)))).
  - lia.
  - rewrite lookup_app_r by lia. rewrite Nat.sub_diag. reflexivity.
  - rewrite length_rev, length_list_ascii. lia.
Qed.

(** X11.  A symbol of -8192 or below has a set bit at position 13 or
    above, for which the negative table has no entry: the decoder
    raises [IndexError]. *)
Theorem label_from_symbol_below_range (symbol : Z) :
  symbol <= -8192 ->
  _label_from_symbol (VInt symbol) = Raise IndexError.
Proof. exact (_label_from_symbol_below symbol). Qed.

Lemma label_from_symbol_below_range_witness :
  _label_from_symbol (VInt (-8192)) = Raise IndexError.
Proof. apply (label_from_symbol_below_range (-8192)). lia. Defined.

(** ** Symbol decoder: positive codes *)







(** ** Comment-code indicator converter: rows *)

Section ConverterRows.

Variable T : tables.

Lemma merge_indicators_other (row : record) (i : indicator_dict) (label : value)
    (k : string) :
  ~ In k indicator_keys -> merge_indicators row i label !! k = row !! k.
Proof.
  intros Hk. unfold merge_indicators.
  rewrite !lookup_insert_ne; [reflexivity| | | | |];
    intros <-; apply Hk; simpl; tauto.
Qed.

Lemma merge_indicators_label (row : record) (i : indicator_dict) (label : value) :
  merge_indicators row i label !! "comment_label" = Some label.
Proof. unfold merge_indicators. apply lookup_insert_eq. Qed.

Lemma merge_indicators_keys (row : record) (i : indicator_dict) (label : value)
    (k : string) :
  In k indicator_keys -> is_Some (merge_indicators row i label !! k).
Proof.
  intros Hk. simpl in Hk.
  destruct Hk as [<-|[<-|[<-|[<-|[<-|[]]]]]].
  - exists (flag_value Okt_rotasjon i). exact (merge_indicators_flag row i label Okt_rotasjon).
  - exists (flag_value Spyling i). exact (merge_indicators_flag row i label Spyling).
  - exists (flag_value Slag i). exact (merge_indicators_flag row i label Slag).
  - exists (flag_value Pumping i). exact (merge_indicators_flag row i label Pumping).
  - rewrite merge_indicators_label. eauto.
Qed.

Lemma _convert_cons (row : record) (rest : list record) :
  _convert_comment_codes_to_indicator_columns T (row :: rest)
  = (indicators ← row_indicators T row;
     label ← (if nonempty (comment_label indicators)
              then m ← _merge_comments_to_single_label (comment_label indicators);
                   Ok (VInt m)
              else Ok VNan);
     res ← _convert_comment_codes_to_indicator_columns T rest;
     Ok (merge_indicators row indicators label :: res)).
Proof. reflexivity. Qed.

Lemma _convert_app (pre : list record) : forall pre' rest,
  _convert_comment_codes_to_indicator_columns T pre = Ok pre' ->
  _convert_comment_codes_to_indicator_columns T (pre ++ rest)
  = (rest' ← _convert_comment_codes_to_indicator_columns T rest; Ok (pre' ++ rest')).
Proof.
  induction pre as [|row pre IH]; intros pre' rest Hpre.
  - inversion Hpre; subst. simpl.
    destruct (_convert_comment_codes_to_indicator_columns T rest); reflexivity.
  - rewrite <- app_comm_cons, _convert_cons. rewrite _convert_cons in Hpre.
    destruct (row_indicators T row) as [i|e]; simpl in *; [|discriminate].
    destruct (if nonempty (comment_label i)
              then m ← _merge_comments_to_single_label (comment_label i); Ok (VInt m)
              else Ok VNan) as [label|e]; simpl in *; [|discriminate].
    destruct (_convert_comment_codes_to_indicator_columns T pre) as [pre0|e] eqn:Hp;
      simpl in *; [|discriminate].
    inversion Hpre; subst. rewrite (IH pre0 rest eq_refl).
    destruct (_convert_comment_codes_to_indicator_columns T rest); reflexivity.
Qed.




End ConverterRows.


(** X13.  When the converter returns, it returns one row per row of
    the block, in order; each row keeps every field of the parsed row
    under its key, except the five keys of the indicators, which it
    always has. *)
Theorem convert_comment_codes_rows (T : tables) (rows rows' : list record) :
  _convert_comment_codes_to_indicator_columns T rows = Ok rows' ->
  Forall2 (fun row row' : record =>
             (forall k, ~ In k indicator_keys -> row' !! k = row !! k)
             /\ (forall k, In k indicator_keys -> is_Some (row' !! k)))
          rows rows'.
Proof.
  revert rows'. induction rows as [|row rows IH]; intros rows' Hrun.
  - inversion Hrun. constructor.
  - rewrite _convert_cons in Hrun.
    destruct (row_indicators T row) as [i|e]; simpl in Hrun; [|discriminate].
    destruct (if nonempty (comment_label i)
              then m ← _merge_comments_to_single_label (comment_label i); Ok (VInt m)
              else Ok VNan) as [label|e]; simpl in Hrun; [|discriminate].
    destruct (_convert_comment_codes_to_indicator_columns T rows) as [res|e];
      simpl in Hrun; [|discriminate].
    inversion Hrun; subst. constructor; [|apply IH; reflexivity].
    split; intros k Hk;
      [apply merge_indicators_other | apply merge_indicators_keys]; exact Hk.
Qed.

Lemma convert_comment_codes_rows_witness :
  let rows : list (gmap string value) :=
    [ {[ "dybde" := VStr "0.1"; "kommentar" := VStr "R1 K1" ]};
      {[ "dybde" := VStr "0.2"; "kommentar" := VNan ]} ] in
  Forall2 (fun row row' : record =>
             (forall k, ~ In k indicator_keys -> row' !! k = row !! k)
             /\ (forall k, In k indicator_keys -> is_Some (row' !! k)))
          rows
          (returned [] (_convert_comment_codes_to_indicator_columns sample_tables rows)).
Proof.
  intros rows.
  apply (convert_comment_codes_rows sample_tables rows).
  apply returns_returned. vm_compute. reflexivity.
Defined.



(** X15.  A row without the key [kommentar] makes the converter raise
    [KeyError], after rows that convert. *)
Theorem convert_comment_codes_missing_key (T : tables) (pre pre' : list record)
    (row : record) (rest : list record) :
  _convert_comment_codes_to_indicator_columns T pre = Ok pre' ->
  row !! "kommentar" = None ->
  _convert_comment_codes_to_indicator_columns T (pre ++ row :: rest) = Raise KeyError.
Proof.
  intros Hpre Hrow. rewrite (_convert_app T pre pre' _ Hpre), _convert_cons.
  unfold row_indicators, dict_get. rewrite Hrow. reflexivity.
Qed.

Lemma convert_comment_codes_missing_key_witness :
  _convert_comment_codes_to_indicator_columns sample_tables
    ([ {[ "kommentar" := VStr "R1" ]} ] ++ {[ "dybde" := VStr "0.2" ]} :: [])
  = Raise KeyError.
Proof.
  apply (convert_comment_codes_missing_key sample_tables
           [ {[ "kommentar" := VStr "R1" ]} ]
           (returned [] (_convert_comment_codes_to_indicator_columns sample_tables
                           [ {[ "kommentar" := VStr "R1" ]} ]))).
  - apply returns_returned. vm_compute. reflexivity.
  - reflexivity.
Defined.



(** ** Orchestrators: what the results hold *)

Section Results.

Variable T : tables.

Lemma parse_tlk_blocks_spec (blocks : list Block) :
  forall (rows : list record) (errors : list error),
    parse_tlk_blocks T blocks rows errors
    = (rows ++ tlk_rows T blocks, errors ++ tlk_errors T blocks).
Proof.
  induction blocks as [|block blocks IH]; intros rows errors.
  - simpl. rewrite !app_nil_r. reflexivity.
  - unfold tlk_rows, tlk_errors. simpl.
    destruct (parse_tlk_block T block) as [row|e]; rewrite IH.
    + rewrite <- app_assoc. reflexivity.
    + rewrite <- app_assoc. reflexivity.
Qed.

Lemma tlk_rows_errors_length (blocks : list Block) :
  (length (tlk_rows T blocks) + length (tlk_errors T blocks) = length blocks)%nat.
Proof.
  induction blocks as [|block blocks IH]; [reflexivity|].
  unfold tlk_rows, tlk_errors, omap in *. simpl.
  destruct (parse_tlk_block T block); simpl; lia.
Qed.

Lemma series_entry_code (metadata : record) (data : list record) (v : value) :
  metadata !! "survey_type_code" = Some v ->
  series_entry metadata data !! "survey_type_code" = Some (SVal v).
Proof.
  intros Hv. unfold series_entry.
  rewrite lookup_insert_ne by discriminate.
  rewrite lookup_fmap, Hv. reflexivity.
Qed.

(** A round of the scan appends at most one series; when the scan goes
    on afterwards, it is a total sounding. *)
Lemma parse_snd_data_block_appends (blocks : list Block) (bi i : Z) (block : Block)
    (ds ds' : list series) (c : control) :
  parse_snd_data_block T blocks bi i block ds = Ok (c, ds') ->
  ds' = ds
  \/ exists s, ds' = ds ++ [s] /\ (c = Continue -> is_tot_series s = true).
Proof.
  unfold parse_snd_data_block.
  destruct (_parse_unknown_data_block T block) as [[metadata data]|e]; simpl; [|discriminate].
  unfold dict_get.
  destruct (metadata !! "survey_type_code") as [v|] eqn:Hv; simpl; [|discriminate].
  unfold _SURVEY_CODE_TO_TEXT, int_dict_get.
  destruct (eq_int v 7) eqn:H7.
  - destruct (eq_int v 25); simpl;
      (destruct (cpt_trailing_metadata T blocks (bi + i + 1)) as [tm|e]; simpl;
       [|discriminate]);
      intros H; inversion H; subst; right; eexists;
      (split; [reflexivity | discriminate]).
  - destruct (eq_int v 25) eqn:H25; simpl; [|discriminate].
    destruct (_convert_comment_codes_to_indicator_columns T data) as [data'|e]; simpl;
      [|discriminate].
    intros H. inversion H; subst. right. eexists. split; [reflexivity|].
    intros _. unfold is_tot_series.
    rewrite (series_entry_code _ _ v).
    + exact H25.
    + rewrite lookup_insert_ne by discriminate. exact Hv.
Qed.

Lemma scan_blocks_tots (blocks : list Block) (bi : Z) (remaining : list Block) :
  forall (i : Z) (ds : list series) (es : list error) ds' es',
    Forall (fun s => is_tot_series s = true) ds ->
    scan_blocks T blocks bi i remaining ds es = Ok (ds', es') ->
    exists tots last,
      ds' = tots ++ last
      /\ Forall (fun s => is_tot_series s = true) tots
      /\ (length last <= 1)%nat.
Proof.
  induction remaining as [|block remaining IH]; intros i ds es ds' es' Hds Hscan.
  - simpl in Hscan. inversion Hscan; subst.
    exists ds', []. rewrite app_nil_r. split; [reflexivity|]. split; [exact Hds | simpl; lia].
  - simpl in Hscan.
    destruct (_is_data_block block) as [[|]|e]; simpl in Hscan; [| |discriminate].
    + destruct (parse_snd_data_block T blocks bi i block ds) as [[c ds1]|e] eqn:Hblock.
      * apply parse_snd_data_block_appends in Hblock as [->|(s & -> & Hs)].
        -- destruct c.
           ++ exact (IH _ _ _ _ _ Hds Hscan).
           ++ inversion Hscan; subst. exists ds', []. rewrite app_nil_r.
              split; [reflexivity|]. split; [exact Hds | simpl; lia].
        -- destruct c.
           ++ apply (IH _ _ _ _ _) in Hscan; [exact Hscan|].
              apply Forall_app. split; [exact Hds|].
              apply Forall_cons. split; [apply Hs; reflexivity | apply Forall_nil; exact I].
           ++ inversion Hscan; subst. exists ds, [s].
              split; [reflexivity|]. split; [exact Hds | simpl; lia].
      * destruct (is_ValueError e); [|discriminate].
        exact (IH _ _ _ _ _ Hds Hscan).
    + exact (IH _ _ _ _ _ Hds Hscan).
Qed.

Lemma parse_snd_metadata_second_raises (b0 b1 b2 : Block) (rest : list Block)
    (first_block : record) :
  _parse_metadata_block b0 (first_block_mapping T) = Ok first_block ->
  _parse_metadata_block b1 (second_block_mapping T) = Raise ValueError ->
  parse_snd_metadata T (b0 :: b1 :: b2 :: rest) = Ok None.
Proof.
  intros H0 H1. unfold parse_snd_metadata. cbv zeta.
  change (0 + 1) with 1.
  rewrite getitem_0, getitem_1. simpl. rewrite H0. simpl. rewrite H1. reflexivity.
Qed.

Lemma parse_snd_metadata_first_raises (b0 : Block) (rest : list Block) (e : exn) :
  _parse_metadata_block b0 (first_block_mapping T) = Raise e ->
  parse_snd_metadata T (b0 :: rest) = Raise e.
Proof.
  intros H0. unfold parse_snd_metadata. cbv zeta.
  rewrite getitem_0. simpl. rewrite H0. reflexivity.
Qed.

Lemma cpt_trailing_metadata_absent (blocks : list Block) (i : Z) :
  Z.of_nat (length blocks) <= i ->
  cpt_trailing_metadata T blocks i
  = Ok (_initialize_empty_mapping (cpt_unknown_block_mapping T)).
Proof.
  intros Hi. unfold cpt_trailing_metadata.
  rewrite getitem_nonneg by lia.
  rewrite (lookup_ge_None_2 blocks (Z.to_nat i)) by lia.
  reflexivity.
Qed.

End Results.

(** X17.  For a file with lines, [parse_tlk_file] returns, and every
    block of the segmenter is accounted for: the rows are those of the
    blocks that decode, the errors those of the blocks that raise, both
    in the order of the blocks, so that their numbers add up to the
    number of blocks.  The result holds the rows under [data], the
    errors under [errors] and the type [tlk]. *)
Theorem parse_tlk_file_accounts (T : tables) (lines : list string) :
  lines <> [] ->
  parse_tlk_file T lines
  = Ok (tlk_result (tlk_rows T (_split_tlk_to_blocks lines))
                   (tlk_errors T (_split_tlk_to_blocks lines)))
  /\ (length (tlk_rows T (_split_tlk_to_blocks lines))
      + length (tlk_errors T (_split_tlk_to_blocks lines))
      = length (_split_tlk_to_blocks lines))%nat
  /\ (exists r,
        parse_tlk_file T lines = Ok r
        /\ r !! "data" = Some (RRows (tlk_rows T (_split_tlk_to_blocks lines)))
        /\ r !! "errors" = Some (RErrors (tlk_errors T (_split_tlk_to_blocks lines)))
        /\ r !! "type" = Some (RVal (VStr "tlk"))).
Proof.
  intros Hlines.
  assert (Hrun : parse_tlk_file T lines
                 = Ok (tlk_result (tlk_rows T (_split_tlk_to_blocks lines))
                                  (tlk_errors T (_split_tlk_to_blocks lines)))).
  { unfold parse_tlk_file.
    destruct lines as [|line lines]; [contradiction|].
    cbv beta iota zeta delta [nonempty negb].
    rewrite parse_tlk_blocks_spec. reflexivity. }
  split; [exact Hrun|]. split; [apply tlk_rows_errors_length|].
  eexists. split; [exact Hrun|]. unfold tlk_result. split; [|split].
  - rewrite lookup_insert_ne by discriminate. apply lookup_insert_eq.
  - apply lookup_insert_eq.
  - rewrite !lookup_insert_ne by discriminate. apply lookup_singleton_eq.
Qed.

Lemma parse_tlk_file_accounts_witness :
  let lines := ["Leire Sand"; "1.0 2.0"; "x"; "Silt"; "*"; "ignored"] in
  parse_tlk_file sample_tables lines
  = Ok (tlk_result (tlk_rows sample_tables (_split_tlk_to_blocks lines))
                   (tlk_errors sample_tables (_split_tlk_to_blocks lines)))
  /\ (length (tlk_rows sample_tables (_split_tlk_to_blocks lines))
      + length (tlk_errors sample_tables (_split_tlk_to_blocks lines))
      = length (_split_tlk_to_blocks lines))%nat
  /\ (exists r,
        parse_tlk_file sample_tables lines = Ok r
        /\ r !! "data" = Some (RRows (tlk_rows sample_tables (_split_tlk_to_blocks lines)))
        /\ r !! "errors"
           = Some (RErrors (tlk_errors sample_tables (_split_tlk_to_blocks lines)))
        /\ r !! "type" = Some (RVal (VStr "tlk"))).
Proof.
  intros lines. apply (parse_tlk_file_accounts sample_tables lines). discriminate.
Defined.

(** X18.  In the result of [parse_snd_file] every series but the last
    is a total sounding (survey code 25): the scan stops at the first
    CPT series, so a CPT series can only be the last entry and there is
    at most one. *)
Theorem parse_snd_file_series_order (T : tables) (lines : list string) (r : result) :
  parse_snd_file T lines = Ok r ->
  exists tots last,
    r !! "blocks" = Some (RSeries (tots ++ last))
    /\ Forall (fun s => is_tot_series s = true) tots
    /\ (length last <= 1)%nat.
Proof.
  unfold parse_snd_file, parse_snd_file_min, parse_snd_blocks.
  destruct (Z.of_nat (length (_get_blocks lines)) <? 3).
  - intros H. inversion H; subst. exists [], [].
    split; [apply snd_result_lookup|]. split; [constructor | simpl; lia].
  - destruct (parse_snd_metadata T (_get_blocks lines)) as [[[m bi]|]|e]; simpl;
      [| |discriminate].
    + destruct (scan_blocks T (_get_blocks lines) bi 0
                  (drop (Z.to_nat bi) (_get_blocks lines)) [] [])
        as [[ds es]|e] eqn:Hscan; simpl; [|discriminate].
      intros H. inversion H; subst.
      apply scan_blocks_tots in Hscan as (tots & last & -> & Htots & Hlast);
        [|constructor].
      exists tots, last. split; [apply snd_result_lookup|]. split; assumption.
    + intros H. inversion H; subst. exists [], [].
      split; [apply snd_result_lookup|]. split; [constructor | simpl; lia].
Qed.

Lemma parse_snd_file_series_order_witness :
  exists tots last,
    returned ∅ (parse_snd_file sample_tables sample_snd_lines) !! "blocks"
    = Some (RSeries (tots ++ last))
    /\ Forall (fun s => is_tot_series s = true) tots
    /\ (length last <= 1)%nat.
Proof.
  apply (parse_snd_file_series_order sample_tables sample_snd_lines).
  apply returns_returned. vm_compute. reflexivity.
Defined.

Lemma empty_snd_metadata_lookup (T : tables) (k : string) :
  In k (field_names (first_block_mapping T) ++ field_names (second_block_mapping T)
        ++ field_names (third_block_mapping T)) ->
  empty_snd_metadata T !! k = Some VNan.
Proof.
  intros Hk. unfold empty_snd_metadata, _initialize_empty_mapping.
  rewrite !dict_merge_lookup.
  destruct (in_dec String.string_dec k (field_names (third_block_mapping T))) as [H3|H3].
  { rewrite (proj1 (_initialize_empty_loop_lookup _ ∅ k) H3). reflexivity. }
  rewrite (proj2 (_initialize_empty_loop_lookup _ ∅ k) H3), lookup_empty.
  destruct (in_dec String.string_dec k (field_names (second_block_mapping T))) as [H2|H2].
  { rewrite (proj1 (_initialize_empty_loop_lookup _ ∅ k) H2). reflexivity. }
  rewrite (proj2 (_initialize_empty_loop_lookup _ ∅ k) H2), lookup_empty.
  apply (proj1 (_initialize_empty_loop_lookup _ ∅ k)).
  apply in_app_or in Hk as [H1|Hk]; [exact H1|].
  apply in_app_or in Hk as [Hk|Hk]; contradiction.
Qed.

(** X19.  The first block of a sound file is decoded outside any
    [try]: an exception of its extraction leaves [parse_snd_file].  A
    [ValueError] of the second block is caught: the call returns a
    result with no series, one error, and the missing value in every
    metadata field, those of the decoded first block included. *)
Theorem parse_snd_file_header_errors (T : tables) (lines : list string)
    (b0 b1 b2 : Block) (rest : list Block) :
  _get_blocks lines = b0 :: b1 :: b2 :: rest ->
  (forall e, _parse_metadata_block b0 (first_block_mapping T) = Raise e ->
             parse_snd_file T lines = Raise e)
  /\ (forall first_block,
        _parse_metadata_block b0 (first_block_mapping T) = Ok first_block ->
        _parse_metadata_block b1 (second_block_mapping T) = Raise ValueError ->
        parse_snd_file T lines
        = Ok (snd_result (empty_snd_metadata T) []
                [ErrMsg "File doesnt contain second metadatablock. Cannot parse"])
        /\ exists r,
             parse_snd_file T lines = Ok r
             /\ r !! "blocks" = Some (RSeries [])
             /\ r !! "errors"
                = Some (RErrors
                          [ErrMsg "File doesnt contain second metadatablock. Cannot parse"])
             /\ (forall k,
                   In k (field_names (first_block_mapping T)
                         ++ field_names (second_block_mapping T)
                         ++ field_names (third_block_mapping T)) ->
                   k <> "blocks" -> k <> "errors" ->
                   r !! k = Some (RVal VNan))).
Proof.
  intros Hblocks.
  unfold parse_snd_file, parse_snd_file_min, parse_snd_blocks. rewrite Hblocks.
  replace (Z.of_nat (length (b0 :: b1 :: b2 :: rest)) <? 3) with false
    by (symmetry; apply Z.ltb_ge; simpl length; lia).
  split.
  - intros e H0. rewrite (parse_snd_metadata_first_raises T _ _ _ H0). reflexivity.
  - intros first_block H0 H1.
    rewrite (parse_snd_metadata_second_raises T _ _ _ _ _ H0 H1).
    split; [reflexivity|].
    eexists. split; [reflexivity|].
    destruct (snd_result_holds (empty_snd_metadata T) []
                [ErrMsg "File doesnt contain second metadatablock. Cannot parse"])
      as (Hb & He & Hf & _).
    split; [exact Hb|]. split; [exact He|].
    intros k Hk Hkb Hke. apply Hf; [|exact Hkb | exact Hke].
    apply empty_snd_metadata_lookup. exact Hk.
Qed.

Lemma parse_snd_file_header_errors_witness :
  parse_snd_file int_header_tables ["x"; "*"; "1"; "*"; "guid-1"] = Raise ValueError
  /\ (parse_snd_file int_header_tables ["1"; "*"; "x"; "*"; "guid-1"]
      = Ok (snd_result (empty_snd_metadata int_header_tables) []
              [ErrMsg "File doesnt contain second metadatablock. Cannot parse"])
      /\ exists r,
           parse_snd_file int_header_tables ["1"; "*"; "x"; "*"; "guid-1"] = Ok r
           /\ r !! "blocks" = Some (RSeries [])
           /\ r !! "errors"
              = Some (RErrors
                        [ErrMsg "File doesnt contain second metadatablock. Cannot parse"])
           /\ (forall k,
                 In k (field_names (first_block_mapping int_header_tables)
                       ++ field_names (second_block_mapping int_header_tables)
                       ++ field_names (third_block_mapping int_header_tables)) ->
                 k <> "blocks" -> k <> "errors" ->
                 r !! k = Some (RVal VNan))).
Proof.
  split.
  - apply (proj1 (parse_snd_file_header_errors int_header_tables
                    ["x"; "*"; "1"; "*"; "guid-1"] ["x"] ["1"] ["guid-1"] []
                    ltac:(vm_compute; reflexivity))).
    vm_compute. reflexivity.
  - apply (proj2 (parse_snd_file_header_errors int_header_tables
                    ["1"; "*"; "x"; "*"; "guid-1"] ["1"] ["x"] ["guid-1"] []
                    ltac:(vm_compute; reflexivity))
             {[ "number" := VInt 1 ]}).
    + vm_compute. reflexivity.
    + vm_compute. reflexivity.
Defined.

(** X20.  When the block that decodes as a CPT series is the last
    block of the file, no block is left for its trailing metadata: the
    call returns, and the series entry of the CPT block holds its rows
    under [data], the missing value in every field of the trailing
    table, and the fields of the block's own metadata that the trailing
    table does not name. *)
Theorem parse_snd_file_cpt_last_block (T : tables) (lines : list string)
    (snd_metadata : record) (block_index : Z) (pre : list Block) (cpt : Block)
    (ds : list series) (es : list error) (metadata : record) (data : list record)
    (v : value) :
  (3 <= length (_get_blocks lines))%nat ->
  parse_snd_metadata T (_get_blocks lines) = Ok (Some (snd_metadata, block_index)) ->
  drop (Z.to_nat block_index) (_get_blocks lines) = pre ++ [cpt] ->
  Forall (fun b => decodes_as_cpt T b = false) pre ->
  scan_blocks T (_get_blocks lines) block_index 0 pre [] [] = Ok (ds, es) ->
  _is_data_block cpt = Ok true ->
  _parse_unknown_data_block T cpt = Ok (metadata, data) ->
  metadata !! "survey_type_code" = Some v ->
  eq_int v 7 = true ->
  parse_snd_file T lines
  = Ok (snd_result snd_metadata
          (ds ++ [series_entry
                    (dict_merge (<["type" := VStr "cpt"]> metadata)
                       (_initialize_empty_mapping (cpt_unknown_block_mapping T)))
                    data])
          es)
  /\ exists r e,
       parse_snd_file T lines = Ok r
       /\ holds_snd_result snd_metadata (ds ++ [e]) es r
       /\ holds_cpt_series metadata
            (_initialize_empty_mapping (cpt_unknown_block_mapping T)) data e
       /\ (forall k, In k (field_names (cpt_unknown_block_mapping T)) -> k <> "data" ->
                     e !! k = Some (SVal VNan)).
Proof.
  intros Hlen Hmeta Hdrop Hpre Hscan Hdata Hparse Hv H7.
  assert (Hrun : parse_snd_file T lines
                 = Ok (snd_result snd_metadata
                         (ds ++ [series_entry
                                   (dict_merge (<["type" := VStr "cpt"]> metadata)
                                      (_initialize_empty_mapping
                                         (cpt_unknown_block_mapping T)))
                                   data])
                         es)).
  { unfold parse_snd_file, parse_snd_file_min, parse_snd_blocks.
    replace (Z.of_nat (length (_get_blocks lines)) <? 3) with false
      by (symmetry; apply Z.ltb_ge; lia).
    rewrite Hmeta. simpl. rewrite Hdrop.
    rewrite (scan_blocks_prefix T _ block_index pre 0 _ [] [] ds es Hpre Hscan).
    rewrite (scan_blocks_cpt T _ block_index _ cpt _ ds es metadata
               (_initialize_empty_mapping (cpt_unknown_block_mapping T)) data v
               Hdata Hparse Hv H7); [reflexivity|].
    apply cpt_trailing_metadata_absent.
    assert (Hbi : 0 <= block_index)
      by (destruct (parse_snd_metadata_index T _ _ _ Hmeta); lia).
    assert (Hl : length (drop (Z.to_nat block_index) (_get_blocks lines))
                 = (length pre + 1)%nat)
      by (rewrite Hdrop, length_app; reflexivity).
    rewrite length_drop in Hl. lia. }
  split; [exact Hrun|].
  eexists. eexists. split; [exact Hrun|].
  split; [apply snd_result_holds|].
  pose proof (series_entry_holds metadata
                (_initialize_empty_mapping (cpt_unknown_block_mapping T)) data) as He.
  split; [exact He|].
  intros k Hk Hd. destruct He as (_ & Htm & _).
  apply Htm; [|exact Hd].
  unfold _initialize_empty_mapping.
  apply (proj1 (_initialize_empty_loop_lookup _ ∅ k)). exact Hk.
Qed.

Lemma parse_snd_file_cpt_last_block_witness :
  let lines :=
    [ "1.0 2.0"; "*"; "BH1"; "*"; "guid-1"; "*";
      "25 01.02.2020"; "x"; "0.1 R1"; "0.2 R2"; "*";
      "7 01.02.2020"; "x"; " 1.0 2.0 3.0 4.0 hello world              5 6 7"; "*" ] in
  let pre := [ ["25 01.02.2020"; "x"; "0.1 R1"; "0.2 R2"] ] in
  let cpt := ["7 01.02.2020"; "x"; " 1.0 2.0 3.0 4.0 hello world              5 6 7"] in
  let snd_metadata := match parse_snd_metadata sample_tables (_get_blocks lines) with
                      | Ok (Some (m, _)) => m
                      | _ => ∅
                      end in
  let scanned := returned ([], [])
                   (scan_blocks sample_tables (_get_blocks lines) 3 0 pre [] []) in
  let decoded := returned (∅, []) (_parse_unknown_data_block sample_tables cpt) in
  parse_snd_file sample_tables lines
  = Ok (snd_result snd_metadata
          (scanned.1 ++ [series_entry
                    (dict_merge (<["type" := VStr "cpt"]> decoded.1)
                       (_initialize_empty_mapping (cpt_unknown_block_mapping sample_tables)))
                    decoded.2])
          scanned.2)
  /\ exists r e,
       parse_snd_file sample_tables lines = Ok r
       /\ holds_snd_result snd_metadata (scanned.1 ++ [e]) scanned.2 r
       /\ holds_cpt_series decoded.1
            (_initialize_empty_mapping (cpt_unknown_block_mapping sample_tables))
            decoded.2 e
       /\ (forall k, In k (field_names (cpt_unknown_block_mapping sample_tables)) ->
                     k <> "data" -> e !! k = Some (SVal VNan)).
Proof.
  intros lines pre cpt snd_metadata scanned decoded.
  apply (parse_snd_file_cpt_last_block sample_tables lines snd_metadata 3 pre cpt
           scanned.1 scanned.2 decoded.1 decoded.2 (VInt 7)).
  - vm_compute. lia.
  - vm_compute. reflexivity.
  - vm_compute. reflexivity.
  - apply Forall_cons. split; [vm_compute; reflexivity | apply Forall_nil; exact I].
  - apply returns_returned_pair. vm_compute. reflexivity.
  - vm_compute. reflexivity.
  - apply returns_returned_pair. vm_compute. reflexivity.
  - vm_compute. reflexivity.
  - reflexivity.
Defined.

(** X21.  A block that the classifier takes for a data block, but
    whose survey code is neither 25 nor 7 (the classifier knows six
    more codes), is not decoded: [_parse_unknown_data_block] raises
    [ValueError], the scan of [parse_snd_file] records it as one more
    error, adds no series and goes on with the next block. *)
Theorem scan_blocks_unknown_survey_type (T : tables) (blocks : list Block)
    (bi i : Z) (block : Block) (rest : list Block) (ds : list series)
    (es : list error) (metadata : record) (v : value) :
  _is_data_block block = Ok true ->
  _parse_metadata_block (take 2 block) (data_block_metadata_mapping T) = Ok metadata ->
  metadata !! "survey_type_code" = Some v ->
  eq_int v 25 = false ->
  eq_int v 7 = false ->
  _parse_unknown_data_block T block = Raise ValueError
  /\ scan_blocks T blocks bi i (block :: rest) ds es
     = scan_blocks T blocks bi (i + 1) rest ds (es ++ [ErrStr ValueError]).
Proof.
  intros Hdata Hmeta Hv H25 H7.
  assert (Hraise : _parse_unknown_data_block T block = Raise ValueError).
  { unfold _parse_unknown_data_block, _get_data_block_survey_type. cbv zeta.
    rewrite Hmeta. cbn [mbind res_bind]. rewrite Hv. cbn [mbind res_bind].
    rewrite H25, H7. reflexivity. }
  split; [exact Hraise|].
  cbn [scan_blocks]. rewrite Hdata. cbn [mbind res_bind].
  unfold parse_snd_data_block. rewrite Hraise. reflexivity.
Qed.

Lemma scan_blocks_unknown_survey_type_witness :
  let block := ["10 01.02.2020"; "x"; "0.1 R1"] in
  let blocks := [ ["1.0 2.0"]; ["BH1"]; ["guid-1"]; block; ["25 01.02.2020"; "x"; "0.5 K1"] ] in
  _parse_unknown_data_block sample_tables block = Raise ValueError
  /\ scan_blocks sample_tables blocks 3 0 (block :: [ ["25 01.02.2020"; "x"; "0.5 K1"] ]) [] []
     = scan_blocks sample_tables blocks 3 (0 + 1) [ ["25 01.02.2020"; "x"; "0.5 K1"] ] []
         ([] ++ [ErrStr ValueError]).
Proof.
  intros block blocks.
  apply (scan_blocks_unknown_survey_type sample_tables blocks 3 0 block
           [ ["25 01.02.2020"; "x"; "0.5 K1"] ] [] []
           (returned ∅ (_parse_metadata_block (take 2 block)
                          (data_block_metadata_mapping sample_tables)))
           (VInt 10)).
  - vm_compute. reflexivity.
  - apply returns_returned. vm_compute. reflexivity.
  - vm_compute. reflexivity.
  - reflexivity.
  - reflexivity.
Defined.

(** ** Grouping the files of a folder *)

Section Regex.

Import Re.

Lemma append_empty_r (s : string) : s +:+ "" = s.
Proof.
  induction s as [|c s IH]; [reflexivity|].
  rewrite append_cons, IH. reflexivity.
Qed.

Lemma append_eq_empty (s1 s2 : string) : s1 +:+ s2 = "" -> s1 = "" /\ s2 = "".
Proof.
  destruct s1 as [|c s1]; [intros H; rewrite append_nil in H; auto|].
  rewrite append_cons. discriminate.
Qed.

Lemma lang_empty_nullable (r : regex) (s : string) :
  lang r s -> s = "" -> nullable r = true.
Proof.
  induction 1 as [|p c Hc|r1 r2 s1 s2 _ IH1 _ IH2|r1 r2 s _ IH|r1 r2 s _ IH
                  |r|r s1 s2 _ _ _ _]; intros Hs; simpl; try reflexivity.
  - discriminate.
  - apply append_eq_empty in Hs as [-> ->]. rewrite IH1, IH2; reflexivity.
  - rewrite IH by exact Hs. reflexivity.
  - rewrite IH by exact Hs. apply orb_true_r.
Qed.

Lemma nullable_lang (r : regex) : nullable r = true <-> lang r "".
Proof.
  split; [|intros H; exact (lang_empty_nullable r "" H eq_refl)].
  induction r as [| |p|r1 IH1 r2 IH2|r1 IH1 r2 IH2|r IH]; simpl; intros H.
  - discriminate.
  - constructor.
  - discriminate.
  - apply andb_true_iff in H as [H1 H2].
    change "" with ("" +:+ ""). constructor; auto.
  - apply orb_true_iff in H as [H|H]; [apply lang_alt_l | apply lang_alt_r]; auto.
  - constructor.
Qed.

Lemma deriv_lang_1 (c : ascii) (r : regex) :
  forall s, lang (deriv c r) s -> lang r (String c s).
Proof.
  induction r as [| |p|r1 IH1 r2 IH2|r1 IH1 r2 IH2|r IH]; simpl; intros s H.
  - inversion H.
  - inversion H.
  - destruct (p c) eqn:Hp; inversion H; subst. constructor. exact Hp.
  - assert (Hseq : forall s, lang (Seq (deriv c r1) r2) s -> lang (Seq r1 r2) (String c s)).
    { intros s0 H0. inversion H0; subst.
      rewrite <- append_cons. constructor; auto. }
    destruct (nullable r1) eqn:Hn.
    + inversion H; subst; [apply Hseq; assumption|].
      rewrite <- (append_nil (String c s)). constructor; [|auto].
      apply nullable_lang. exact Hn.
    + apply Hseq. exact H.
  - inversion H; subst; [apply lang_alt_l | apply lang_alt_r]; auto.
  - inversion H; subst. rewrite <- append_cons. constructor; auto.
Qed.

Lemma deriv_lang_2 (r : regex) (s0 : string) :
  lang r s0 -> forall c s, s0 = String c s -> lang (deriv c r) s.
Proof.
  induction 1 as [|p c0 Hc|r1 r2 s1 s2 H1 IH1 H2 IH2|r1 r2 s0 _ IH|r1 r2 s0 _ IH
                  |r|r s1 s2 H1 IH1 H2 IH2]; intros c s Hs; simpl.
  - discriminate.
  - inversion Hs; subst. rewrite Hc. constructor.
  - destruct s1 as [|c1 s1].
    + rewrite append_nil in Hs.
      rewrite (lang_empty_nullable r1 "" H1 eq_refl).
      apply lang_alt_r. apply IH2. exact Hs.
    + rewrite append_cons in Hs. inversion Hs; subst.
      assert (Hseq : lang (Seq (deriv c r1) r2) (s1 +:+ s2))
        by (constructor; [apply IH1; reflexivity | exact H2]).
      destruct (nullable r1); [apply lang_alt_l|]; exact Hseq.
  - apply lang_alt_l. apply IH. exact Hs.
  - apply lang_alt_r. apply IH. exact Hs.
  - discriminate.
  - destruct s1 as [|c1 s1].
    + rewrite append_nil in Hs. exact (IH2 c s Hs).
    + rewrite append_cons in Hs. inversion Hs; subst.
      constructor; [apply IH1; reflexivity | exact H2].
Qed.

Lemma deriv_lang (c : ascii) (r : regex) (s : string) :
  lang (deriv c r) s <-> lang r (String c s).
Proof.
  split; [apply deriv_lang_1 | intros H; exact (deriv_lang_2 r _ H c s eq_refl)].
Qed.

(** The match by derivatives finds a prefix in the language of the
    pattern, when there is one. *)
Lemma re_match_lang (s : string) :
  forall r, re_match r s = true <-> exists p q, s = p +:+ q /\ lang r p.
Proof.
  induction s as [|c s IH]; intros r; simpl.
  - rewrite orb_false_r, nullable_lang. split.
    + intros H. exists "", "". split; [reflexivity | exact H].
    + intros (p & q & Hs & H). symmetry in Hs.
      apply append_eq_empty in Hs as [-> _]. exact H.
  - rewrite orb_true_iff, nullable_lang, IH. split.
    + intros [H|(p & q & -> & H)].
      * exists "", (String c s). split; [reflexivity | exact H].
      * exists (String c p), q. split; [reflexivity | apply deriv_lang; exact H].
    + intros (p & q & Hs & H). destruct p as [|c0 p].
      * left. exact H.
      * rewrite append_cons in Hs. inversion Hs; subst.
        right. exists p, q. split; [reflexivity | apply deriv_lang; exact H].
Qed.

Lemma lang_seq_inv (r1 r2 : regex) (s : string) :
  lang (Seq r1 r2) s <-> exists s1 s2, s = s1 +:+ s2 /\ lang r1 s1 /\ lang r2 s2.
Proof.
  split.
  - intros H. inversion H; subst. eauto.
  - intros (s1 & s2 & -> & H1 & H2). constructor; assumption.
Qed.

Lemma lang_class_inv (p : ascii -> bool) (s : string) :
  lang (Class p) s <-> exists c, s = String c "" /\ p c = true.
Proof.
  split.
  - intros H. inversion H; subst. eauto.
  - intros (c & -> & Hc). constructor. exact Hc.
Qed.

Lemma lang_alt_inv (r1 r2 : regex) (s : string) :
  lang (Alt r1 r2) s <-> lang r1 s \/ lang r2 s.
Proof.
  split.
  - intros H. inversion H; subst; auto.
  - intros [H|H]; [apply lang_alt_l | apply lang_alt_r]; exact H.
Qed.

Lemma lang_lit (w : string) : forall s, lang (lit w) s <-> s = w.
Proof.
  induction w as [|c w IH]; intros s; simpl.
  - split; [intros H; inversion H; reflexivity | intros ->; constructor].
  - rewrite lang_seq_inv. split.
    + intros (s1 & s2 & -> & H1 & H2).
      apply lang_class_inv in H1 as (c0 & -> & Hc).
      apply Ascii.eqb_eq in Hc. subst. apply IH in H2. subst. reflexivity.
    + intros ->. exists (String c ""), w. split; [reflexivity|]. split.
      * constructor. apply Ascii.eqb_refl.
      * apply IH. reflexivity.
Qed.

Lemma lang_star_class_1 (r : regex) (s : string) :
  lang r s -> forall p, r = Star (Class p) -> str_forallb p s = true.
Proof.
  induction 1 as [|p0 c Hc|r1 r2 s1 s2 _ _ _ _|r1 r2 s _ _|r1 r2 s _ _
                  |r|r s1 s2 H1 _ _ IH2]; intros p Hr; try discriminate.
  - reflexivity.
  - inversion Hr; subst. inversion H1; subst.
    rewrite append_cons, append_nil. simpl. rewrite H0. apply IH2. reflexivity.
Qed.

Lemma lang_star_class (p : ascii -> bool) (s : string) :
  lang (Star (Class p)) s <-> str_forallb p s = true.
Proof.
  split; [intros H; exact (lang_star_class_1 _ _ H p eq_refl)|].
  induction s as [|c s IH]; simpl; intros H; [constructor|].
  apply andb_true_iff in H as [Hc Hs].
  change (String c s) with (String c "" +:+ s).
  constructor; [constructor; exact Hc | apply IH; exact Hs].
Qed.

Lemma not_hyphen_neq (c : ascii) : not_hyphen c = true <-> c <> "-"%char.
Proof.
  unfold not_hyphen. rewrite negb_true_iff. apply Ascii.eqb_neq.
Qed.

Lemma lang_PR_PATTERN (s : string) :
  lang _PR_PATTERN s
  <-> exists (a : string) (c : ascii) (b t : string),
        s = a +:+ "PR" +:+ String c (b +:+ t)
        /\ str_forallb dot a = true
        /\ c <> "-"%char
        /\ str_forallb dot b = true
        /\ (t = "SND" \/ t = "snd").
Proof.
  unfold _PR_PATTERN. split.
  - intros H.
    apply lang_seq_inv in H as (a & s1 & -> & Ha & H).
    apply lang_seq_inv in H as (w & s2 & -> & Hw & H).
    apply lang_seq_inv in H as (cs & s3 & -> & Hc & H).
    apply lang_seq_inv in H as (b & t & -> & Hb & Ht).
    apply lang_star_class in Ha. apply lang_lit in Hw. subst w.
    apply lang_class_inv in Hc as (c & -> & Hc). apply not_hyphen_neq in Hc.
    apply lang_star_class in Hb.
    apply lang_alt_inv in Ht. rewrite !lang_lit in Ht.
    exists a, c, b, t. split; [reflexivity|]. auto.
  - intros (a & c & b & t & -> & Ha & Hc & Hb & Ht).
    constructor; [apply lang_star_class; exact Ha|].
    constructor; [apply lang_lit; reflexivity|].
    change (String c (b +:+ t)) with (String c "" +:+ (b +:+ t)).
    constructor; [constructor; apply not_hyphen_neq; exact Hc|].
    constructor; [apply lang_star_class; exact Hb|].
    apply lang_alt_inv. rewrite !lang_lit. exact Ht.
Qed.

Lemma re_match_PR_PATTERN (f : string) :
  re_match _PR_PATTERN f = true <-> pr_name f.
Proof.
  rewrite re_match_lang. unfold pr_name. split.
  - intros (p & rest & -> & H).
    apply lang_PR_PATTERN in H as (a & c & b & t & -> & Ha & Hc & Hb & Ht).
    exists a, c, b, t, rest. split; [|auto].
    rewrite append_assoc. f_equal.
    change ("PR" +:+ String c (b +:+ t)) with (String "P" (String "R" (String c (b +:+ t)))).
    rewrite !append_cons, append_assoc. reflexivity.
  - intros (a & c & b & t & rest & -> & Ha & Hc & Hb & Ht).
    exists (a +:+ "PR" +:+ String c (b +:+ t)), rest. split.
    + rewrite append_assoc. f_equal.
      change ("PR" +:+ String c (b +:+ t)) with (String "P" (String "R" (String c (b +:+ t)))).
      rewrite !append_cons, append_assoc. reflexivity.
    + apply lang_PR_PATTERN. exists a, c, b, t. auto.
Qed.

End Regex.

(** The pattern on some names, as Python answers. *)
Lemma PR_PATTERN_samples :
  List.map (Re.re_match _PR_PATTERN)
    [ "PR.SND"; "aPR-1.SND"; "PR-PRx.SND"; "PROSJEKT.snd"; "PRSND"; "PRSSND";
      "PR1.Snd"; "PRxSNDtail.tlk"; "prxsnd";
      "PR" +:+ String "010" "SND"; "PRx" +:+ String "010" "SND";
      String "a" (String "010" "PRxSND") ]
  = [ true; false; true; true; false; true;
      false; true; false;
      true; false;
      false ].
Proof. vm_compute. reflexivity. Qed.

Section Groups.

Lemma filter_filter {A} (f g : A -> bool) (l : list A) :
  List.filter f (List.filter g l) = List.filter (fun x => g x && f x) l.
Proof.
  induction l as [|x l IH]; [reflexivity|].
  simpl. destruct (g x); simpl; [destruct (f x)|]; rewrite IH; reflexivity.
Qed.

Lemma _remove_filenames_loop_spec (files rest : list string) :
  _remove_filenames_loop files rest = if existsb snd_name rest then files else [].
Proof.
  induction rest as [|f rest IH]; [reflexivity|].
  simpl. unfold snd_name at 1.
  destruct (String.eqb (lower (str_last 4 f)) ".snd"); [reflexivity | exact IH].
Qed.

(** The group of a prefix without the loop and the early return. *)
Lemma grouped_filenames_spec (filenames : list string) (p : string) :
  grouped_filenames filenames p
  = let g := List.filter (fun f => String.eqb (str_but_last 4 f) p && kept_name f)
                         filenames in
    if existsb snd_name g then g else [].
Proof.
  unfold grouped_filenames, _remove_filenames_without_snd_file, _prune_filetypes,
    _remove_incomplete_files.
  cbv zeta. rewrite _remove_filenames_loop_spec, !filter_filter.
  reflexivity.
Qed.

Lemma _associate_filenames_loop_lookup (filenames : list string) (prefixes : list string) :
  forall (acc : gmap string (list string)) (p : string),
    _associate_filenames_loop filenames prefixes acc !! p
    = if bool_decide (p ∈ prefixes) && nonempty (grouped_filenames filenames p)
      then Some (grouped_filenames filenames p)
      else acc !! p.
Proof.
  induction prefixes as [|q prefixes IH]; intros acc p; [reflexivity|].
  simpl. rewrite IH.
  destruct (decide (p = q)) as [->|Hne].
  - rewrite (bool_decide_eq_true_2 (q ∈ q :: prefixes)) by apply list_elem_of_here.
    simpl. destruct (nonempty (grouped_filenames filenames q)) eqn:Hg.
    + rewrite andb_true_r, lookup_insert_eq.
      destruct (bool_decide (q ∈ prefixes)); reflexivity.
    + rewrite andb_false_r. reflexivity.
  - assert (Hin : bool_decide (p ∈ q :: prefixes) = bool_decide (p ∈ prefixes)).
    { apply bool_decide_ext. rewrite elem_of_cons. split; [intros [?|?]; [congruence | assumption] | auto]. }
    rewrite Hin.
    destruct (bool_decide (p ∈ prefixes) && nonempty (grouped_filenames filenames p));
      [reflexivity|].
    destruct (nonempty (grouped_filenames filenames q)); [|reflexivity].
    rewrite lookup_insert_ne by congruence. reflexivity.
Qed.

Lemma grouped_filenames_prefix (filenames : list string) (p : string) :
  nonempty (grouped_filenames filenames p) = true ->
  p ∈ List.map (str_but_last 4) filenames.
Proof.
  rewrite grouped_filenames_spec. cbv zeta.
  destruct (existsb snd_name _) eqn:Hsnd; [|discriminate].
  intros _. apply existsb_exists in Hsnd as (f & Hf & _).
  apply List.filter_In in Hf as [Hf Hp].
  apply andb_true_iff in Hp as [Hp _]. apply String.eqb_eq in Hp. subst p.
  apply list_elem_of_In. apply in_map. exact Hf.
Qed.

Lemma _associate_filenames_lookup_order (filenames order : list string) (p : string) :
  (list_to_set order : gset string) = list_to_set (List.map (str_but_last 4) filenames) ->
  _associate_filenames_loop filenames order ∅ !! p
  = if nonempty (grouped_filenames filenames p)
    then Some (grouped_filenames filenames p)
    else None.
Proof.
  intros Horder. rewrite _associate_filenames_loop_lookup, lookup_empty.
  destruct (nonempty (grouped_filenames filenames p)) eqn:Hg;
    [|rewrite andb_false_r; reflexivity].
  rewrite bool_decide_eq_true_2; [reflexivity|].
  apply grouped_filenames_prefix in Hg.
  apply (elem_of_list_to_set (C := gset string)). rewrite Horder.
  apply elem_of_list_to_set. exact Hg.
Qed.

Lemma list_to_set_elements_prefixes (filenames : list string) :
  (list_to_set (elements (list_to_set (List.map (str_but_last 4) filenames) : gset string))
     : gset string)
  = list_to_set (List.map (str_but_last 4) filenames).
Proof. apply list_to_set_elements_L. Qed.

End Groups.

(** X22.  [_remove_incomplete_files] removes exactly the names in
    which [PR] is followed by a character other than a hyphen and,
    anywhere later, by [SND] or [snd] (no newline before [PR] nor in
    between): the names need not end in [SND], and every other name is
    kept, in order. *)
Theorem remove_incomplete_files_iff (files : list string) (f : string) :
  In f (_remove_incomplete_files files) <-> In f files /\ ~ pr_name f.
Proof.
  unfold _remove_incomplete_files. rewrite List.filter_In, negb_true_iff.
  rewrite <- re_match_PR_PATTERN, not_true_iff_false. reflexivity.
Qed.

(** X23.  The group that [_associate_filenames_in_folder] files under
    a prefix holds the names of the folder, in order, that have this
    prefix in front of their last four characters, that [_PR_PATTERN]
    does not match and that end in one of the three file types in any
    case; a prefix has a group exactly when one of these names is a
    sound file. *)
Theorem associate_filenames_lookup (filenames : list string) (p : string) :
  _associate_filenames_in_folder filenames !! p
  = let g := List.filter (fun f => String.eqb (str_but_last 4 f) p && kept_name f)
                         filenames in
    if existsb snd_name g then Some g else None.
Proof.
  unfold _associate_filenames_in_folder. cbv zeta.
  rewrite (_associate_filenames_lookup_order filenames _ p
             (list_to_set_elements_prefixes filenames)).
  rewrite grouped_filenames_spec. cbv zeta.
  destruct (existsb snd_name _) eqn:Hsnd; [|reflexivity].
  apply existsb_exists in Hsnd as (f & Hf & _).
  destruct (List.filter _ filenames) as [|x g]; [destruct Hf | reflexivity].
Qed.

(** X24.  The groups do not depend on the order in which the loop
    goes through the set of prefixes: going through any list with the
    same elements, repeated or not, gives the same dictionary. *)
Theorem associate_filenames_any_order (filenames order : list string) :
  (list_to_set order : gset string) = list_to_set (List.map (str_but_last 4) filenames) ->
  _associate_filenames_loop filenames order ∅ = _associate_filenames_in_folder filenames.
Proof.
  intros Horder. apply map_eq. intros p.
  unfold _associate_filenames_in_folder. cbv zeta.
  rewrite (_associate_filenames_lookup_order filenames order p Horder).
  rewrite (_associate_filenames_lookup_order filenames _ p
             (list_to_set_elements_prefixes filenames)).
  reflexivity.
Qed.

Lemma associate_filenames_any_order_witness :
  let filenames := [ "a.snd"; "a.TLK"; "b.prv"; "cPR1.SND"; "c.tlk"; "d.SND"; "d.txt" ] in
  _associate_filenames_loop filenames [ "d"; "cPR1"; "c"; "b"; "a"; "d" ] ∅
  = _associate_filenames_in_folder filenames.
Proof.
  intros filenames.
  apply (associate_filenames_any_order filenames [ "d"; "cPR1"; "c"; "b"; "a"; "d" ]).
  vm_compute. reflexivity.
Defined.

(** ** CPT tokenizer: where the comment starts *)

Lemma prefix_append (s rest : string) : String.prefix s (s +:+ rest) = true.
Proof.
  induction s as [|c s IH].
  - rewrite append_nil. destruct rest; reflexivity.
  - rewrite append_cons. cbn [String.prefix].
    destruct (ascii_dec c c); [exact IH | contradiction].
Qed.

Lemma str_index_prefix (c : ascii) (s rest : string) :
  str_index (String c s +:+ rest) (String c s) = Ok 0%nat.
Proof.
  unfold str_index.
  pose proof (prefix_append (String c s) rest) as Hp.
  rewrite append_cons in *. cbn [String.index]. rewrite Hp. reflexivity.
Qed.

(** X25.  [_cpt_split_func] looks for the fourth value of the line by
    its text, between two spaces, and takes the first place where this
    text stands.  When the line starts with a space and its first value
    has the text of the fourth one, the place found is the first value:
    the comment is cut right behind the first value, so that the second
    to fourth values are read as comment text. *)
Theorem cpt_split_func_repeated_value (t rest : string) :
  list_last (take 4 (split (" " +:+ t +:+ " " +:+ rest))) = Ok t ->
  _cpt_split_func (" " +:+ t +:+ " " +:+ rest)
  = Ok (take 4 (split (" " +:+ t +:+ " " +:+ rest))
        ++ [strip (str_slice (String.length t + 1) (String.length t + 1 + 25)
                     (" " +:+ t +:+ " " +:+ rest))]
        ++ split (str_drop (String.length t + 1 + 25) (" " +:+ t +:+ " " +:+ rest))).
Proof.
  intros Hlast. unfold _cpt_split_func, _cpt_split_func_n. cbv zeta.
  rewrite Hlast. cbn [mbind res_bind].
  assert (Hline : " " +:+ t +:+ " " +:+ rest = String " " (t +:+ " ") +:+ rest).
  { change (String " " (t +:+ " ") +:+ rest) with (" " +:+ (t +:+ " ") +:+ rest).
    rewrite (append_assoc t " " rest). reflexivity. }
  assert (Hidx : str_index (" " +:+ t +:+ " " +:+ rest) (" " +:+ t +:+ " ") = Ok 0%nat).
  { rewrite Hline. apply str_index_prefix. }
  rewrite Hidx. reflexivity.
Qed.

Lemma cpt_split_func_repeated_value_witness :
  _cpt_split_func (" " +:+ "0.0" +:+ " " +:+ "1.5 2.5 0.0 stein                    7 8")
  = Ok ([ "0.0"; "1.5"; "2.5"; "0.0" ] ++ [ "1.5 2.5 0.0 stein" ] ++ [ "7"; "8" ]).
Proof.
  apply (cpt_split_func_repeated_value "0.0" "1.5 2.5 0.0 stein                    7 8").
  vm_compute. reflexivity.
Defined.

Arguments _parse_data_block : simpl never.
Arguments _parse_metadata_block : simpl never.
Arguments _extract_and_add_symbol_text : simpl never.
Arguments _prv_split_func : simpl never.
Arguments _label_from_symbol : simpl never.

(** ** Soil-type labels of auxiliary rows: what raises *)


Lemma _extract_symbol_loop_app (pre : list record) : forall pre' rest,
  _extract_symbol_loop pre = Ok pre' ->
  _extract_symbol_loop (pre ++ rest)
  = (rest' ← _extract_symbol_loop rest; Ok (pre' ++ rest')).
Proof.
  induction pre as [|row pre IH]; intros pre' rest Hpre; simpl in *.
  - inversion Hpre; subst. simpl. destruct (_extract_symbol_loop rest); reflexivity.
  - destruct (dict_get row "symbol") as [symbol|e]; simpl in *; [|discriminate].
    destruct (_label_from_symbol symbol) as [labels|e]; simpl in *; [|discriminate].
    destruct (join_values " " labels) as [joined|e]; simpl in *; [|discriminate].
    destruct (_extract_symbol_loop pre) as [pre0|e] eqn:Hp; simpl in *; [|discriminate].
    inversion Hpre; subst.
    rewrite (IH pre0 rest eq_refl).
    destruct (_extract_symbol_loop rest); reflexivity.
Qed.

(** The loop stops at the first row whose symbol cannot be labelled,
    with the exception of that row. *)
Lemma _extract_symbol_loop_raises (pre : list record) (row : record)
    (rest : list record) (pre' : list record) (symbol : value) (e : exn) :
  _extract_symbol_loop pre = Ok pre' ->
  row !! "symbol" = Some symbol ->
  (labels ← _label_from_symbol symbol; join_values " " labels) = Raise e ->
  _extract_and_add_symbol_text (pre ++ row :: rest) = Raise e.
Proof.
  intros Hpre Hrow Hraise. unfold _extract_and_add_symbol_text.
  rewrite (_extract_symbol_loop_app pre pre' _ Hpre). simpl.
  unfold dict_get. rewrite Hrow. simpl.
  destruct (_label_from_symbol symbol) as [labels|e']; simpl in *.
  - rewrite Hraise. reflexivity.
  - inversion Hraise; subst. reflexivity.
Qed.

Section Auxiliary.

Variable T : tables.

Lemma parse_prv_file_rows (lines : list string) (b0 b1 : Block) (more : list Block)
    (metadata : record) (data : list record) :
  _get_blocks lines = b0 :: b1 :: more ->
  _parse_metadata_block b0 (prv_metadata_mapping T) = Ok metadata ->
  _parse_data_block b1 (prv_data_mapping T) _prv_split_func = Ok data ->
  parse_prv_file T lines
  = match _extract_and_add_symbol_text data with
    | Ok rows => Ok (prv_result metadata rows [])
    | Raise ValueError => Ok (prv_result metadata [] [])
    | Raise e => Raise e
    end.
Proof.
  intros Hblocks Hmeta Hdata. unfold parse_prv_file, parse_prv_blocks.
  rewrite Hblocks, getitem_0. simpl. rewrite Hmeta. simpl.
  rewrite getitem_1. simpl. rewrite Hdata. simpl.
  destruct (_extract_and_add_symbol_text data) as [rows|[]]; reflexivity.
Qed.

End Auxiliary.

(** X26.  A file of exactly one block: [parse_prv_file] returns the
    metadata of that block, no data row and one error. *)
Theorem parse_prv_file_one_block (T : tables) (lines : list string) (b : Block)
    (metadata : record) :
  _get_blocks lines = [b] ->
  _parse_metadata_block b (prv_metadata_mapping T) = Ok metadata ->
  exists r e,
    parse_prv_file T lines = Ok r
    /\ r !! "data" = Some (RRows [])
    /\ r !! "errors" = Some (RErrors [e])
    /\ (forall k v, metadata !! k = Some v -> k <> "data" -> k <> "errors" ->
                    r !! k = Some (RVal v)).
Proof.
  intros Hblocks Hmeta. unfold parse_prv_file, parse_prv_blocks.
  rewrite Hblocks, getitem_0. simpl. rewrite Hmeta. simpl.
  eexists. eexists. split; [reflexivity|].
  unfold prv_result. split; [|split].
  - rewrite lookup_insert_ne by discriminate. apply lookup_insert_eq.
  - apply lookup_insert_eq.
  - intros k v Hk Hd He.
    rewrite !lookup_insert_ne by congruence.
    unfold dict_merge. apply lookup_union_Some_l.
    rewrite lookup_fmap, Hk. reflexivity.
Qed.

Lemma parse_prv_file_one_block_witness :
  exists r e,
    parse_prv_file sample_tables ["BH 1"; "*"] = Ok r
    /\ r !! "data" = Some (RRows [])
    /\ r !! "errors" = Some (RErrors [e])
    /\ (forall k v, ({[ "name" := VStr "BH 1" ]} : gmap string value) !! k = Some v ->
                    k <> "data" -> k <> "errors" -> r !! k = Some (RVal v)).
Proof.
  apply (parse_prv_file_one_block sample_tables ["BH 1"; "*"] ["BH 1"]).
  - reflexivity.
  - vm_compute. reflexivity.
Defined.



(** X28.  A data row whose symbol has no integer value (the missing
    value of a token that is absent or is no number) makes the
    labelling raise [ValueError]; [parse_prv_file] then returns a
    result with the metadata fields of the first block, the type
    [prv], no data row at all, and an empty error list. *)
Theorem parse_prv_file_symbol_missing (T : tables) (lines : list string)
    (b0 b1 : Block) (more : list Block) (metadata : record)
    (pre pre' : list record) (row : record) (rest : list record) (symbol : value) :
  _get_blocks lines = b0 :: b1 :: more ->
  _parse_metadata_block b0 (prv_metadata_mapping T) = Ok metadata ->
  _parse_data_block b1 (prv_data_mapping T) _prv_split_func = Ok (pre ++ row :: rest) ->
  _extract_symbol_loop pre = Ok pre' ->
  row !! "symbol" = Some symbol ->
  py_int symbol = Raise ValueError ->
  exists r,
    parse_prv_file T lines = Ok r
    /\ r !! "data" = Some (RRows [])
    /\ r !! "errors" = Some (RErrors [])
    /\ (forall k v, metadata !! k = Some v -> k <> "data" -> k <> "errors" ->
                    r !! k = Some (RVal v))
    /\ (metadata !! "type" = None -> r !! "type" = Some (RVal (VStr "prv"))).
Proof.
  intros Hblocks Hmeta Hdata Hpre Hrow Hint.
  rewrite (parse_prv_file_rows T lines b0 b1 more metadata _ Hblocks Hmeta Hdata).
  rewrite (_extract_symbol_loop_raises pre row rest pre' symbol ValueError Hpre Hrow).
  - eexists. split; [reflexivity|]. unfold prv_result. split; [|split; [|split]].
    + rewrite lookup_insert_ne by discriminate. apply lookup_insert_eq.
    + apply lookup_insert_eq.
    + intros k v Hk Hd He.
      rewrite !lookup_insert_ne by congruence.
      unfold dict_merge. apply lookup_union_Some_l.
      rewrite lookup_fmap, Hk. reflexivity.
    + intros Ht. rewrite !lookup_insert_ne by discriminate.
      unfold dict_merge. rewrite lookup_union_r by (rewrite lookup_fmap, Ht; reflexivity).
      apply lookup_singleton_eq.
  - unfold _label_from_symbol. rewrite Hint. reflexivity.
Qed.

Lemma parse_prv_file_symbol_missing_witness :
  exists r,
    parse_prv_file sample_tables ["BH"; "*"; "1.0 1"; "2.0 x"; "3.0 2"] = Ok r
    /\ r !! "data" = Some (RRows [])
    /\ r !! "errors" = Some (RErrors [])
    /\ (forall k v, ({[ "name" := VStr "BH" ]} : gmap string value) !! k = Some v ->
                    k <> "data" -> k <> "errors" -> r !! k = Some (RVal v))
    /\ (({[ "name" := VStr "BH" ]} : gmap string value) !! "type" = None ->
        r !! "type" = Some (RVal (VStr "prv"))).
Proof.
  apply (parse_prv_file_symbol_missing sample_tables
           ["BH"; "*"; "1.0 1"; "2.0 x"; "3.0 2"]
           ["BH"] ["1.0 1"; "2.0 x"; "3.0 2"] [] {[ "name" := VStr "BH" ]}
           [ {[ "dybde" := VStr "1.0"; "symbol" := VInt 1 ]} ]
           [ {[ "dybde" := VStr "1.0"; "symbol" := VInt 1;
                "symbol_soiltype" := VStr "Leire" ]} ]
           {[ "dybde" := VStr "2.0"; "symbol" := VNan ]}
           [ {[ "dybde" := VStr "3.0"; "symbol" := VInt 2 ]} ]
           VNan); vm_compute; reflexivity.
Defined.

(** ** Fixed-comment-field tokenizer *)

Lemma _parse_data_block_cons (mapping : data_mapping)
    (f : string -> res (list string)) (line : string) (rest : Block) :
  _parse_data_block (line :: rest) mapping f
  = (line_vals ← f line;
     row ← _parse_data_row line_vals mapping ∅;
     parsed_lines ← _parse_data_block rest mapping f;
     Ok (row :: parsed_lines)).
Proof. reflexivity. Qed.

Lemma _parse_data_block_app (mapping : data_mapping)
    (f : string -> res (list string)) (pre : Block) : forall rows rest,
  _parse_data_block pre mapping f = Ok rows ->
  _parse_data_block (pre ++ rest) mapping f
  = (rows' ← _parse_data_block rest mapping f; Ok (rows ++ rows')).
Proof.
  induction pre as [|line pre IH]; intros rows rest Hpre.
  - inversion Hpre; subst. simpl. destruct (_parse_data_block rest mapping f); reflexivity.
  - rewrite <- app_comm_cons, _parse_data_block_cons.
    rewrite _parse_data_block_cons in Hpre.
    destruct (f line) as [vals|e]; simpl in *; [|discriminate].
    destruct (_parse_data_row vals mapping ∅) as [row|e]; simpl in *; [|discriminate].
    destruct (_parse_data_block pre mapping f) as [rows0|e] eqn:Hp; simpl in *;
      [|discriminate].
    inversion Hpre; subst. rewrite (IH rows0 rest eq_refl).
    destruct (_parse_data_block rest mapping f); reflexivity.
Qed.

(** X29.  The tokenizer of CPT rows raises [IndexError] on a line
    without any token (an empty or blank line), and so does the
    decoding of a CPT block that holds such a line after lines that
    decode; the exception is not one that the row decoder catches. *)
Theorem cpt_split_func_blank_line (mapping : data_mapping) (pre : Block)
    (line : string) (rest : Block) (rows : list record) :
  split line = [] ->
  _parse_data_block pre mapping _cpt_split_func = Ok rows ->
  _cpt_split_func line = Raise IndexError
  /\ _parse_data_block (pre ++ line :: rest) mapping _cpt_split_func = Raise IndexError.
Proof.
  intros Hline Hpre.
  assert (Hsplit : _cpt_split_func line = Raise IndexError).
  { unfold _cpt_split_func, _cpt_split_func_n. rewrite Hline. reflexivity. }
  split; [exact Hsplit|].
  rewrite (_parse_data_block_app mapping _cpt_split_func pre rows _ Hpre).
  rewrite _parse_data_block_cons, Hsplit. reflexivity.
Qed.

Lemma cpt_split_func_blank_line_witness :
  _cpt_split_func "   " = Raise IndexError
  /\ _parse_data_block ([" 1 2 3 4 "] ++ "   " :: [" 5 6 7 8 "])
       (cpt_data_mapping sample_tables) _cpt_split_func = Raise IndexError.
Proof.
  apply (cpt_split_func_blank_line (cpt_data_mapping sample_tables) [" 1 2 3 4 "] "   "
           [" 5 6 7 8 "]
           (match _parse_data_block [" 1 2 3 4 "] (cpt_data_mapping sample_tables)
                    _cpt_split_func with Ok rows => rows | Raise _ => [] end)).
  - reflexivity.
  - vm_compute. reflexivity.
Defined.
